(** * Arthemy Live Tuner (Z-Image / Qwen): a shallow embedding of the tuners

    The development follows the Python sources file by file:
    - [LiveTuner] : arthemy_model_live_tuner_zit.py and its LAB sibling
                    (destructive tuning with backup and restore);
    - [ZImage]    : zimage_arthemy_tuner.py (state-dict tuners, Simple and LAB);
    - [Host]      : the patch registry of the host and what the four patch
                    tuners share;
    - [QwenTE]    : qwen_te_arthemy_tuner.py (patch tuners and the saver);
    - [QwenLive]  : arthemy_qwenTE_live_tuner_zit.py and its LAB sibling;
    - [QwenTE64]  : the arithmetic of [tune_qwen_simple] once more, on
                    IEEE 754 binary64 numbers.

    Numbers.  A Python [float] is idealised as an exact rational kept in
    lowest terms: the arithmetic below is the arithmetic the sources write,
    without binary rounding.  Comparisons ([==], [<=], [>]) are the exact
    ones.  Everything that is stated about a scale or a strength is therefore
    a statement of real arithmetic, except where [QwenTE64] is named: there
    the numbers are the binary64 numbers of the program.

    Tensors.  A tensor is its shape and its elements; the precision cast and
    the broadcasting sum of torch are parameters of the saver. *)

From Stdlib Require Import Ascii String QArith Qreduction Qabs Lqa.
From Stdlib Require PrimFloat.
From stdpp Require Import gmap strings list fin_maps pretty.
Set Warnings "-inexact-float".

Local Open Scope string_scope.

(** ** Python floats *)

Module PyFloat.

Definition float := Q.

Definition fadd (a b : float) : float := Qred (a + b).
Definition fsub (a b : float) : float := Qred (a - b).
Definition fmul (a b : float) : float := Qred (a * b).
Definition fabs (a : float) : float := Qred (Qabs a).

(** [a == b], [a <= b], [a > b] *)
Definition feqb (a b : float) : bool := Qeq_bool a b.
Definition fleb (a b : float) : bool := Qle_bool a b.
Definition fgtb (a b : float) : bool := negb (Qle_bool a b).

(** [max(a, b)] of Python: the first argument unless the second is larger. *)
Definition fmax (a b : float) : float := if fgtb b a then b else a.

Arguments fadd (a b)%_Q.
Arguments fsub (a b)%_Q.
Arguments fmul (a b)%_Q.
Arguments fabs a%_Q.
Arguments feqb (a b)%_Q.
Arguments fleb (a b)%_Q.
Arguments fgtb (a b)%_Q.
Arguments fmax (a b)%_Q.

End PyFloat.
Export PyFloat.

(** ** Python strings: the operations the tuners apply to tensor keys *)

Module PyStr.

(** [key.startswith(p)] *)
Definition startswith (s p : string) : bool := String.prefix p s.

(** [sub in s] *)
Fixpoint contains (sub s : string) : bool :=
  String.prefix sub s ||
  match s with
  | EmptyString => false
  | String _ s' => contains sub s'
  end.

(** [s.split(sep)] for a one-character separator. *)
Fixpoint split_go (sep : ascii) (cur : string) (s : string) : list string :=
  match s with
  | EmptyString => [String.rev cur]
  | String c s' =>
      if Ascii.eqb c sep then String.rev cur :: split_go sep EmptyString s'
      else split_go sep (String c cur) s'
  end.
Definition split (sep : ascii) (s : string) : list string :=
  split_go sep EmptyString s.

(** [s.replace(old, new)] for a non-empty [old]: occurrences are replaced
    from the left and do not overlap.  [skip] counts the characters of an
    occurrence that are still to be dropped. *)
Fixpoint replace_go (old new : string) (skip : nat) (s : string) : string :=
  match s with
  | EmptyString => EmptyString
  | String c s' =>
      match skip with
      | S k => replace_go old new k s'
      | O =>
          if String.prefix old s
          then new +:+ replace_go old new (String.length old - 1) s'
          else String c (replace_go old new 0 s')
      end
  end.
Definition replace (old new s : string) : string := replace_go old new 0 s.

Definition is_digit (c : ascii) : bool :=
  let n := nat_of_ascii c in (48 <=? n)%nat && (n <=? 57)%nat.

Definition digit_val (c : ascii) : Z := Z.of_nat (nat_of_ascii c - 48).

(** Whitespace stripped by [int()]: TAB..CR, FS..US and the space. *)
Definition is_space (c : ascii) : bool :=
  let n := nat_of_ascii c in
  ((9 <=? n)%nat && (n <=? 13)%nat) || ((28 <=? n)%nat && (n <=? 32)%nat).

Fixpoint lstrip (s : string) : string :=
  match s with
  | String c s' => if is_space c then lstrip s' else s
  | EmptyString => EmptyString
  end.
Definition strip (s : string) : string :=
  String.rev (lstrip (String.rev (lstrip s))).

(** Digits of a decimal literal: groups of digits, a single underscore
    allowed between two digits.  [prev] tells whether the previous
    character was a digit. *)
Fixpoint int_digits (acc : Z) (prev : bool) (s : string) : option Z :=
  match s with
  | EmptyString => if prev then Some acc else None
  | String c s' =>
      if is_digit c then int_digits (10 * acc + digit_val c) true s'
      else if Ascii.eqb c "_"%char then
        if prev then
          match s' with
          | String d _ => if is_digit d then int_digits acc false s' else None
          | EmptyString => None
          end
        else None
      else None
  end.

(** [int(s)] in base ten; [None] stands for [ValueError].  Keys are byte
    strings here, so the non-ASCII digits Python also accepts are out of
    the model. *)
Definition py_int (s : string) : option Z :=
  match strip s with
  | String "-" s' => Z.opp <$> int_digits 0 false s'
  | String "+" s' => int_digits 0 false s'
  | s' => int_digits 0 false s'
  end.

(** The maximal run of digits at the head of [s], and what follows. *)
Fixpoint span_digits (s : string) : string * string :=
  match s with
  | String c s' =>
      if is_digit c then let '(ds, r) := span_digits s' in (String c ds, r)
      else (EmptyString, s)
  | EmptyString => (EmptyString, EmptyString)
  end.

Fixpoint drop (n : nat) (s : string) : string :=
  match n, s with
  | S k, String _ s' => drop k s'
  | _, _ => s
  end.

(** A match of [tok(\d+)\.] anchored at the head of [s]: the captured
    digits.  [\d+] is greedy and must be followed by a dot, so the capture
    is the maximal run of digits. *)
Definition match_here (tok s : string) : option string :=
  if String.prefix tok s then
    let '(ds, r) := span_digits (drop (String.length tok) s) in
    match ds, r with
    | String _ _, String "." _ => Some ds
    | _, _ => None
    end
  else None.

(** [re.search(tok(\d+)\., s)]: the leftmost match, as its group 1. *)
Fixpoint re_search (tok s : string) : option string :=
  match match_here tok s with
  | Some ds => Some ds
  | None =>
      match s with
      | EmptyString => None
      | String _ s' => re_search tok s'
      end
  end.

(** [f"{i:02d}"] *)
Definition fmt02 (i : nat) : string :=
  if (i <? 10)%nat then "0" +:+ pretty i else pretty i.

End PyStr.
Export PyStr.

(** ** Tensors *)

Module Torch.

(** A tensor: its shape and its elements in row-major order. *)
Record Tensor := mkTensor { shape : list nat; data : list float }.

(** [t.mul_(s)]: every element multiplied by a Python scalar. *)
Definition mul_ (t : Tensor) (s : float) : Tensor :=
  mkTensor (shape t) (map (fun x => fmul x s) (data t)).
Arguments mul_ t s%_Q.

Definition numel (sh : list nat) : nat := foldr Nat.mul 1%nat sh.

Definition shape_eqb (a b : list nat) : bool := bool_decide (a = b).

(** Element-wise [a + b] of two tensors of one shape. *)
Fixpoint zip_add (a b : list float) : list float :=
  match a, b with
  | x :: a', y :: b' => fadd x y :: zip_add a' b'
  | _, _ => []
  end.

Inductive dtype := F16 | BF16 | F32.

End Torch.
Export Torch.

(** ** What all the tuners share: the mode selector and the sliders *)

Module Inputs.

(** [mode == "Real Value"]; every other value of [mode] takes the soft
    branch, "Soft Value" being the one the menu offers. *)
Definition is_real (mode : string) : bool := String.eqb mode "Real Value".

(** [kwargs.get(name, 1.0)] *)
Definition kw_get (kwargs : gmap string float) (name : string) : float :=
  default 1.0%Q (kwargs !! name).

(** [range(a, b)] *)
Definition range (a b : nat) : list nat := seq a (b - a).

End Inputs.
Export Inputs.

(** ** The destructive tuners with backup and restore *)

Module LiveTuner.

(** A sub-module as [named_modules()] yields it: an [nn.Linear] with its
    weight (and bias), or anything else with its own parameters. *)
Inductive Module_ :=
| Linear (weight : Tensor) (bias : option Tensor)
| Other (params : list (string * Tensor)).

(** A transformer block: [block.named_modules()], in order. *)
Definition Block := list (string * Module_).

(** What a container attribute is bound to: a sequence of blocks, or an
    object [enumerate] cannot iterate. *)
Inductive Container :=
| Blocks (bs : list Block)
| NotIterable.

(** [model.model.diffusion_model], with its identity [id(backbone)] and the
    three attribute names the tuners probe. *)
Record Backbone := mkBackbone {
  obj_id : nat;
  layers : option Container;
  joint_blocks : option Container;
  blocks : option Container
}.

Record Inner := mkInner { diffusion_model : option Backbone }.
Record Model := mkModel { model : option Inner }.

(** [BACKUP_CACHE]: model identity -> block index -> module name -> weight. *)
Definition Cache := gmap nat (gmap nat (gmap string Tensor)).

(** How a call ends: [return (model, info)] or an exception that reaches
    the caller. *)
Inductive Outcome :=
| Returned (info : string)
| Raised (exc : string).

(** The process state a call leaves: the class-level cache and the model
    object (mutated in place, the handle that is returned). *)
Record Result := mkResult {
  r_cache : Cache;
  r_model : Model;
  r_outcome : Outcome
}.

(** Section 1 of both tuners: the access to the layer container.
    [inl msg] is the early [return (model, msg)]. *)
Definition locate (m : Model) : string + (Backbone * Container) :=
  match model m with
  | None => inl "Error: Model Access Failed"
  | Some inner =>
      match diffusion_model inner with
      | None => inl "Error: Model Access Failed"
      | Some bb =>
          match layers bb with
          | Some c => inr (bb, c)
          | None =>
              match joint_blocks bb with
              | Some c => inr (bb, c)
              | None =>
                  match blocks bb with
                  | Some c => inr (bb, c)
                  | None => inl "Error: Unknown Model Structure"
                  end
              end
          end
      end
  end.

(** The container written back to the attribute it was found under. *)
Definition set_container (m : Model) (c : Container) : Model :=
  match model m with
  | None => m
  | Some inner =>
      match diffusion_model inner with
      | None => m
      | Some bb =>
          let bb' :=
            match layers bb with
            | Some _ => mkBackbone (obj_id bb) (Some c) (joint_blocks bb) (blocks bb)
            | None =>
                match joint_blocks bb with
                | Some _ => mkBackbone (obj_id bb) None (Some c) (blocks bb)
                | None =>
                    match blocks bb with
                    | Some _ => mkBackbone (obj_id bb) None None (Some c)
                    | None => bb
                    end
                end
            end in
          mkModel (Some (mkInner (Some bb')))
      end
  end.

(** Section 2: [layer_backup[name] = module.weight...clone()] for every
    Linear of a block. *)
Definition backup_block (blk : Block) : gmap string Tensor :=
  foldl (fun acc nm =>
           match nm.2 with
           | Linear w _ => <[nm.1 := w]> acc
           | Other _ => acc
           end) ∅ blk.

(** [for i, block in enumerate(layer_container): CACHE[id][i] = layer_backup] *)
Fixpoint backup_from (i : nat) (bs : list Block)
    (acc : gmap nat (gmap string Tensor)) : gmap nat (gmap string Tensor) :=
  match bs with
  | [] => acc
  | blk :: bs' => backup_from (S i) bs' (<[i := backup_block blk]> acc)
  end.

(** Section 3: [module.weight.data.copy_(original_weight)] for every Linear
    whose name is in the block's backup.  The snapshot was cloned from the
    weight it is copied back to, so [copy_] overwrites it as a whole. *)
Definition restore_module (bd : gmap string Tensor) (nm : string * Module_)
    : string * Module_ :=
  match nm.2 with
  | Linear w b =>
      match bd !! nm.1 with
      | Some o => (nm.1, Linear o b)
      | None => nm
      end
  | Other _ => nm
  end.

Definition restore_block (bd : gmap string Tensor) (blk : Block) : Block :=
  map (restore_module bd) blk.

Fixpoint restore_from (i : nat) (bk : gmap nat (gmap string Tensor))
    (bs : list Block) : list Block :=
  match bs with
  | [] => []
  | blk :: bs' =>
      match bk !! i with
      | Some bd => restore_block bd blk
      | None => blk
      end :: restore_from (S i) bk bs'
  end.

(** Section 4: the value transform of the diffusion backbone. *)
Definition get_target_weight (mode : string) (w : float) : float :=
  if is_real mode then w
  else if fleb w 1.0
       then fmax 0.0 (fadd (fmul (-1.02) (fmul w w)) (fmul 2.02 w))
       else fadd 1.0 (fmul (fsub w 1.0) 0.133).
Arguments get_target_weight mode w%_Q.

(** Section 5: [module.weight.data.mul_(scale)] for every Linear of a
    block; [layer_hits] is the number of Linear modules met. *)
Definition scale_module (s : float) (nm : string * Module_) : string * Module_ :=
  match nm.2 with
  | Linear w b => (nm.1, Linear (mul_ w s) b)
  | Other _ => nm
  end.

Definition is_linear (nm : string * Module_) : bool :=
  match nm.2 with Linear _ _ => true | Other _ => false end.

Definition layer_hits (blk : Block) : nat := length (filter is_linear blk).

(** The injection loop, for a scale given per block index.  A block whose
    scale is exactly 1.0 is skipped. *)
Fixpoint inject_from (i : nat) (scale_of : nat -> float) (bs : list Block)
    : list Block * nat :=
  match bs with
  | [] => ([], 0%nat)
  | blk :: bs' =>
      let '(rest, n) := inject_from (S i) scale_of bs' in
      let scale := scale_of i in
      if feqb scale 1.0 then (blk :: rest, n)
      else (map (scale_module scale) blk :: rest,
            if (0 <? layer_hits blk)%nat then S n else n)
  end.

(** The body shared by the two tuners, from the model access to the
    return; [scale_of] and [title] are what differs. *)
Definition tune_with (scale_of : nat -> float) (title : string)
    (cache : Cache) (m : Model) (mode : string) : Result :=
  match locate m with
  | inl msg => mkResult cache m (Returned msg)
  | inr (bb, c) =>
      let model_id := obj_id bb in
      match c with
      | NotIterable =>
          (* [enumerate(layer_container)] raises outside the [try]; on a
             first encounter the empty entry has already been stored. *)
          let cache' :=
            match cache !! model_id with
            | None => <[model_id := ∅]> cache
            | Some _ => cache
            end in
          mkResult cache' m (Raised "TypeError")
      | Blocks bs =>
          let cache' :=
            match cache !! model_id with
            | None => <[model_id := backup_from 0 bs ∅]> cache
            | Some _ => cache
            end in
          let restored :=
            match cache' !! model_id with
            | Some bk => restore_from 0 bk bs
            | None => bs
            end in
          let '(tuned, injected_layers) := inject_from 0 scale_of restored in
          mkResult cache' (set_container m (Blocks tuned))
            (Returned (title +:+ " | Mode: " +:+ mode +:+
                       " | Layers Modulated: " +:+ pretty injected_layers))
      end
  end.

(** *** arthemy_model_live_tuner_zit.py *)

Definition GROUP_MAP : list (string * (nat * nat)) :=
  [ ("STAGE_1_Semantic_Seeding", (0, 6));
    ("STAGE_2_Spatial_Layout", (6, 12));
    ("STAGE_3_Morphological_Form", (12, 18));
    ("STAGE_4_Volumetric_Lighting", (18, 24));
    ("STAGE_5_Surface_Refinement", (24, 30)) ]%nat.

(** [layer_weights]: every index of a group gets
    [get_target_weight(slider) * w_base]. *)
Definition layer_weights (mode : string) (base_scale : float)
    (kwargs : gmap string float) : gmap nat float :=
  let w_base := get_target_weight mode base_scale in
  foldl (fun acc g =>
           let target_val := get_target_weight mode (kw_get kwargs g.1) in
           let final_val := fmul target_val w_base in
           foldl (fun acc i => <[i := final_val]> acc) acc
                 (range g.2.1 g.2.2))
        ∅ GROUP_MAP.

Definition tune_zimage (cache : Cache) (m : Model) (mode : string)
    (base_scale : float) (kwargs : gmap string float) : Result :=
  let lw := layer_weights mode base_scale kwargs in
  tune_with (fun i => default 1.0%Q (lw !! i)) "Z-Image Active" cache m mode.
Arguments tune_zimage cache m mode base_scale%_Q kwargs.

(** *** arthemy_model_live_tuner_zit_LAB.py *)

(** [LAYER_TO_NAME_MAP]: index -> [f"{group}_L{i:02d}"]. *)
Definition LAYER_TO_NAME_MAP : gmap nat string :=
  foldl (fun acc g =>
           foldl (fun acc i => <[i := g.1 +:+ "_L" +:+ fmt02 i]> acc) acc
                 (range g.2.1 g.2.2))
        ∅ GROUP_MAP.

Definition lab_scale (mode : string) (base_scale : float)
    (kwargs : gmap string float) (i : nat) : float :=
  let w_base := get_target_weight mode base_scale in
  let slider_val :=
    match LAYER_TO_NAME_MAP !! i with
    | Some slider_key => kw_get kwargs slider_key
    | None => 1.0%Q
    end in
  fmul (get_target_weight mode slider_val) w_base.

Definition tune_zimage_lab (cache : Cache) (m : Model) (mode : string)
    (base_scale : float) (kwargs : gmap string float) : Result :=
  tune_with (lab_scale mode base_scale kwargs) "Z-Image Lab" cache m mode.
Arguments tune_zimage_lab cache m mode base_scale%_Q kwargs.

(** The snapshot of a model identity covers the model: every Linear of
    every block has an entry under its block index and name.  This is
    what the backup phase establishes on first encounter. *)
Definition block_covered (bd : gmap string Tensor) (blk : Block) : Prop :=
  Forall (fun nm => is_linear nm = true -> is_Some (bd !! nm.1)) blk.

Fixpoint covered_from (i : nat) (bk : gmap nat (gmap string Tensor))
    (bs : list Block) : Prop :=
  match bs with
  | [] => True
  | blk :: bs' =>
      (exists bd, bk !! i = Some bd /\ block_covered bd blk)
      /\ covered_from (S i) bk bs'
  end.

(** A state the tuner can be in for a model: the identity is unseen, or
    its snapshot covers the model. *)
Definition consistent (cache : Cache) (m : Model) : Prop :=
  match locate m with
  | inr (bb, Blocks bs) =>
      match cache !! obj_id bb with
      | None => True
      | Some bk => covered_from 0 bk bs
      end
  | _ => True
  end.

(** The same, as a test that computes. *)
Definition block_coveredb (bd : gmap string Tensor) (blk : Block) : bool :=
  forallb (fun nm => implb (is_linear nm) (bool_decide (is_Some (bd !! nm.1)))) blk.

Fixpoint covered_fromb (i : nat) (bk : gmap nat (gmap string Tensor))
    (bs : list Block) : bool :=
  match bs with
  | [] => true
  | blk :: bs' =>
      match bk !! i with
      | Some bd => block_coveredb bd blk
      | None => false
      end && covered_fromb (S i) bk bs'
  end.

Definition consistentb (cache : Cache) (m : Model) : bool :=
  match locate m with
  | inr (bb, Blocks bs) =>
      match cache !! obj_id bb with
      | None => true
      | Some bk => covered_fromb 0 bk bs
      end
  | _ => true
  end.

(** The layer container cannot be located: the chain
    [model.model.diffusion_model] breaks, or the backbone has none of the
    attributes [layers], [joint_blocks], [blocks]. *)
Definition no_container (m : Model) : Prop :=
  match model m with
  | Some inner =>
      match diffusion_model inner with
      | Some bb => layers bb = None /\ joint_blocks bb = None /\ blocks bb = None
      | None => True
      end
  | None => True
  end.

End LiveTuner.

(** ** zimage_arthemy_tuner.py: the state-dict tuners *)

Module ZImage.

(** Where a tensor key lives: in an indexed layer, in a named component,
    or nowhere the tuner addresses. *)
Inductive Address :=
| Layer (idx : Z)
| Embedder
| Refiner
| NoiseRefiner
| ContextRefiner
| FinalLayer
| Unaddressed.

(** [idx = int(key.split(".")[1])]; [None] when the segment is missing or
    [int] raises, which the bare [except] swallows. *)
Definition layer_index (key : string) : option Z :=
  py_int (nth 1 (split "." key) "").

(** The filter at the head of both loops: [True] when the tensor is left
    alone before any address is looked at.  The second component is the
    increment of [skipped_norm]. *)
Definition excluded (unsafe_tune_normalization : bool) (key : string)
    : bool * nat :=
  if negb (contains "weight" key) && negb (contains "bias" key)
  then (true, 0%nat)
  else
    let is_norm_layer := contains "norm" key || contains "adaLN" key in
    if is_norm_layer && negb unsafe_tune_normalization
    then (true, 1%nat)
    else (false, 0%nat).

(** [is_target and abs(scale - 1.0) > 1e-4] *)
Definition must_scale (scale : float) (is_target : bool) : bool :=
  is_target && fgtb (fabs (fsub scale 1.0)) 1e-4.

(** One turn of [for key, tensor in state_dict.items()], given how the
    tuner resolves a key to [(scale, is_target)]: the tensor after the
    turn and the increments of [count] and [skipped_norm]. *)
Definition tune_entry (resolve_scale : string -> float * bool)
    (unsafe : bool) (kt : string * Tensor) : (string * Tensor) * nat * nat :=
  let '(skip, skipped) := excluded unsafe kt.1 in
  if skip then (kt, 0%nat, skipped)
  else
    let '(scale, is_target) := resolve_scale kt.1 in
    if must_scale scale is_target
    then ((kt.1, mul_ kt.2 scale), 1%nat, 0%nat)
    else (kt, 0%nat, 0%nat).

(** The whole loop: the state dict afterwards, [count], [skipped_norm]. *)
Definition tune_loop (resolve_scale : string -> float * bool) (unsafe : bool)
    (state_dict : list (string * Tensor))
    : list (string * Tensor) * nat * nat :=
  let turns := map (tune_entry resolve_scale unsafe) state_dict in
  (map (fun r => r.1.1) turns,
   sum_list (map (fun r => r.1.2) turns),
   sum_list (map (fun r => r.2) turns)).

(** *** ArthemyZImage_Tuner_Simple *)

Definition get_val (mode : string) (v : float) : float :=
  if is_real mode then v
  else fadd 1.0 (fmul (fsub v 1.0) 0.2).
Arguments get_val mode v%_Q.

(** [calc_final]: the base strength enters in Real mode only. *)
Definition calc_final (mode : string) (base_strength : float) (val : float)
    : float :=
  let v := get_val mode val in
  if is_real mode then fmul v base_strength else v.
Arguments calc_final mode (base_strength val)%_Q.

Record Inputs := mkInputs {
  mode : string;
  base_strength : float;
  block_1_start_00_04 : float;
  block_2_early_05_09 : float;
  block_3_mid_10_14 : float;
  block_4_core_15_19 : float;
  block_5_late_20_24 : float;
  block_6_end_25_29 : float;
  global_attention : float;
  global_mlp : float;
  embedders_strength : float;
  refiners_strength : float;
  unsafe_tune_normalization : bool
}.
Arguments mkInputs mode (_ _ _ _ _ _ _ _ _ _ _)%_Q _.

Record Params := mkParams {
  b1 : float; b2 : float; b3 : float; b4 : float; b5 : float; b6 : float;
  g_att : float; g_mlp : float; emb : float; ref : float
}.

Definition params (inp : Inputs) : Params :=
  let cf := calc_final (mode inp) (base_strength inp) in
  mkParams (cf (block_1_start_00_04 inp)) (cf (block_2_early_05_09 inp))
           (cf (block_3_mid_10_14 inp)) (cf (block_4_core_15_19 inp))
           (cf (block_5_late_20_24 inp)) (cf (block_6_end_25_29 inp))
           (cf (global_attention inp)) (cf (global_mlp inp))
           (cf (embedders_strength inp)) (cf (refiners_strength inp)).

(** The [if / elif] chain of Logic 1 to 4, as the address of a key. *)
Definition resolve (key : string) : Address :=
  if startswith key "layers." then
    match layer_index key with
    | Some idx => Layer idx
    | None => Unaddressed
    end
  else if contains "embedder" key then Embedder
  else if contains "refiner" key then Refiner
  else if contains "final_layer" key then FinalLayer
  else Unaddressed.

(** The block multiplier of an index; an index outside 0..29 keeps 1.0. *)
Definition block_scale (p : Params) (idx : Z) : float :=
  if (0 <=? idx)%Z && (idx <=? 4)%Z then b1 p
  else if (5 <=? idx)%Z && (idx <=? 9)%Z then b2 p
  else if (10 <=? idx)%Z && (idx <=? 14)%Z then b3 p
  else if (15 <=? idx)%Z && (idx <=? 19)%Z then b4 p
  else if (20 <=? idx)%Z && (idx <=? 24)%Z then b5 p
  else if (25 <=? idx)%Z && (idx <=? 29)%Z then b6 p
  else 1.0%Q.

(** [(scale, is_target)] of a key.  The final output layer takes the
    multiplier of the last block. *)
Definition resolve_scale (p : Params) (key : string) : float * bool :=
  match resolve key with
  | Layer idx =>
      let scale := block_scale p idx in
      (if contains "attention" key then fmul scale (g_att p)
       else if contains "feed_forward" key then fmul scale (g_mlp p)
       else scale, true)
  | Embedder => (emb p, true)
  | Refiner => (ref p, true)
  | FinalLayer => (b6 p, true)
  | NoiseRefiner | ContextRefiner | Unaddressed => (1.0%Q, false)
  end.

Definition tune (state_dict : list (string * Tensor)) (inp : Inputs)
    : list (string * Tensor) * nat * nat :=
  tune_loop (resolve_scale (params inp)) (unsafe_tune_normalization inp)
            state_dict.

(** *** ArthemyZImage_Tuner_Lab *)

Definition lab_get_val (mode : string) (base_strength : float) (v : float)
    : float :=
  if is_real mode then fmul v base_strength
  else fadd 1.0 (fmul (fsub v 1.0) 0.2).
Arguments lab_get_val mode (base_strength v)%_Q.

(** [LAYER_CONFIG]: index [i] with the name [f"Layer_{i:02d}"]. *)
Definition LAYER_CONFIG : list (nat * string) :=
  map (fun i => (i, "Layer_" +:+ fmt02 i)) (range 0 30).

Definition layer_scales (mode : string) (base_strength : float)
    (kwargs : gmap string float) : gmap Z float :=
  foldl (fun acc layer =>
           <[Z.of_nat layer.1 :=
               lab_get_val mode base_strength (kw_get kwargs layer.2)]> acc)
        ∅ LAYER_CONFIG.
Arguments layer_scales mode base_strength%_Q kwargs.

Definition resolve_lab (scales : gmap Z float) (key : string) : Address :=
  if startswith key "layers." then
    match layer_index key with
    | Some idx => if bool_decide (is_Some (scales !! idx)) then Layer idx
                  else Unaddressed
    | None => Unaddressed
    end
  else if contains "noise_refiner" key then NoiseRefiner
  else if contains "context_refiner" key then ContextRefiner
  else if contains "embedder" key then Embedder
  else if contains "final_layer" key then FinalLayer
  else Unaddressed.

(** The final layer follows the last main layer, 29. *)
Definition resolve_scale_lab (scales : gmap Z float)
    (val_noise val_context val_embed : float) (key : string) : float * bool :=
  match resolve_lab scales key with
  | Layer idx => (default 1.0%Q (scales !! idx), true)
  | NoiseRefiner => (val_noise, true)
  | ContextRefiner => (val_context, true)
  | Embedder => (val_embed, true)
  | FinalLayer => (default 1.0%Q (scales !! 29%Z), true)
  | Refiner | Unaddressed => (1.0%Q, false)
  end.

Definition tune_lab (state_dict : list (string * Tensor)) (mode : string)
    (base_strength : float) (unsafe_tune_normalization : bool)
    (kwargs : gmap string float) : list (string * Tensor) * nat * nat :=
  let gv := lab_get_val mode base_strength in
  tune_loop
    (resolve_scale_lab (layer_scales mode base_strength kwargs)
       (gv (kw_get kwargs "Noise_Refiners"))
       (gv (kw_get kwargs "Context_Refiners"))
       (gv (kw_get kwargs "Embedders_Global")))
    unsafe_tune_normalization state_dict.
Arguments tune_lab state_dict mode base_strength%_Q _ kwargs.

End ZImage.

(** ** The host's lazy patches *)

Module Host.

(** What a patch entry is made of: tensors, numbers, nested tuples or
    lists, and anything else ([None], callables, ...). *)
#[local] Set Warnings "-register-all".
Inductive pdata :=
| PTensor (t : Tensor)
| PNum (x : float)
| PSeq (l : list pdata)
| PNone.
Arguments PNum x%_Q.

(** A text encoder handle: the named tensors of its model and its patch
    registry, from tensor key to the entries registered so far. *)
Record Clip := mkClip {
  state_dict : list (string * Tensor);
  patches : gmap string (list pdata)
}.

(** Modelled from the spec: the host's patch registration call, which is
    not part of the repository.  The registry is append-only and maps a
    tensor key to the ordered sequence of its
    [(reference, strength, extra_factor)] triples. *)
Definition add_patches (key : string) (value : pdata)
    (strength_patch strength_model : float) (c : Clip) : Clip :=
  mkClip (state_dict c)
    (<[key := (default [] (patches c !! key) ++
               [PSeq [value; PNum strength_patch; PNum strength_model]])%list]>
       (patches c)).
Arguments add_patches key value (strength_patch strength_model)%_Q c.

(** [for key in keys: ... clip_out.add_patches({key: value}, strength, 1.0);
    active_patches += 1], the skeleton of the four patch tuners: [body]
    says, for a key and what the loop holds for it, whether a patch is
    registered and with which value and strength. *)
Definition patch_step {V : Type} (body : string -> V -> option (pdata * float))
    (acc : Clip * nat) (kv : string * V) : Clip * nat :=
  match body kv.1 kv.2 with
  | Some (value, strength) =>
      (add_patches kv.1 value strength 1.0 acc.1, S acc.2)
  | None => acc
  end.

Definition patch_loop {V : Type} (body : string -> V -> option (pdata * float))
    (keys : list (string * V)) (clip_out : Clip) : Clip * nat :=
  foldl (patch_step body) (clip_out, 0%nat) keys.

(** The layer index of a text-encoder key:
    [re.search(r"\.layers\.(\d+)\.", key) or re.search(r"\.h\.(\d+)\.", key)],
    then [int(match.group(1))]. *)
Definition layer_index (key : string) : option Z :=
  match re_search ".layers." key with
  | Some ds => py_int ds
  | None =>
      match re_search ".h." key with
      | Some ds => py_int ds
      | None => None
      end
  end.

(** ["norm" in key or "bias" in key] *)
Definition norm_or_bias (key : string) : bool :=
  contains "norm" key || contains "bias" key.

(** The text-encoder value transform. *)
Definition get_val (mode : string) (v : float) : float :=
  if is_real mode then v else fadd 0.8 (fmul 0.2 v).
Arguments get_val mode v%_Q.

End Host.
Export Host.

(** ** qwen_te_arthemy_tuner.py *)

Module QwenTE.

(** *** ArthemyQwenTunerSimple *)

Definition group_inputs : list (string * (nat * nat)) :=
  [ ("Zone_1_Embedding_00_05", (0, 6));
    ("Zone_2_Syntax_Low_06_11", (6, 12));
    ("Zone_3_Syntax_High_12_17", (12, 18));
    ("Zone_4_Semantics_18_23", (18, 24));
    ("Zone_5_Context_24_29", (24, 30));
    ("Zone_6_Abstract_30_35", (30, 36)) ]%nat.

(** [layer_scales[idx] = get_val(kwargs.get(group_name, 1.0))] *)
Definition layer_scales (mode : string) (kwargs : gmap string float)
    : gmap Z float :=
  foldl (fun acc g =>
           let final_val := get_val mode (kw_get kwargs g.1) in
           foldl (fun acc idx => <[Z.of_nat idx := final_val]> acc) acc
                 (range g.2.1 g.2.2))
        ∅ group_inputs.

(** [debug_map] *)
Record DebugMap := mkDebug {
  dbg_base_strength : float;
  dbg_mode : string;
  dbg_layers : gmap Z float
}.

(** [target_scale = layer_scales[idx] * w_base], for an index the table
    knows. *)
Definition target_scale (scales : gmap Z float) (w_base : float) (idx : Z)
    : option float :=
  (fun s => fmul s w_base) <$> scales !! idx.

(** The body of the patch loop, shared by the Simple and the Lab tuner
    of this file. *)
Definition patch_body (scales : gmap Z float) (w_base : float)
    (key : string) (original_weight : Tensor) : option (pdata * float) :=
  if norm_or_bias key then None
  else
    match layer_index key with
    | Some idx =>
        match target_scale scales w_base idx with
        | Some target_scale =>
            let strength := fsub target_scale 1.0 in
            if negb (feqb strength 0)
            then Some (PSeq [PTensor original_weight], strength)
            else None
        | None => None
        end
    | None => None
    end.

Definition tune_qwen_simple (clip : Clip) (mode : string)
    (base_strength : float) (kwargs : gmap string float)
    : Clip * string * DebugMap :=
  let w_base := get_val mode base_strength in
  let scales := layer_scales mode kwargs in
  let debug_map :=
    mkDebug base_strength mode ((fun v => fsub (fmul v w_base) 1.0) <$> scales) in
  let '(clip_out, active_patches) :=
    patch_loop (patch_body scales w_base) (state_dict clip) clip in
  (clip_out,
   "Simple Tuner (6-Zones) Active | Patches: " +:+ pretty active_patches,
   debug_map).
Arguments tune_qwen_simple clip mode base_strength%_Q kwargs.

(** *** ArthemyQwenTunerLab *)

Definition LAYER_CONFIG : list (nat * string) :=
  map (fun i =>
         (i, (if (i <? 9)%nat then "LLM_Syntax"
              else if (i <? 18)%nat then "LLM_Semantics"
              else if (i <? 27)%nat then "LLM_Context"
              else "LLM_Abstract") +:+ "_L" +:+ fmt02 i))
      (range 0 36).

Definition lab_layer_scales (mode : string) (kwargs : gmap string float)
    : gmap Z float :=
  foldl (fun acc layer =>
           <[Z.of_nat layer.1 := get_val mode (kw_get kwargs layer.2)]> acc)
        ∅ LAYER_CONFIG.

Definition tune_qwen_lab (clip : Clip) (mode : string)
    (base_strength : float) (kwargs : gmap string float)
    : Clip * string * DebugMap :=
  let w_base := get_val mode base_strength in
  let scales := lab_layer_scales mode kwargs in
  let debug_map :=
    mkDebug base_strength mode ((fun v => fsub (fmul v w_base) 1.0) <$> scales) in
  let '(clip_out, active_patches) :=
    patch_loop (patch_body scales w_base) (state_dict clip) clip in
  (clip_out, "Lab Tuner Active | Patches: " +:+ pretty active_patches,
   debug_map).
Arguments tune_qwen_lab clip mode base_strength%_Q kwargs.

(** *** ArthemyQwenSaver *)

(** The recursive unpackers of a patch entry. *)
Fixpoint find_tensor (d : pdata) : option Tensor :=
  match d with
  | PTensor t => Some t
  | PSeq l =>
      (fix go (l : list pdata) : option Tensor :=
         match l with
         | [] => None
         | x :: l' =>
             match find_tensor x with
             | Some t => Some t
             | None => go l'
             end
         end) l
  | PNum _ | PNone => None
  end.

Fixpoint find_strength (d : pdata) : option float :=
  match d with
  | PNum x => Some x
  | PSeq l =>
      (fix go (l : list pdata) : option float :=
         match l with
         | [] => None
         | PNum x :: _ => Some x
         | x :: l' =>
             match find_strength x with
             | Some s => Some s
             | None => go l'
             end
         end) l
  | PTensor _ | PNone => None
  end.

(** [k.replace("qwen3_4b.transformer.", "").replace("model.", "")] *)
Definition clean (k : string) : string :=
  replace "model." "" (replace "qwen3_4b.transformer." "" k).

(** [suffix_map[clean_k] = k] over the keys of the live state dict. *)
Definition suffix_map (ram_sd : list (string * Tensor)) : gmap string string :=
  foldl (fun acc kt => <[clean kt.1 := kt.1]> acc) ∅ ram_sd.

(** [ram_sd[k]]; the keys of a state dict are distinct. *)
Fixpoint sd_get (sd : list (string * Tensor)) (k : string) : option Tensor :=
  match sd with
  | [] => None
  | (k', t) :: sd' => if String.eqb k' k then Some t else sd_get sd' k
  end.

(** How [save_qwen] ends: the template is not on disk; an exception was
    caught and nothing was written; or the archive was written with these
    tensors, [count_patched] patches having been applied. *)
Inductive SaveResult :=
| TemplateMissing
| ExportFailed
| Written (final_sd : list (string * Tensor)) (count_patched : nat).

Section Saver.

(** [t.to(dtype=...)], the precision cast of torch. *)
Variable to_dtype : dtype -> Tensor -> Tensor.

(** [a + b] of torch for two tensors of different shapes: the broadcast
    sum, or [None] when torch raises. *)
Variable broadcast_add : Tensor -> Tensor -> option Tensor.

(** [p_tensor.view(shape)]; [None] when it raises. *)
Definition view (t : Tensor) (sh : list nat) : option Tensor :=
  if (numel (shape t) =? numel sh)%nat then Some (mkTensor sh (data t))
  else None.

Definition tensor_add (a b : Tensor) : option Tensor :=
  if shape_eqb (shape a) (shape b)
  then Some (mkTensor (shape a) (zip_add (data a) (data b)))
  else broadcast_add a b.

(** One entry of [patches]: [weight = weight + p_tensor * p_strength]. *)
Definition apply_patch (weight : Tensor) (count : nat) (p_data : pdata)
    : option (Tensor * nat) :=
  match find_tensor p_data, find_strength p_data with
  | Some p_tensor, Some p_strength =>
      let p_tensor := to_dtype F32 p_tensor in
      let p_tensor :=
        if shape_eqb (shape p_tensor) (shape weight) then p_tensor
        else default p_tensor (view p_tensor (shape weight)) in
      match tensor_add weight (mul_ p_tensor p_strength) with
      | Some w => Some (w, S count)
      | None => None
      end
  | _, _ => Some (weight, count)
  end.

(** [for p_data in patches: ...]: the accumulation, in float32 and
    before any cast to the export precision. *)
Fixpoint accumulate (weight : Tensor) (count : nat) (ps : list pdata)
    : option (Tensor * nat) :=
  match ps with
  | [] => Some (weight, count)
  | p_data :: ps' =>
      match apply_patch weight count p_data with
      | Some (w, c) => accumulate w c ps'
      | None => None
      end
  end.

(** The patches of a matched key: under the live key, else under the
    cleaned key. *)
Definition patches_of (reg : gmap string (list pdata))
    (ram_key clean_orig : string) : list pdata :=
  match reg !! ram_key with
  | Some ps => ps
  | None => default [] (reg !! clean_orig)
  end.

(** One turn of [for orig_key in original_keys]. *)
Definition reconcile_key (tuned_clip : Clip) (smap : gmap string string)
    (dt : dtype) (final_sd : list (string * Tensor)) (count : nat)
    (orig_key : string) : option (list (string * Tensor) * nat) :=
  let clean_orig := clean orig_key in
  match smap !! clean_orig with
  | Some ram_key =>
      match sd_get (state_dict tuned_clip) ram_key with
      | Some w0 =>
          let weight := to_dtype F32 w0 in
          match accumulate weight count
                  (patches_of (patches tuned_clip) ram_key clean_orig) with
          | Some (w, c) => Some ((final_sd ++ [(orig_key, to_dtype dt w)])%list, c)
          | None => None
          end
      | None => None
      end
  | None => Some (final_sd, count)
  end.

Fixpoint reconcile (tuned_clip : Clip) (smap : gmap string string)
    (dt : dtype) (final_sd : list (string * Tensor)) (count : nat)
    (original_keys : list string) : option (list (string * Tensor) * nat) :=
  match original_keys with
  | [] => Some (final_sd, count)
  | orig_key :: rest =>
      match reconcile_key tuned_clip smap dt final_sd count orig_key with
      | Some (sd, c) => reconcile tuned_clip smap dt sd c rest
      | None => None
      end
  end.

(** [save_qwen]; [template] is the key list of the reference checkpoint,
    [None] when the file is not found. *)
Definition save_qwen (tuned_clip : Clip) (template : option (list string))
    (save_precision : string) : SaveResult :=
  match template with
  | None => TemplateMissing
  | Some original_keys =>
      let smap := suffix_map (state_dict tuned_clip) in
      let dt := if String.eqb save_precision "fp32" then F32 else F16 in
      match reconcile tuned_clip smap dt [] 0%nat original_keys with
      | Some (final_sd, count_patched) => Written final_sd count_patched
      | None => ExportFailed
      end
  end.

End Saver.

End QwenTE.

(** ** arthemy_qwenTE_live_tuner_zit.py and its LAB sibling *)

Module QwenLive.

Section Live.

(** [clip.get_key_patches()] of the host: the keys of the model, each
    with the value the host holds for it. *)
Variable get_key_patches : Clip -> list (string * pdata).

Definition bands : list (string * (nat * nat)) :=
  [ ("LLM_Syntax_Parsing", (0, 9));
    ("LLM_Literal_Meaning", (9, 18));
    ("LLM_Contextual_Web", (18, 27));
    ("LLM_Abstract_Concept", (27, 36)) ]%nat.

Definition get_target_weight := get_val.

(** [layer_map[i] = val * w_base] *)
Definition layer_map (mode : string) (base_scale : float)
    (kwargs : gmap string float) : gmap Z float :=
  let w_base := get_target_weight mode base_scale in
  foldl (fun acc band =>
           let val := get_target_weight mode (kw_get kwargs band.1) in
           foldl (fun acc i => <[Z.of_nat i := fmul val w_base]> acc) acc
                 (range band.2.1 band.2.2))
        ∅ bands.

Definition tune_body (lmap : gmap Z float) (key : string) (value : pdata)
    : option (pdata * float) :=
  if norm_or_bias key then None
  else
    match layer_index key with
    | Some idx =>
        match lmap !! idx with
        | Some target_scale =>
            let strength := fsub target_scale 1.0 in
            if negb (feqb strength 0) then Some (value, strength) else None
        | None => None
        end
    | None => None
    end.

Definition tune_qwen (clip : Clip) (mode : string) (base_scale : float)
    (kwargs : gmap string float) : Clip * string :=
  let lmap := layer_map mode base_scale kwargs in
  let kp := get_key_patches clip in
  let '(clip_out, active_patches) := patch_loop (tune_body lmap) kp clip in
  (clip_out,
   "Qwen Tuned | Active Patches: " +:+ pretty active_patches +:+
   " | Mode: " +:+ mode).

(** *** The LAB version *)

Definition LAYER_CONFIG : list (nat * string) :=
  map (fun i =>
         (i, (if (i <? 9)%nat then "LLM_Syntax_Parsing"
              else if (i <? 18)%nat then "LLM_Literal_Meaning"
              else if (i <? 27)%nat then "LLM_Contextual_Web"
              else "LLM_Abstract_Concept") +:+ "_L" +:+ fmt02 i))
      (range 0 36).

Definition lab_layer_scales (mode : string) (kwargs : gmap string float)
    : gmap Z float :=
  foldl (fun acc layer =>
           <[Z.of_nat layer.1 :=
               get_target_weight mode (kw_get kwargs layer.2)]> acc)
        ∅ LAYER_CONFIG.

(** [target_scale] starts at [w_base] and is refined when the key
    carries a known layer index. *)
Definition lab_target_scale (scales : gmap Z float) (w_base : float)
    (key : string) : float * nat :=
  match layer_index key with
  | Some idx =>
      match scales !! idx with
      | Some s => (fmul s w_base, 1%nat)
      | None => (w_base, 0%nat)
      end
  | None => (w_base, 0%nat)
  end.

Definition lab_body (scales : gmap Z float) (w_base : float)
    (key : string) (value : pdata) : option (pdata * float) :=
  if norm_or_bias key then None
  else
    let target_scale := (lab_target_scale scales w_base key).1 in
    let strength := fsub target_scale 1.0 in
    if negb (feqb strength 0) then Some (value, strength) else None.

(** [modulations]: the keys that passed the filter and carry a known
    layer index. *)
Definition modulations (scales : gmap Z float) (w_base : float)
    (kp : list (string * pdata)) : nat :=
  sum_list (map (fun kv => if norm_or_bias kv.1 then 0%nat
                           else (lab_target_scale scales w_base kv.1).2) kp).

Definition tune_qwen_lab (clip : Clip) (mode : string) (base_scale : float)
    (kwargs : gmap string float) : Clip * string :=
  let w_base := get_target_weight mode base_scale in
  let scales := lab_layer_scales mode kwargs in
  let kp := get_key_patches clip in
  let '(clip_out, active_patches) :=
    patch_loop (lab_body scales w_base) kp clip in
  (clip_out,
   "Qwen Lab Active | Mode: " +:+ mode +:+
   " | Patches: " +:+ pretty active_patches +:+
   " | Layers Mod: " +:+ pretty (modulations scales w_base kp `div` 3)%nat).

End Live.

Arguments layer_map mode base_scale%_Q kwargs.
Arguments tune_qwen get_key_patches clip mode base_scale%_Q kwargs.
Arguments tune_qwen_lab get_key_patches clip mode base_scale%_Q kwargs.

End QwenLive.

(** ** qwen_te_arthemy_tuner.py: the arithmetic of the Simple tuner in binary64

    The slider table, the debug map and the strength of the patch loop of
    [tune_qwen_simple] once more, with Python's floats as IEEE 754 binary64
    numbers instead of exact rationals.  A decimal literal denotes the
    nearest binary64 number, as in Python. *)

Module QwenTE64.
Import PrimFloat.

(** [kwargs.get(name, 1.0)] *)
Definition kw_get (kwargs : gmap string PrimFloat.float) (name : string)
    : PrimFloat.float :=
  default 1.0%float (kwargs !! name).

Definition get_val (mode : string) (v : PrimFloat.float) : PrimFloat.float :=
  if is_real mode then v else (0.8 + 0.2 * v)%float.

(** [layer_scales[idx] = get_val(kwargs.get(group_name, 1.0))] *)
Definition layer_scales (mode : string) (kwargs : gmap string PrimFloat.float)
    : gmap Z PrimFloat.float :=
  foldl (fun acc g =>
           let final_val := get_val mode (kw_get kwargs g.1) in
           foldl (fun acc idx => <[Z.of_nat idx := final_val]> acc) acc
                 (range g.2.1 g.2.2))
        ∅ QwenTE.group_inputs.

(** [target_scale = layer_scales[idx] * w_base] *)
Definition target_scale (mode : string) (base_strength : PrimFloat.float)
    (kwargs : gmap string PrimFloat.float) (idx : Z) : option PrimFloat.float :=
  (fun s => (s * get_val mode base_strength)%float) <$> layer_scales mode kwargs !! idx.

(** [debug_map["layers"][idx] = (final_val * w_base) - 1.0] *)
Definition debug_layers (mode : string) (base_strength : PrimFloat.float)
    (kwargs : gmap string PrimFloat.float) : gmap Z PrimFloat.float :=
  (fun v => (v * get_val mode base_strength - 1.0)%float) <$> layer_scales mode kwargs.

(** The strength with which the loop calls [add_patches] for a key of the
    state dict; [None] when the key is skipped. *)
Definition strength (mode : string) (base_strength : PrimFloat.float)
    (kwargs : gmap string PrimFloat.float) (key : string)
    : option PrimFloat.float :=
  if norm_or_bias key then None
  else
    match layer_index key with
    | Some idx =>
        match target_scale mode base_strength kwargs idx with
        | Some target_scale =>
            let strength := (target_scale - 1.0)%float in
            if negb (strength =? 0)%float then Some strength else None
        | None => None
        end
    | None => None
    end.

End QwenTE64.

(** ** Concrete inputs used by the examples *)

Module Demo.
Import LiveTuner.

(** A model of two blocks used in the examples: block 0 has two Linear
    modules and a norm, block 1 one Linear with a bias. *)
Definition demo_weight (a b : float) : Tensor := mkTensor [2%nat] [a; b].
Arguments demo_weight (a b)%_Q.

Definition demo_blocks : list Block :=
  [ [ ("", Other []);
      ("attention.qkv", Linear (demo_weight 1 2) None);
      ("attention_norm1", Other [("weight", demo_weight 1 1)]);
      ("feed_forward.w1", Linear (demo_weight 3 4) None) ];
    [ ("attention.out", Linear (demo_weight 5 6) (Some (demo_weight 7 8))) ] ].

Definition demo_model : Model :=
  mkModel (Some (mkInner (Some (mkBackbone 41 (Some (Blocks demo_blocks)) None None)))).

(** The same model after a first tuning: a BACKED_UP / TUNED state. *)
Definition demo_tuned : Result :=
  tune_zimage ∅ demo_model "Real Value" 2 ∅.

(** A handle whose backbone has no known container attribute. *)
Definition demo_unknown : Model :=
  mkModel (Some (mkInner (Some (mkBackbone 42 None None None)))).

(** Inputs of the Simple state-dict tuner: SOFT mode, base 2.0, every
    slider at 1.0, normalization locked. *)
Definition demo_soft_inputs : ZImage.Inputs :=
  ZImage.mkInputs "Soft Value" 2 1 1 1 1 1 1 1 1 1 1 false.

(** A text encoder with an attention weight of layer 0, a norm, a bias, the
    token embedding (no layer index) and a weight of layer 7. *)
Definition demo_clip : Clip :=
  mkClip
    [ ("model.layers.0.self_attn.q_proj.weight", demo_weight 1 2);
      ("model.layers.0.input_layernorm.weight", demo_weight 1 1);
      ("model.layers.0.self_attn.q_proj.bias", demo_weight 0 1);
      ("model.embed_tokens.weight", demo_weight 3 4);
      ("model.layers.7.mlp.up_proj.weight", demo_weight 5 6) ]
    ∅.

(** A host whose [get_key_patches] holds, for every key, the weight in a
    one-element tuple. *)
Definition demo_key_patches (c : Clip) : list (string * pdata) :=
  map (fun kt => (kt.1, PSeq [PTensor kt.2])) (state_dict c).

(** Inputs of the Simple state-dict tuner: Real mode, base 1.0, the first
    block at 2.0, normalization locked. *)
Definition demo_real_inputs : ZImage.Inputs :=
  ZImage.mkInputs "Real Value" 1 2 1 1 1 1 1 1 1 1 1 false.

(** The same with the first block at 1.0 + 5e-5. *)
Definition demo_epsilon_inputs : ZImage.Inputs :=
  ZImage.mkInputs "Real Value" 1 1.00005 1 1 1 1 1 1 1 1 1 false.

(** A tuned text encoder for the saver: one tensor, stored under the
    wrapper prefix, with one accumulated patch (its own weight, 0.1, 1.0). *)
Definition demo_tuned_clip : Clip :=
  mkClip
    [ ("qwen3_4b.transformer.model.layers.0.mlp.weight", demo_weight 1 2) ]
    {[ "qwen3_4b.transformer.model.layers.0.mlp.weight" :=
         [PSeq [PSeq [PTensor (demo_weight 1 2)]; PNum 0.1; PNum 1.0]] ]}.

(** A cast that keeps the values (exact numbers have no precision to lose)
    and a torch that refuses to add tensors of different shapes. *)
Definition demo_to_dtype (dt : dtype) (t : Tensor) : Tensor := t.
Definition demo_broadcast_add (a b : Tensor) : option Tensor := None.

End Demo.
Export Demo.

(** ** Views of a model and of the inputs, used to state properties *)

Module Views.
Import LiveTuner.

(** The blocks of a model whose container is a sequence of blocks. *)
Definition blocks_of (m : Model) : list Block :=
  match locate m with
  | inr (_, Blocks bs) => bs
  | _ => []
  end.

(** The identity the backup cache is keyed by, when the access succeeds. *)
Definition model_id (m : Model) : option nat :=
  match locate m with
  | inr (bb, _) => Some (obj_id bb)
  | inl _ => None
  end.

(** [named_modules()] gives every sub-module of a block a name of its own. *)
Definition names_distinct (bs : list Block) : Prop :=
  Forall (fun blk : Block => NoDup (map fst blk)) bs.

(** A module without its Linear weight: what a tuner has no business with. *)
Definition erase_weight (nm : string * Module_) : string * Module_ :=
  match nm.2 with
  | Linear _ b => (nm.1, Linear (mkTensor [] []) b)
  | Other _ => nm
  end.

Definition frame_of (m : Model) : list Block :=
  map (map erase_weight) (blocks_of m).

(** Every slider that is given is at 1.0. *)
Definition neutral (kwargs : gmap string float) : Prop :=
  forall name v, kwargs !! name = Some v -> (v == 1)%Q.

End Views.
Export Views.

(** ** More concrete inputs *)

Module Demo2.
Import LiveTuner.

(** A backbone of 31 blocks, one more than the taxonomy knows. *)
Definition demo_deep_blocks : list Block :=
  replicate 31 [("feed_forward.w1", Linear (demo_weight 1 2) None)].

Definition demo_deep_backbone : Backbone :=
  mkBackbone 43 None (Some (Blocks demo_deep_blocks)) None.

Definition demo_deep_model : Model :=
  mkModel (Some (mkInner (Some demo_deep_backbone))).

(** Inputs of the Simple state-dict tuner: Real mode, base 3.0, the first
    block at 2.0 and the attention multiplier at 5.0. *)
Definition demo_base_inputs : ZImage.Inputs :=
  ZImage.mkInputs "Real Value" 3 2 1 1 1 1 1 5 1 1 1 false.

(** A text encoder with a key of layer 40, beyond the 36 layers. *)
Definition demo_wide_clip : Clip :=
  mkClip [ ("model.layers.40.mlp.weight", demo_weight 1 2) ] ∅.

End Demo2.
Export Demo2.

(** ** Views of the inputs of the state-dict tuners *)

Module ZViews.
Import ZImage.

(** The ten sliders of the Simple tuner, as the menu gives them. *)
Definition sliders (inp : Inputs) : Params :=
  mkParams (block_1_start_00_04 inp) (block_2_early_05_09 inp)
           (block_3_mid_10_14 inp) (block_4_core_15_19 inp)
           (block_5_late_20_24 inp) (block_6_end_25_29 inp)
           (global_attention inp) (global_mlp inp)
           (embedders_strength inp) (refiners_strength inp).

Definition param_list (p : Params) : list float :=
  [b1 p; b2 p; b3 p; b4 p; b5 p; b6 p; g_att p; g_mlp p; emb p; ref p].

(** Every multiplier is 1.0. *)
Definition all_ones (p : Params) : Prop :=
  Forall (fun x => (x == 1)%Q) (param_list p).

(** The shapes of a state dict, key by key. *)
Definition shapes (sd : list (string * Tensor)) : list (string * list nat) :=
  map (fun kt => (kt.1, shape kt.2)) sd.

End ZViews.
Export ZViews.

(** ** Concrete inputs and views for the export *)

Module Demo3.

(** An untuned text encoder whose tensors are stored under the wrapper
    prefix: a weight of layer 7 and the final norm. *)
Definition demo_prefixed_clip : Clip :=
  mkClip
    [ ("qwen3_4b.transformer.model.layers.7.mlp.up_proj.weight", demo_weight 5 6);
      ("qwen3_4b.transformer.model.norm.weight", demo_weight 1 1) ]
    ∅.

(** A text encoder whose only tensor carries a patch of three elements,
    which can neither be viewed as nor added to its two. *)
Definition demo_broken_clip : Clip :=
  mkClip
    [ ("model.layers.0.mlp.weight", demo_weight 1 2) ]
    {[ "model.layers.0.mlp.weight" :=
         [PSeq [PSeq [PTensor (mkTensor [3%nat] [1%Q; 1%Q; 1%Q])];
                PNum 0.5; PNum 1.0]] ]}.

(** An entry in which the saver finds a tensor and a strength. *)
Definition complete (p : pdata) : bool :=
  bool_decide (is_Some (QwenTE.find_tensor p))
  && bool_decide (is_Some (QwenTE.find_strength p)).

(** The four spellings of a key: bare, under [model.], under the wrapper,
    and under both. *)
Definition spellings (k : string) : list string :=
  [ k; "model." +:+ k; "qwen3_4b.transformer." +:+ k;
    "qwen3_4b.transformer.model." +:+ k ].

(** No live key is the cleaned form of another live key. *)
Definition clean_stable (sd : list (string * Tensor)) : Prop :=
  Forall (fun k => QwenTE.clean k ∈ map fst sd -> QwenTE.clean k = k) (map fst sd).

End Demo3.
Export Demo3.

(** * Properties *)

Section LiveTunerFacts.
Import LiveTuner.

Lemma restore_module_absorb bd s nm :
  (is_linear nm = true -> is_Some (bd !! nm.1)) ->
  restore_module bd (scale_module s (restore_module bd nm)) = restore_module bd nm.
Proof.
  destruct nm as [name [w b|p]]; unfold restore_module, scale_module; simpl; [|done].
  intros H. destruct (H eq_refl) as [o Ho]. rewrite Ho. simpl. by rewrite Ho.
Qed.

Lemma restore_module_idem bd nm :
  restore_module bd (restore_module bd nm) = restore_module bd nm.
Proof.
  destruct nm as [name [w b|p]]; unfold restore_module; simpl; [|done].
  destruct (bd !! name) as [o|] eqn:E; simpl; by rewrite E.
Qed.

Lemma restore_block_absorb bd s blk :
  block_covered bd blk ->
  restore_block bd (map (scale_module s) (restore_block bd blk)) = restore_block bd blk.
Proof.
  unfold restore_block, block_covered. induction 1 as [|nm blk H _ IH]; [done|].
  simpl. by rewrite restore_module_absorb, IH.
Qed.

Lemma restore_block_idem bd blk :
  restore_block bd (restore_block bd blk) = restore_block bd blk.
Proof.
  unfold restore_block. induction blk as [|nm blk IH]; [done|].
  simpl. by rewrite restore_module_idem, IH.
Qed.

Lemma restore_inject_absorb s bk bs i :
  covered_from i bk bs ->
  restore_from i bk (inject_from i s (restore_from i bk bs)).1 = restore_from i bk bs.
Proof.
  revert i. induction bs as [|blk bs IH]; intros i; [done|].
  simpl. intros [(bd & Hbd & Hcov) Hrest]. rewrite Hbd.
  specialize (IH (S i) Hrest).
  destruct (inject_from (S i) s (restore_from (S i) bk bs)) as [rest n] eqn:E.
  simpl in IH.
  destruct (feqb (s i) 1.0); simpl; rewrite Hbd, IH; f_equal.
  - apply restore_block_idem.
  - by apply restore_block_absorb.
Qed.

(** The backup of a block has an entry for each of its Linear modules. *)
Lemma backup_fold_keeps (blk : Block) (acc : gmap string Tensor) name :
  is_Some (acc !! name) ->
  is_Some (foldl (fun acc nm =>
                    match nm.2 with
                    | Linear w _ => <[nm.1 := w]> acc
                    | Other _ => acc
                    end) acc blk !! name).
Proof.
  revert acc. induction blk as [|[n [w b|p]] blk IH]; intros acc H; simpl; [done| |by apply IH].
  apply IH. destruct (decide (n = name)) as [->|Hne].
  - rewrite lookup_insert_eq. by eexists.
  - by rewrite lookup_insert_ne.
Qed.

Lemma backup_fold_covered (blk : Block) (acc : gmap string Tensor) :
  block_covered (foldl (fun acc nm =>
                    match nm.2 with
                    | Linear w _ => <[nm.1 := w]> acc
                    | Other _ => acc
                    end) acc blk) blk.
Proof.
  unfold block_covered. revert acc.
  induction blk as [|[n [w b|p]] blk IH]; intros acc; simpl; constructor; try apply IH.
  - intros _. simpl. apply backup_fold_keeps. rewrite lookup_insert_eq. by eexists.
  - simpl. discriminate.
Qed.

Lemma backup_block_covered blk : block_covered (backup_block blk) blk.
Proof. apply backup_fold_covered. Qed.

Lemma backup_from_below i bs acc j :
  (j < i)%nat -> backup_from i bs acc !! j = acc !! j.
Proof.
  revert i acc. induction bs as [|blk bs IH]; intros i acc Hj; simpl; [done|].
  rewrite IH by lia. apply lookup_insert_ne. lia.
Qed.

Lemma backup_from_covered i bs acc : covered_from i (backup_from i bs acc) bs.
Proof.
  revert i acc. induction bs as [|blk bs IH]; intros i acc; simpl; [done|].
  split; [|apply IH].
  exists (backup_block blk). split; [|apply backup_block_covered].
  rewrite backup_from_below by lia. apply lookup_insert_eq.
Qed.

(** Coverage only looks at names and kinds, which tuning keeps. *)
Lemma block_covered_restore bd bd' blk :
  block_covered bd blk -> block_covered bd (restore_block bd' blk).
Proof.
  unfold block_covered, restore_block. induction 1 as [|[n [w b|p]] blk H _ IH]; simpl; [done| |].
  - constructor; [|done]. unfold restore_module; simpl.
    destruct (bd' !! n); simpl; intros _; by apply H.
  - constructor; [|done]. discriminate.
Qed.

Lemma block_covered_scale bd s blk :
  block_covered bd blk -> block_covered bd (map (scale_module s) blk).
Proof.
  unfold block_covered. induction 1 as [|[n [w b|p]] blk H _ IH]; simpl; [done| |].
  - constructor; [|done]. simpl. intros _. by apply H.
  - constructor; [|done]. discriminate.
Qed.

Lemma covered_restore i bk bk' bs :
  covered_from i bk bs -> covered_from i bk (restore_from i bk' bs).
Proof.
  revert i. induction bs as [|blk bs IH]; intros i; simpl; [done|].
  intros [(bd & Hbd & Hcov) Hrest]. split; [|by apply IH].
  exists bd. split; [done|]. destruct (bk' !! i); [by apply block_covered_restore|done].
Qed.

Lemma covered_inject i bk s bs :
  covered_from i bk bs -> covered_from i bk (inject_from i s bs).1.
Proof.
  revert i. induction bs as [|blk bs IH]; intros i; simpl; [done|].
  intros [(bd & Hbd & Hcov) Hrest]. specialize (IH (S i) Hrest).
  destruct (inject_from (S i) s bs) as [rest n]. simpl in IH.
  destruct (feqb (s i) 1.0); simpl; (split; [|done]); exists bd; split; try done.
  by apply block_covered_scale.
Qed.

(** The model access after the container has been written back. *)
Lemma locate_set_container m bb c c' :
  locate m = inr (bb, c) ->
  exists bb', locate (set_container m c') = inr (bb', c') /\ obj_id bb' = obj_id bb.
Proof.
  unfold locate, set_container.
  destruct (model m) as [[[[id l j b]|]]|]; simpl; try discriminate.
  destruct l as [cl|]; [|destruct j as [cj|]; [|destruct b as [cb|]]];
    simpl; intros H; inversion H; subst; eexists; split; reflexivity.
Qed.

Lemma set_container_twice m bb c c1 c2 :
  locate m = inr (bb, c) ->
  set_container (set_container m c1) c2 = set_container m c2.
Proof.
  unfold locate, set_container.
  destruct (model m) as [[[[id l j b]|]]|]; simpl; try discriminate.
  destruct l as [cl|]; [|destruct j as [cj|]; [|destruct b as [cb|]]];
    simpl; intros H; inversion H; subst; reflexivity.
Qed.

(** The heart of restore-before-apply: whatever a call did to a consistent
    state, the next call starts from the snapshot again. *)
Lemma tune_with_absorb s1 t1 mode1 s2 t2 mode2 cache m :
  consistent cache m ->
  let r := tune_with s1 t1 cache m mode1 in
  tune_with s2 t2 (r_cache r) (r_model r) mode2 = tune_with s2 t2 cache m mode2.
Proof.
  unfold consistent, tune_with.
  destruct (locate m) as [msg|[bb [bs|]]] eqn:Hloc.
  - intros _. simpl. by rewrite Hloc.
  - intros Hcons.
    set (cache' := match cache !! obj_id bb with
                   | Some _ => cache
                   | None => <[obj_id bb := backup_from 0 bs ∅]> cache
                   end).
    assert (exists bk, cache' !! obj_id bb = Some bk /\ covered_from 0 bk bs)
      as (bk & Hbk & Hcov).
    { subst cache'. destruct (cache !! obj_id bb) as [bk|] eqn:E.
      - by exists bk.
      - eexists. split; [apply lookup_insert_eq|apply backup_from_covered]. }
    rewrite Hbk.
    destruct (inject_from 0 s1 (restore_from 0 bk bs)) as [tuned n] eqn:E1.
    simpl.
    destruct (locate_set_container m bb (Blocks bs) (Blocks tuned) Hloc)
      as (bb' & Hloc' & Hid).
    rewrite Hloc', Hid, Hbk. simpl. rewrite Hbk.
    assert (restore_from 0 bk tuned = restore_from 0 bk bs) as ->.
    { pose proof (restore_inject_absorb s1 bk bs 0 Hcov) as H.
      by rewrite E1 in H. }
    destruct (inject_from 0 s2 (restore_from 0 bk bs)) as [tuned2 n2].
    by rewrite (set_container_twice m bb (Blocks bs) _ _ Hloc).
  - intros _.
    destruct (cache !! obj_id bb) as [bk|] eqn:E; simpl; rewrite Hloc.
    + by rewrite E.
    + rewrite (lookup_insert_eq cache). done.
Qed.

(** What a call leaves in a model whose container is a sequence of blocks:
    the snapshot of the identity (the one already in the cache, or the one
    just taken) is what the blocks are restored from, and the scales are
    applied to the restored blocks. *)
Lemma tune_with_restores_then_scales s t mode cache m bb bs :
  locate m = inr (bb, Blocks bs) ->
  let r := tune_with s t cache m mode in
  exists bk,
    r_cache r !! obj_id bb = Some bk /\
    (forall bk0, cache !! obj_id bb = Some bk0 -> bk0 = bk /\ r_cache r = cache) /\
    (cache !! obj_id bb = None -> bk = backup_from 0 bs ∅) /\
    r_model r = set_container m (Blocks (inject_from 0 s (restore_from 0 bk bs)).1).
Proof.
  intros Hloc. unfold tune_with. rewrite Hloc.
  destruct (cache !! obj_id bb) as [bk|] eqn:E.
  - rewrite E. exists bk.
    destruct (inject_from 0 s (restore_from 0 bk bs)) as [tuned n]. simpl.
    split; [done|]. split; [by intros bk0 [= ->]|]. by split.
  - rewrite (lookup_insert_eq cache). exists (backup_from 0 bs ∅).
    destruct (inject_from 0 s (restore_from 0 (backup_from 0 bs ∅) bs)) as [tuned n].
    simpl. rewrite (lookup_insert_eq cache). by repeat split.
Qed.

(** Consistency is an invariant of tuning. *)
Lemma tune_with_consistent s t mode cache m :
  consistent cache m ->
  let r := tune_with s t cache m mode in consistent (r_cache r) (r_model r).
Proof.
  unfold consistent at 1. unfold tune_with.
  destruct (locate m) as [msg|[bb [bs|]]] eqn:Hloc.
  - intros _. simpl. unfold consistent. by rewrite Hloc.
  - intros Hcons.
    set (cache' := match cache !! obj_id bb with
                   | Some _ => cache
                   | None => <[obj_id bb := backup_from 0 bs ∅]> cache
                   end).
    assert (exists bk, cache' !! obj_id bb = Some bk /\ covered_from 0 bk bs)
      as (bk & Hbk & Hcov).
    { subst cache'. destruct (cache !! obj_id bb) as [bk|] eqn:E.
      - by exists bk.
      - eexists. split; [apply lookup_insert_eq|apply backup_from_covered]. }
    rewrite Hbk.
    pose proof (covered_inject 0 bk s _ (covered_restore 0 bk bk bs Hcov)) as H.
    destruct (inject_from 0 s (restore_from 0 bk bs)) as [tuned n] eqn:E1.
    simpl in *. unfold consistent.
    destruct (locate_set_container m bb (Blocks bs) (Blocks tuned) Hloc)
      as (bb' & Hloc' & Hid).
    by rewrite Hloc', Hid, Hbk.
  - intros _. simpl. unfold consistent. by rewrite Hloc.
Qed.

Lemma block_coveredb_sound bd blk :
  block_coveredb bd blk = true -> block_covered bd blk.
Proof.
  unfold block_coveredb, block_covered. rewrite forallb_forall, Forall_forall.
  intros H nm Hin Hl. specialize (H nm (proj1 (list_elem_of_In _ _) Hin)).
  rewrite Hl in H. simpl in H. by apply bool_decide_eq_true in H.
Qed.

Lemma covered_fromb_sound i bk bs :
  covered_fromb i bk bs = true -> covered_from i bk bs.
Proof.
  revert i. induction bs as [|blk bs IH]; intros i; simpl; [done|].
  intros [H1 H2]%andb_true_iff. split; [|by apply IH].
  destruct (bk !! i) as [bd|]; [|done].
  exists bd. split; [done|]. by apply block_coveredb_sound.
Qed.

Lemma consistentb_sound cache m : consistentb cache m = true -> consistent cache m.
Proof.
  unfold consistentb, consistent.
  destruct (locate m) as [|[bb [bs|]]]; try done.
  destruct (cache !! obj_id bb); [apply covered_fromb_sound|done].
Qed.

(** The two early returns of the model access. *)
Lemma no_container_locate m :
  LiveTuner.no_container m ->
  locate m = inl "Error: Model Access Failed" \/
  locate m = inl "Error: Unknown Model Structure".
Proof.
  unfold LiveTuner.no_container, locate.
  destruct (model m) as [[[bb|]]|]; simpl; auto.
  intros (-> & -> & ->). auto.
Qed.

End LiveTunerFacts.

(** C1 -- Idempotence of the destructive tuners.  In every state the tuner
    can be in for a model (identity unseen, or backed up), calling
    [tune_zimage] (resp. [tune_zimage_lab]) a second time with the same
    inputs leaves exactly what the first call left: the same cache, the same
    model with the same tensors, the same returned string. *)
Theorem tune_twice_same_as_once
    (cache : LiveTuner.Cache) (m : LiveTuner.Model) (mode : string)
    (base_scale : float) (kwargs : gmap string float) :
  LiveTuner.consistent cache m ->
  (let r := LiveTuner.tune_zimage cache m mode base_scale kwargs in
   LiveTuner.tune_zimage (LiveTuner.r_cache r) (LiveTuner.r_model r)
     mode base_scale kwargs = r) /\
  (let r := LiveTuner.tune_zimage_lab cache m mode base_scale kwargs in
   LiveTuner.tune_zimage_lab (LiveTuner.r_cache r) (LiveTuner.r_model r)
     mode base_scale kwargs = r).
Proof.
  intros Hc. split; unfold LiveTuner.tune_zimage, LiveTuner.tune_zimage_lab;
    by apply tune_with_absorb.
Qed.

Lemma tune_twice_same_as_once_witness :
  LiveTuner.consistent (LiveTuner.r_cache demo_tuned) (LiveTuner.r_model demo_tuned) /\
  (let r := LiveTuner.tune_zimage (LiveTuner.r_cache demo_tuned)
              (LiveTuner.r_model demo_tuned) "Soft Value" 1.5
              {[ "STAGE_1_Semantic_Seeding" := 0.5%Q ]} in
   LiveTuner.tune_zimage (LiveTuner.r_cache r) (LiveTuner.r_model r)
     "Soft Value" 1.5 {[ "STAGE_1_Semantic_Seeding" := 0.5%Q ]} = r).
Proof.
  assert (LiveTuner.consistent (LiveTuner.r_cache demo_tuned)
            (LiveTuner.r_model demo_tuned)) as H.
  { apply consistentb_sound. vm_compute. reflexivity. }
  split; [exact H|].
  exact (proj1 (tune_twice_same_as_once _ _ "Soft Value" 1.5%Q
                  {[ "STAGE_1_Semantic_Seeding" := 0.5%Q ]} H)).
Defined.

(** C4 -- Non-interference of the destructive tuners.  In every state the
    tuner can be in for a model, tuning with inputs A and then with inputs B
    leaves exactly what tuning with B alone leaves: nothing of A survives,
    since the restore phase reads the first-encounter snapshot. *)
Theorem tune_A_then_B_same_as_B
    (cache : LiveTuner.Cache) (m : LiveTuner.Model)
    (modeA : string) (baseA : float) (kwargsA : gmap string float)
    (modeB : string) (baseB : float) (kwargsB : gmap string float) :
  LiveTuner.consistent cache m ->
  (let rA := LiveTuner.tune_zimage cache m modeA baseA kwargsA in
   LiveTuner.tune_zimage (LiveTuner.r_cache rA) (LiveTuner.r_model rA)
     modeB baseB kwargsB
   = LiveTuner.tune_zimage cache m modeB baseB kwargsB) /\
  (let rA := LiveTuner.tune_zimage_lab cache m modeA baseA kwargsA in
   LiveTuner.tune_zimage_lab (LiveTuner.r_cache rA) (LiveTuner.r_model rA)
     modeB baseB kwargsB
   = LiveTuner.tune_zimage_lab cache m modeB baseB kwargsB).
Proof.
  intros Hc. split; unfold LiveTuner.tune_zimage, LiveTuner.tune_zimage_lab;
    by apply tune_with_absorb.
Qed.

Lemma tune_A_then_B_same_as_B_witness :
  LiveTuner.consistent ∅ demo_model /\
  (let rA := LiveTuner.tune_zimage_lab ∅ demo_model "Real Value" 2
               {[ "STAGE_1_Semantic_Seeding_L01" := 3%Q ]} in
   LiveTuner.tune_zimage_lab (LiveTuner.r_cache rA) (LiveTuner.r_model rA)
     "Soft Value" 1 {[ "STAGE_1_Semantic_Seeding_L00" := 0.5%Q ]}
   = LiveTuner.tune_zimage_lab ∅ demo_model
       "Soft Value" 1 {[ "STAGE_1_Semantic_Seeding_L00" := 0.5%Q ]}).
Proof.
  assert (LiveTuner.consistent ∅ demo_model) as H by exact I.
  split; [exact H|].
  exact (proj2 (tune_A_then_B_same_as_B ∅ demo_model "Real Value" 2%Q
                  {[ "STAGE_1_Semantic_Seeding_L01" := 3%Q ]}
                  "Soft Value" 1%Q
                  {[ "STAGE_1_Semantic_Seeding_L00" := 0.5%Q ]} H)).
Defined.

(** C7 -- Structure not found.  When the layer container cannot be located
    on the model, both destructive tuners return normally (no exception
    reaches the caller) with the handle they were given, every tensor and
    the backup cache untouched, and one of the two diagnostic strings. *)
Theorem structure_not_found_fails_softly
    (cache : LiveTuner.Cache) (m : LiveTuner.Model) (mode : string)
    (base_scale : float) (kwargs : gmap string float) :
  LiveTuner.no_container m ->
  exists msg,
    (msg = "Error: Model Access Failed" \/ msg = "Error: Unknown Model Structure") /\
    LiveTuner.tune_zimage cache m mode base_scale kwargs
      = LiveTuner.mkResult cache m (LiveTuner.Returned msg) /\
    LiveTuner.tune_zimage_lab cache m mode base_scale kwargs
      = LiveTuner.mkResult cache m (LiveTuner.Returned msg).
Proof.
  intros H. unfold LiveTuner.tune_zimage, LiveTuner.tune_zimage_lab, LiveTuner.tune_with.
  destruct (no_container_locate m H) as [E|E]; rewrite E; eexists; eauto.
Qed.

Lemma structure_not_found_fails_softly_witness :
  LiveTuner.no_container demo_unknown /\
  exists msg,
    (msg = "Error: Model Access Failed" \/ msg = "Error: Unknown Model Structure") /\
    LiveTuner.tune_zimage (LiveTuner.r_cache demo_tuned) demo_unknown "Soft Value" 1.5 ∅
      = LiveTuner.mkResult (LiveTuner.r_cache demo_tuned) demo_unknown
          (LiveTuner.Returned msg) /\
    LiveTuner.tune_zimage_lab (LiveTuner.r_cache demo_tuned) demo_unknown "Soft Value" 1.5 ∅
      = LiveTuner.mkResult (LiveTuner.r_cache demo_tuned) demo_unknown
          (LiveTuner.Returned msg).
Proof.
  assert (LiveTuner.no_container demo_unknown) as H by (vm_compute; auto).
  split; [exact H|].
  exact (structure_not_found_fails_softly _ demo_unknown "Soft Value" 1.5%Q ∅ H).
Defined.

(** ** The scale tables: what each index is mapped to *)

Section ScaleTables.

(** Case analysis on an index below a bound: each case is closed by
    computation or contradicts the range. *)
Ltac by_index i :=
  do 36 (destruct i as [|i]; [first [lia | reflexivity]|]); lia.

Ltac by_group H :=
  repeat (apply elem_of_cons in H as [H|H]; [inversion H; subst; clear H|]);
  [..|by apply elem_of_nil in H].

Lemma live_layer_weights_lookup mode base kwargs name a b i :
  (name, (a, b)) ∈ LiveTuner.GROUP_MAP -> (a <= i < b)%nat ->
  LiveTuner.layer_weights mode base kwargs !! i
  = Some (fmul (LiveTuner.get_target_weight mode (kw_get kwargs name))
               (LiveTuner.get_target_weight mode base)).
Proof. intros H Hi. by_group H; by_index i. Qed.

Lemma live_lab_name_lookup i name a b :
  (name, (a, b)) ∈ LiveTuner.GROUP_MAP -> (a <= i < b)%nat ->
  LiveTuner.LAYER_TO_NAME_MAP !! i = Some (name +:+ "_L" +:+ fmt02 i).
Proof. intros H Hi. by_group H; by_index i. Qed.

Lemma qwen_layer_scales_lookup mode kwargs name a b i :
  (name, (a, b)) ∈ QwenTE.group_inputs -> (a <= i < b)%nat ->
  QwenTE.layer_scales mode kwargs !! Z.of_nat i
  = Some (get_val mode (kw_get kwargs name)).
Proof. intros H Hi. by_group H; by_index i. Qed.

Lemma qwen_lab_layer_scales_lookup mode kwargs i name :
  (i, name) ∈ QwenTE.LAYER_CONFIG ->
  QwenTE.lab_layer_scales mode kwargs !! Z.of_nat i
  = Some (get_val mode (kw_get kwargs name)).
Proof. intros H. by_group H; reflexivity. Qed.

Lemma live_layer_map_lookup mode base kwargs name a b i :
  (name, (a, b)) ∈ QwenLive.bands -> (a <= i < b)%nat ->
  QwenLive.layer_map mode base kwargs !! Z.of_nat i
  = Some (fmul (get_val mode (kw_get kwargs name)) (get_val mode base)).
Proof. intros H Hi. by_group H; by_index i. Qed.

Lemma live_lab_layer_scales_lookup mode kwargs i name :
  (i, name) ∈ QwenLive.LAYER_CONFIG ->
  QwenLive.lab_layer_scales mode kwargs !! Z.of_nat i
  = Some (get_val mode (kw_get kwargs name)).
Proof. intros H. by_group H; reflexivity. Qed.

Lemma zimage_lab_layer_scales_lookup mode base kwargs i name :
  (i, name) ∈ ZImage.LAYER_CONFIG ->
  ZImage.layer_scales mode base kwargs !! Z.of_nat i
  = Some (ZImage.lab_get_val mode base (kw_get kwargs name)).
Proof. intros H. by_group H; reflexivity. Qed.

End ScaleTables.

(** C3, as the code has it -- In SOFT mode the destructive Z-Image live
    tuners and the four Qwen tuners map an index to
    [transform(g) * transform(b)], [g] being the slider that governs the
    index and [b] the base value.  The state-dict Z-Image tuners (Simple
    and LAB) do not apply the base value in SOFT mode: every multiplier is
    [transform] of its slider alone. *)
Theorem soft_mode_composition (base : float) (kwargs : gmap string float) :
  let soft := "Soft Value" in
  (forall name a b i,
     (name, (a, b)) ∈ LiveTuner.GROUP_MAP -> (a <= i < b)%nat ->
     LiveTuner.layer_weights soft base kwargs !! i
     = Some (fmul (LiveTuner.get_target_weight soft (kw_get kwargs name))
                  (LiveTuner.get_target_weight soft base)) /\
     LiveTuner.lab_scale soft base kwargs i
     = fmul (LiveTuner.get_target_weight soft
               (kw_get kwargs (name +:+ "_L" +:+ fmt02 i)))
            (LiveTuner.get_target_weight soft base)) /\
  (forall name a b i,
     (name, (a, b)) ∈ QwenTE.group_inputs -> (a <= i < b)%nat ->
     QwenTE.target_scale (QwenTE.layer_scales soft kwargs) (get_val soft base)
       (Z.of_nat i)
     = Some (fmul (get_val soft (kw_get kwargs name)) (get_val soft base))) /\
  (forall i name,
     (i, name) ∈ QwenTE.LAYER_CONFIG ->
     QwenTE.target_scale (QwenTE.lab_layer_scales soft kwargs)
       (get_val soft base) (Z.of_nat i)
     = Some (fmul (get_val soft (kw_get kwargs name)) (get_val soft base))) /\
  (forall name a b i,
     (name, (a, b)) ∈ QwenLive.bands -> (a <= i < b)%nat ->
     QwenLive.layer_map soft base kwargs !! Z.of_nat i
     = Some (fmul (get_val soft (kw_get kwargs name)) (get_val soft base))) /\
  (forall i name key,
     (i, name) ∈ QwenLive.LAYER_CONFIG -> Host.layer_index key = Some (Z.of_nat i) ->
     (QwenLive.lab_target_scale (QwenLive.lab_layer_scales soft kwargs)
        (get_val soft base) key).1
     = fmul (get_val soft (kw_get kwargs name)) (get_val soft base)) /\
  (forall inp : ZImage.Inputs,
     ZImage.mode inp = soft ->
     let gv := ZImage.get_val soft in
     ZImage.params inp
     = ZImage.mkParams
         (gv (ZImage.block_1_start_00_04 inp)) (gv (ZImage.block_2_early_05_09 inp))
         (gv (ZImage.block_3_mid_10_14 inp)) (gv (ZImage.block_4_core_15_19 inp))
         (gv (ZImage.block_5_late_20_24 inp)) (gv (ZImage.block_6_end_25_29 inp))
         (gv (ZImage.global_attention inp)) (gv (ZImage.global_mlp inp))
         (gv (ZImage.embedders_strength inp)) (gv (ZImage.refiners_strength inp))) /\
  (forall i name,
     (i, name) ∈ ZImage.LAYER_CONFIG ->
     ZImage.layer_scales soft base kwargs !! Z.of_nat i
     = Some (ZImage.get_val soft (kw_get kwargs name))).
Proof.
  intros soft. repeat split.
  - by eapply live_layer_weights_lookup.
  - unfold LiveTuner.lab_scale.
    by erewrite live_lab_name_lookup.
  - intros. unfold QwenTE.target_scale.
    by erewrite qwen_layer_scales_lookup.
  - intros. unfold QwenTE.target_scale.
    by erewrite qwen_lab_layer_scales_lookup.
  - intros. by eapply live_layer_map_lookup.
  - intros i name key Hin Hk. unfold QwenLive.lab_target_scale. rewrite Hk.
    by erewrite live_lab_layer_scales_lookup.
  - intros inp Hm gv. unfold ZImage.params, ZImage.calc_final. by rewrite Hm.
  - intros. by erewrite zimage_lab_layer_scales_lookup.
Qed.

Lemma soft_mode_composition_witness :
  (("STAGE_2_Spatial_Layout", (6, 12)) ∈ LiveTuner.GROUP_MAP /\ (6 <= 7 < 12))%nat /\
  LiveTuner.layer_weights "Soft Value" 1.5%Q
    {[ "STAGE_2_Spatial_Layout" := 0.5%Q ]} !! 7%nat
  = Some (fmul (LiveTuner.get_target_weight "Soft Value" 0.5)
               (LiveTuner.get_target_weight "Soft Value" 1.5)) /\
  ZImage.mode demo_soft_inputs = "Soft Value" /\
  ZImage.b1 (ZImage.params demo_soft_inputs) = ZImage.get_val "Soft Value" 1.
Proof.
  assert (("STAGE_2_Spatial_Layout", (6, 12)) ∈ LiveTuner.GROUP_MAP)%nat as Hin
    by (vm_compute; do 1 right; left).
  assert (6 <= 7 < 12)%nat as Hi by lia.
  assert (ZImage.mode demo_soft_inputs = "Soft Value") as Hm by reflexivity.
  pose proof (soft_mode_composition 1.5%Q {[ "STAGE_2_Spatial_Layout" := 0.5%Q ]})
    as (Hlive & _ & _ & _ & _ & Hz & _).
  split; [done|]. split; [|split; [done|]].
  - exact (proj1 (Hlive _ _ _ _ Hin Hi)).
  - exact (f_equal ZImage.b1 (Hz demo_soft_inputs Hm)).
Defined.

(** C3, as stated, fails on the state-dict Z-Image tuner: in SOFT mode with
    base 2.0 and every slider at 1.0, the scale of layer 0 is 1.0 and not
    [transform(1.0) * transform(2.0) = 1.2]. *)
Lemma soft_mode_composition_fails_for_zimage_simple :
  ZImage.mode demo_soft_inputs = "Soft Value" /\
  ZImage.base_strength demo_soft_inputs = 2%Q /\
  ZImage.block_1_start_00_04 demo_soft_inputs = 1%Q /\
  ZImage.resolve_scale (ZImage.params demo_soft_inputs) "layers.0.adapter.weight"
  = (1%Q, true) /\
  (fmul (ZImage.get_val "Soft Value" 1) (ZImage.get_val "Soft Value" 2) == 1.2)%Q /\
  (ZImage.resolve_scale (ZImage.params demo_soft_inputs) "layers.0.adapter.weight").1
  <> fmul (ZImage.get_val "Soft Value" (ZImage.block_1_start_00_04 demo_soft_inputs))
          (ZImage.get_val "Soft Value" (ZImage.base_strength demo_soft_inputs)).
Proof. repeat split; vm_compute; first [reflexivity | discriminate]. Qed.

(** ** The patch loop *)

Section PatchLoopFacts.
Context {V : Type} (body : string -> V -> option (pdata * float)).

Lemma patches_add_other key key' value s sm c :
  key <> key' -> patches (add_patches key value s sm c) !! key' = patches c !! key'.
Proof. intros Hne. unfold add_patches. simpl. by rewrite lookup_insert_ne. Qed.

Lemma patches_add_same key value s sm c :
  patches (add_patches key value s sm c) !! key
  = Some (default [] (patches c !! key) ++ [PSeq [value; PNum s; PNum sm]])%list.
Proof. unfold add_patches. simpl. by rewrite lookup_insert_eq. Qed.

Lemma fold_untouched l acc key :
  (forall v, body key v = None) ->
  patches (foldl (patch_step body) acc l).1 !! key = patches acc.1 !! key.
Proof.
  intros Hnone. revert acc. induction l as [|[k v] l IH]; intros acc; [done|].
  cbn [fst snd foldl]. rewrite IH. unfold patch_step. cbn [fst snd foldl].
  destruct (body k v) as [[value s]|] eqn:E; [|done].
  cbn [fst snd foldl]. apply patches_add_other. intros ->. by rewrite Hnone in E.
Qed.

Lemma fold_keeps l acc key e :
  e ∈ default [] (patches acc.1 !! key) ->
  e ∈ default [] (patches (foldl (patch_step body) acc l).1 !! key).
Proof.
  revert acc. induction l as [|[k v] l IH]; intros acc He; [done|].
  cbn [fst snd foldl]. apply IH. unfold patch_step. cbn [fst snd foldl].
  destruct (body k v) as [[value s]|]; [|done]. cbn [fst snd foldl].
  destruct (decide (k = key)) as [->|Hne].
  - rewrite patches_add_same. cbn [fst snd foldl]. apply elem_of_app. by left.
  - by rewrite patches_add_other.
Qed.

Lemma fold_registers l acc key v value s :
  (key, v) ∈ l -> body key v = Some (value, s) ->
  PSeq [value; PNum s; PNum 1.0] ∈ default [] (patches (foldl (patch_step body) acc l).1 !! key).
Proof.
  intros Hin Hb. revert acc. induction l as [|[k v'] l IH]; intros acc.
  - by apply elem_of_nil in Hin.
  - apply elem_of_cons in Hin as [Heq|Hin].
    + inversion Heq; subst. cbn [fst snd foldl]. apply fold_keeps.
      unfold patch_step. cbn [fst snd foldl]. rewrite Hb. cbn [fst snd foldl].
      rewrite patches_add_same. cbn [fst snd foldl]. apply elem_of_app. right. by left.
    + cbn [fst snd foldl]. by apply IH.
Qed.

Lemma patch_loop_untouched keys clip key :
  (forall v, body key v = None) ->
  patches (patch_loop body keys clip).1 !! key = patches clip !! key.
Proof. intros H. unfold patch_loop. by rewrite (fold_untouched keys (clip, 0%nat) key H). Qed.

Lemma patch_loop_registers keys clip key v value s :
  (key, v) ∈ keys -> body key v = Some (value, s) ->
  PSeq [value; PNum s; PNum 1.0]
    ∈ default [] (patches (patch_loop body keys clip).1 !! key).
Proof. intros. unfold patch_loop. by eapply (fold_registers keys (clip, 0%nat)). Qed.

End PatchLoopFacts.

(** The clip each patch tuner returns, as the result of its loop. *)
Lemma simple_clip_out clip mode base kwargs :
  (QwenTE.tune_qwen_simple clip mode base kwargs).1.1
  = (patch_loop (QwenTE.patch_body (QwenTE.layer_scales mode kwargs)
                   (get_val mode base)) (state_dict clip) clip).1.
Proof. unfold QwenTE.tune_qwen_simple. by destruct (patch_loop _ _ _). Qed.

Lemma lab_clip_out clip mode base kwargs :
  (QwenTE.tune_qwen_lab clip mode base kwargs).1.1
  = (patch_loop (QwenTE.patch_body (QwenTE.lab_layer_scales mode kwargs)
                   (get_val mode base)) (state_dict clip) clip).1.
Proof. unfold QwenTE.tune_qwen_lab. by destruct (patch_loop _ _ _). Qed.

Lemma live_clip_out gkp clip mode base kwargs :
  (QwenLive.tune_qwen gkp clip mode base kwargs).1
  = (patch_loop (QwenLive.tune_body (QwenLive.layer_map mode base kwargs))
       (gkp clip) clip).1.
Proof. unfold QwenLive.tune_qwen. by destruct (patch_loop _ _ _). Qed.

Lemma live_lab_clip_out gkp clip mode base kwargs :
  (QwenLive.tune_qwen_lab gkp clip mode base kwargs).1
  = (patch_loop (QwenLive.lab_body (QwenLive.lab_layer_scales mode kwargs)
                   (get_val mode base)) (gkp clip) clip).1.
Proof. unfold QwenLive.tune_qwen_lab. by destruct (patch_loop _ _ _). Qed.

(** ** The loop of the state-dict tuners *)

Lemma tune_loop_lookup rs unsafe sd i kt :
  sd !! i = Some kt ->
  (ZImage.tune_loop rs unsafe sd).1.1 !! i = Some (ZImage.tune_entry rs unsafe kt).1.1.
Proof.
  intros H. unfold ZImage.tune_loop. simpl.
  by rewrite !list_lookup_fmap, H.
Qed.

Lemma tune_entry_excluded rs unsafe kt :
  (ZImage.excluded unsafe kt.1).1 = true ->
  (ZImage.tune_entry rs unsafe kt).1 = (kt, 0%nat).
Proof.
  unfold ZImage.tune_entry. destruct (ZImage.excluded unsafe kt.1) as [skip n].
  simpl. by intros ->.
Qed.

Lemma tune_entry_not_scaled rs unsafe kt :
  ZImage.must_scale (rs kt.1).1 (rs kt.1).2 = false ->
  (ZImage.tune_entry rs unsafe kt).1 = (kt, 0%nat).
Proof.
  unfold ZImage.tune_entry. destruct (ZImage.excluded unsafe kt.1) as [[|] n]; [done|].
  destruct (rs kt.1) as [scale tgt]. simpl. by intros ->.
Qed.

Lemma excluded_norm key :
  contains "norm" key || contains "adaLN" key = true ->
  (ZImage.excluded false key).1 = true.
Proof.
  intros H. unfold ZImage.excluded.
  destruct (negb (contains "weight" key) && negb (contains "bias" key)); [done|].
  by rewrite H.
Qed.

(** A scale within 1e-4 of 1.0 is below the threshold. *)
Lemma must_scale_within_epsilon scale tgt :
  (Qabs (scale - 1) <= 1e-4)%Q -> ZImage.must_scale scale tgt = false.
Proof.
  intros H. unfold ZImage.must_scale, fgtb, fabs, fsub.
  apply andb_false_intro2. apply negb_false_iff, Qle_bool_iff.
  rewrite Qred_correct, Qred_correct.
  assert (1.0 == 1)%Q as -> by (vm_compute; reflexivity). exact H.
Qed.

Lemma must_scale_one_plus_5e5 scale tgt :
  (scale == 1 + 5e-5)%Q -> ZImage.must_scale scale tgt = false.
Proof.
  intros H. apply must_scale_within_epsilon. rewrite H. by vm_compute.
Qed.

(** C5, as the code has it -- The four Qwen patch tuners never register a
    patch for a key that contains "norm" or "bias", whatever the inputs
    (they have no override flag).  The state-dict Z-Image tuners leave a
    tensor whose key contains "norm" or "adaLN" unchanged as long as
    [unsafe_tune_normalization] is off. *)
Theorem norm_and_bias_exclusion :
  (forall (get_key_patches : Clip -> list (string * pdata)) (clip : Clip)
          (mode : string) (base : float) (kwargs : gmap string float)
          (key : string),
     norm_or_bias key = true ->
     patches (QwenTE.tune_qwen_simple clip mode base kwargs).1.1 !! key
       = patches clip !! key /\
     patches (QwenTE.tune_qwen_lab clip mode base kwargs).1.1 !! key
       = patches clip !! key /\
     patches (QwenLive.tune_qwen get_key_patches clip mode base kwargs).1 !! key
       = patches clip !! key /\
     patches (QwenLive.tune_qwen_lab get_key_patches clip mode base kwargs).1 !! key
       = patches clip !! key) /\
  (forall (state_dict : list (string * Tensor)) (i : nat) (key : string)
          (t : Tensor),
     contains "norm" key || contains "adaLN" key = true ->
     state_dict !! i = Some (key, t) ->
     (forall inp : ZImage.Inputs,
        ZImage.unsafe_tune_normalization inp = false ->
        (ZImage.tune state_dict inp).1.1 !! i = Some (key, t)) /\
     (forall (mode : string) (base : float) (kwargs : gmap string float),
        (ZImage.tune_lab state_dict mode base false kwargs).1.1 !! i
        = Some (key, t))).
Proof.
  split.
  - intros gkp clip mode base kwargs key Hnb.
    rewrite simple_clip_out, lab_clip_out, live_clip_out, live_lab_clip_out.
    repeat split; apply patch_loop_untouched; intros v;
      unfold QwenTE.patch_body, QwenLive.tune_body, QwenLive.lab_body;
      by rewrite Hnb.
  - intros sd i key t Hn Hi. split.
    + intros inp Hu. unfold ZImage.tune. rewrite Hu.
      erewrite tune_loop_lookup by done.
      by rewrite tune_entry_excluded by (by apply excluded_norm).
    + intros mode base kwargs. unfold ZImage.tune_lab.
      erewrite tune_loop_lookup by done.
      by rewrite tune_entry_excluded by (by apply excluded_norm).
Qed.

Lemma norm_and_bias_exclusion_witness :
  norm_or_bias "model.layers.0.self_attn.q_proj.bias" = true /\
  patches (QwenTE.tune_qwen_simple demo_clip "Real Value" 2 ∅).1.1
    !! "model.layers.0.self_attn.q_proj.bias"
  = patches demo_clip !! "model.layers.0.self_attn.q_proj.bias" /\
  contains "norm" "layers.0.attention_norm1.weight"
    || contains "adaLN" "layers.0.attention_norm1.weight" = true /\
  ZImage.unsafe_tune_normalization demo_real_inputs = false /\
  (ZImage.tune [("layers.0.attention_norm1.weight", demo_weight 1 1)]
     demo_real_inputs).1.1 !! 0%nat
  = Some ("layers.0.attention_norm1.weight", demo_weight 1 1).
Proof.
  assert (norm_or_bias "model.layers.0.self_attn.q_proj.bias" = true) as H1
    by reflexivity.
  assert (contains "norm" "layers.0.attention_norm1.weight"
          || contains "adaLN" "layers.0.attention_norm1.weight" = true) as H2
    by reflexivity.
  assert (ZImage.unsafe_tune_normalization demo_real_inputs = false) as H3
    by reflexivity.
  split; [exact H1|]. split.
  { exact (proj1 (proj1 norm_and_bias_exclusion demo_key_patches demo_clip
                    "Real Value" 2%Q ∅ _ H1)). }
  split; [exact H2|]. split; [exact H3|].
  exact (proj1 (proj2 norm_and_bias_exclusion
                  [("layers.0.attention_norm1.weight", demo_weight 1 1)]
                  0%nat _ _ H2 eq_refl) demo_real_inputs H3).
Defined.

(** C5, as stated, fails on the state-dict Z-Image tuner: with
    normalization locked, a key that contains "bias" is scaled like any
    weight of its layer. *)
Lemma bias_is_scaled_by_zimage_simple :
  contains "bias" "layers.0.attention.qkv.bias" = true /\
  ZImage.unsafe_tune_normalization demo_real_inputs = false /\
  ZImage.tune [("layers.0.attention.qkv.bias", demo_weight 1 2)] demo_real_inputs
  = ([("layers.0.attention.qkv.bias", demo_weight 2 4)], 1%nat, 0%nat) /\
  demo_weight 2 4 <> demo_weight 1 2.
Proof. repeat split. discriminate. Qed.

(** C10 -- The Qwen Z-Image LAB live tuner applies the base scale to the
    tensors without a layer index: for a key that contains neither "norm"
    nor "bias" and matches neither layer pattern, a patch of strength
    [transform(base_scale, mode) - 1.0] is registered whenever that strength
    is not zero.  The three other patch tuners register nothing for such a
    key. *)
Theorem lab_live_tuner_patches_unindexed_keys
    (get_key_patches : Clip -> list (string * pdata)) (clip : Clip)
    (mode : string) (base_scale : float) (kwargs : gmap string float)
    (key : string) (value : pdata) :
  norm_or_bias key = false ->
  Host.layer_index key = None ->
  (key, value) ∈ get_key_patches clip ->
  let strength := fsub (get_val mode base_scale) 1.0 in
  (~ (strength == 0)%Q ->
   PSeq [value; PNum strength; PNum 1.0]
     ∈ default [] (patches (QwenLive.tune_qwen_lab get_key_patches clip mode
                              base_scale kwargs).1 !! key)) /\
  patches (QwenLive.tune_qwen get_key_patches clip mode base_scale kwargs).1 !! key
    = patches clip !! key /\
  patches (QwenTE.tune_qwen_simple clip mode base_scale kwargs).1.1 !! key
    = patches clip !! key /\
  patches (QwenTE.tune_qwen_lab clip mode base_scale kwargs).1.1 !! key
    = patches clip !! key.
Proof.
  intros Hnb Hidx Hin strength.
  rewrite simple_clip_out, lab_clip_out, live_clip_out, live_lab_clip_out.
  repeat split.
  - intros Hs. eapply patch_loop_registers; [exact Hin|].
    unfold QwenLive.lab_body, QwenLive.lab_target_scale.
    rewrite Hnb, Hidx. simpl. fold strength.
    destruct (feqb strength 0) eqn:E; [|done].
    by apply Qeq_bool_iff in E.
  - apply patch_loop_untouched. intros v. unfold QwenLive.tune_body.
    by rewrite Hnb, Hidx.
  - apply patch_loop_untouched. intros v. unfold QwenTE.patch_body.
    by rewrite Hnb, Hidx.
  - apply patch_loop_untouched. intros v. unfold QwenTE.patch_body.
    by rewrite Hnb, Hidx.
Qed.

Lemma lab_live_tuner_patches_unindexed_keys_witness :
  norm_or_bias "model.embed_tokens.weight" = false /\
  Host.layer_index "model.embed_tokens.weight" = None /\
  ("model.embed_tokens.weight", PSeq [PTensor (demo_weight 3 4)])
    ∈ demo_key_patches demo_clip /\
  ~ (fsub (get_val "Soft Value" 1.5) 1.0 == 0)%Q /\
  PSeq [PSeq [PTensor (demo_weight 3 4)];
        PNum (fsub (get_val "Soft Value" 1.5) 1.0); PNum 1.0]
    ∈ default [] (patches (QwenLive.tune_qwen_lab demo_key_patches demo_clip
                             "Soft Value" 1.5 ∅).1
                    !! "model.embed_tokens.weight").
Proof.
  assert (norm_or_bias "model.embed_tokens.weight" = false) as H1 by reflexivity.
  assert (Host.layer_index "model.embed_tokens.weight" = None) as H2 by reflexivity.
  assert (("model.embed_tokens.weight", PSeq [PTensor (demo_weight 3 4)])
            ∈ demo_key_patches demo_clip) as H3
    by (vm_compute; do 3 right; left).
  assert (~ (fsub (get_val "Soft Value" 1.5) 1.0 == 0)%Q) as H4
    by (vm_compute; discriminate).
  split; [exact H1|]. split; [exact H2|]. split; [exact H3|]. split; [exact H4|].
  exact (proj1 (lab_live_tuner_patches_unindexed_keys demo_key_patches demo_clip
                  "Soft Value" 1.5%Q ∅ _ _ H1 H2 H3) H4).
Defined.

(** C2, as stated, fails on the patch tuners: in the Qwen Simple tuner
    (Real mode, base 1.0, zone 1 at 1.0 + 5e-5) the resolved scale of layer 0
    is 1.0 + 5e-5 and a patch of strength 5e-5 is registered, the test being
    [strength != 0]. *)
Lemma five_e5_registers_a_patch_in_qwen_simple :
  let kwargs : gmap string float := {[ "Zone_1_Embedding_00_05" := 1.00005%Q ]} in
  let key := "model.layers.0.self_attn.q_proj.weight" in
  (exists s, QwenTE.target_scale (QwenTE.layer_scales "Real Value" kwargs)
               (get_val "Real Value" 1) 0 = Some s /\ (s == 1 + 5e-5)%Q) /\
  Host.layer_index key = Some 0%Z /\
  patches demo_clip !! key = None /\
  patches (QwenTE.tune_qwen_simple demo_clip "Real Value" 1 kwargs).1.1 !! key
  = Some [PSeq [PSeq [PTensor (demo_weight 1 2)]; PNum (1 # 20000); PNum 1.0]].
Proof.
  intros kwargs key. split; [|repeat split].
  eexists. split; [vm_compute; reflexivity|]. vm_compute. reflexivity.
Qed.

(** ** The soft multiplier of the six-zone scenario *)

Lemma soft_scale_of_one_point_five (v b : float) :
  (v == 1.5)%Q -> (b == 1.0)%Q ->
  fmul (get_val "Soft Value" v) (get_val "Soft Value" b) = 1.1%Q.
Proof.
  intros Hv Hb. unfold get_val, fmul, fadd. simpl.
  change 1.1%Q with (Qred 1.1). apply Qred_complete.
  rewrite !Qred_correct, Hv, Hb. by vm_compute.
Qed.

(** ** The export reconciler *)

Section SaverFacts.
Variable to_dtype : dtype -> Tensor -> Tensor.
Variable broadcast_add : Tensor -> Tensor -> option Tensor.

Lemma zip_add_scaled (l : list float) (s : float) :
  zip_add l (map (fun x => fmul x s) l) = map (fun x => fadd x (fmul x s)) l.
Proof. induction l as [|x l IH]; [done|]. simpl. by rewrite IH. Qed.




Lemma reconcile_key_unfold tuned_clip dt final_sd count orig_key ram_key w0 :
  QwenTE.suffix_map (state_dict tuned_clip) !! QwenTE.clean orig_key = Some ram_key ->
  QwenTE.sd_get (state_dict tuned_clip) ram_key = Some w0 ->
  QwenTE.reconcile_key to_dtype broadcast_add tuned_clip
    (QwenTE.suffix_map (state_dict tuned_clip)) dt final_sd count orig_key
  = match QwenTE.accumulate to_dtype broadcast_add (to_dtype F32 w0) count
            (QwenTE.patches_of (patches tuned_clip) ram_key (QwenTE.clean orig_key)) with
    | Some (w, c) => Some ((final_sd ++ [(orig_key, to_dtype dt w)])%list, c)
    | None => None
    end.
Proof. intros Hm Hw. unfold QwenTE.reconcile_key. by rewrite Hm, Hw. Qed.

End SaverFacts.

(** ** Worked examples *)

(** The whole export on the demo encoder: the matched key is written with
    1.1 times its weight, the unmatched reference key is dropped. *)
Example save_qwen_demo :
  QwenTE.save_qwen demo_to_dtype demo_broadcast_add demo_tuned_clip
    (Some ["model.layers.0.mlp.weight"; "lm_head.weight"]) "fp16"
  = QwenTE.Written
      [("model.layers.0.mlp.weight", mkTensor [2%nat] [1.1%Q; (11 # 5)%Q])] 1.
Proof. reflexivity. Qed.

Example save_qwen_without_template :
  QwenTE.save_qwen demo_to_dtype demo_broadcast_add demo_tuned_clip None "fp16"
  = QwenTE.TemplateMissing.
Proof. reflexivity. Qed.

(** A container attribute that cannot be iterated: the call raises, and a
    first encounter leaves an empty entry in the cache. *)
Example tune_zimage_not_iterable :
  LiveTuner.tune_zimage ∅
    (LiveTuner.mkModel (Some (LiveTuner.mkInner (Some
       (LiveTuner.mkBackbone 9 (Some LiveTuner.NotIterable) None None)))))
    "Soft Value" 1 ∅
  = LiveTuner.mkResult {[ 9%nat := ∅ ]}
      (LiveTuner.mkModel (Some (LiveTuner.mkInner (Some
         (LiveTuner.mkBackbone 9 (Some LiveTuner.NotIterable) None None)))))
      (LiveTuner.Raised "TypeError").
Proof. reflexivity. Qed.

(** The first tuning of the demo model in Real mode with base 2.0: every
    Linear weight is doubled, the bias and the norm are not. *)
Example tune_zimage_demo :
  LiveTuner.r_model demo_tuned
  = LiveTuner.mkModel (Some (LiveTuner.mkInner (Some
      (LiveTuner.mkBackbone 41
         (Some (LiveTuner.Blocks
            [ [ ("", LiveTuner.Other []);
                ("attention.qkv", LiveTuner.Linear (demo_weight 2 4) None);
                ("attention_norm1", LiveTuner.Other [("weight", demo_weight 1 1)]);
                ("feed_forward.w1", LiveTuner.Linear (demo_weight 6 8) None) ];
              [ ("attention.out",
                 LiveTuner.Linear (demo_weight 10 12) (Some (demo_weight 7 8))) ] ]))
         None None)))) /\
  LiveTuner.r_outcome demo_tuned
  = LiveTuner.Returned "Z-Image Active | Mode: Real Value | Layers Modulated: 2".
Proof. split; reflexivity. Qed.

(** * Further properties of the destructive tuners *)

Section LiveTunerMore.
Import LiveTuner.

Lemma inject_from_lookup s bs i j :
  (inject_from i s bs).1 !! j
  = (fun blk => if feqb (s (i + j)%nat) 1.0 then blk
                else map (scale_module (s (i + j)%nat)) blk) <$> bs !! j.
Proof.
  revert i j. induction bs as [|blk bs IH]; intros i j; [done|].
  simpl. specialize (IH (S i)).
  destruct (inject_from (S i) s bs) as [rest n]. simpl in IH.
  destruct j as [|j].
  - rewrite Nat.add_0_r. by destruct (feqb (s i) 1.0).
  - replace (i + S j)%nat with (S i + j)%nat by lia.
    destruct (feqb (s i) 1.0); simpl; apply IH.
Qed.

Lemma inject_from_length s bs i : length (inject_from i s bs).1 = length bs.
Proof.
  revert i. induction bs as [|blk bs IH]; intros i; [done|].
  simpl. specialize (IH (S i)).
  destruct (inject_from (S i) s bs) as [rest n]. simpl in IH.
  destruct (feqb (s i) 1.0); simpl; by rewrite IH.
Qed.

Lemma restore_from_length bk bs i : length (restore_from i bk bs) = length bs.
Proof. revert i. induction bs as [|blk bs IH]; intros i; simpl; [done|]. by rewrite IH. Qed.

(** A scale of 1.0 everywhere leaves the blocks alone. *)
Lemma inject_from_neutral s bs i :
  (forall j, feqb (s j) 1.0 = true) -> inject_from i s bs = (bs, 0%nat).
Proof.
  intros Hs. revert i. induction bs as [|blk bs IH]; intros i; [done|].
  simpl. by rewrite IH, Hs.
Qed.

Lemma backup_fold_other (blk : Block) (acc : gmap string Tensor) name :
  name ∉ map fst blk ->
  foldl (fun acc nm =>
           match nm.2 with
           | Linear w _ => <[nm.1 := w]> acc
           | Other _ => acc
           end) acc blk !! name = acc !! name.
Proof.
  revert acc. induction blk as [|[n m] blk IH]; intros acc Hn; [done|].
  simpl in *. apply not_elem_of_cons in Hn as [Hne Hn].
  rewrite IH by done. destruct m; [|done]. simpl. by rewrite lookup_insert_ne.
Qed.

Lemma backup_block_lookup (blk : Block) name w b :
  NoDup (map fst blk) -> (name, Linear w b) ∈ blk ->
  backup_block blk !! name = Some w.
Proof.
  unfold backup_block. generalize (∅ : gmap string Tensor).
  induction blk as [|[n m] blk IH]; intros acc Hnd Hin.
  - by apply elem_of_nil in Hin.
  - simpl in Hnd. apply NoDup_cons in Hnd as [Hn Hnd].
    apply elem_of_cons in Hin as [Heq|Hin].
    + inversion Heq; subst. simpl.
      rewrite backup_fold_other by done. apply lookup_insert_eq.
    + simpl. by apply IH.
Qed.

(** Restoring a block from its own backup changes nothing. *)
Lemma restore_own_backup (blk : Block) :
  NoDup (map fst blk) -> restore_block (backup_block blk) blk = blk.
Proof.
  intros Hnd. unfold restore_block.
  transitivity (map id blk); [|apply map_id]. apply map_ext_in.
  intros [n [w b|p]] Hin; unfold restore_module; simpl; [|done].
  rewrite (backup_block_lookup blk n w b Hnd); [done|].
  by apply list_elem_of_In.
Qed.

Lemma backup_from_lookup i bs acc j blk :
  bs !! j = Some blk -> backup_from i bs acc !! (i + j)%nat = Some (backup_block blk).
Proof.
  revert i acc j. induction bs as [|b bs IH]; intros i acc j Hj; [done|].
  destruct j as [|j]; simpl in *.
  - inversion Hj; subst. rewrite Nat.add_0_r, backup_from_below by lia.
    apply lookup_insert_eq.
  - replace (i + S j)%nat with (S i + j)%nat by lia. by apply IH.
Qed.

Lemma restore_from_own_backup i bk bs :
  names_distinct bs ->
  (forall j blk, bs !! j = Some blk -> bk !! (i + j)%nat = Some (backup_block blk)) ->
  restore_from i bk bs = bs.
Proof.
  revert i. induction bs as [|blk bs IH]; intros i Hnd Hbk; [done|].
  apply Forall_cons in Hnd as [Hblk Hnd]. simpl.
  rewrite <- (Nat.add_0_r i) at 1. rewrite (Hbk 0%nat blk eq_refl).
  rewrite restore_own_backup by done. f_equal.
  apply IH; [done|]. intros j b Hj.
  replace (S i + j)%nat with (i + S j)%nat by lia. by apply Hbk.
Qed.

Lemma restore_backup_from bs :
  names_distinct bs -> restore_from 0 (backup_from 0 bs ∅) bs = bs.
Proof.
  intros Hnd. apply restore_from_own_backup; [done|].
  intros j blk Hj. by apply backup_from_lookup.
Qed.

Lemma set_container_same m bb c : locate m = inr (bb, c) -> set_container m c = m.
Proof.
  unfold locate, set_container.
  destruct m as [[[[[id l j b]|]]|]]; simpl; try discriminate.
  destruct l as [cl|]; [|destruct j as [cj|]; [|destruct b as [cb|]]];
    simpl; intros H; inversion H; subst; reflexivity.
Qed.

Lemma blocks_of_set_container m bb c bs :
  locate m = inr (bb, c) -> blocks_of (set_container m (Blocks bs)) = bs.
Proof.
  intros Hloc. unfold blocks_of.
  destruct (locate_set_container m bb c (Blocks bs) Hloc) as (bb' & -> & _). done.
Qed.

Lemma model_id_set_container m bb c c' :
  locate m = inr (bb, c) -> model_id (set_container m c') = Some (obj_id bb).
Proof.
  intros Hloc. unfold model_id.
  destruct (locate_set_container m bb c c' Hloc) as (bb' & -> & ->). done.
Qed.

(** A first encounter: the snapshot is the model itself, so the scales are
    applied to the weights the model came with. *)
Lemma tune_with_first_call s t mode cache m bb bs :
  locate m = inr (bb, Blocks bs) -> cache !! obj_id bb = None ->
  names_distinct bs ->
  let r := tune_with s t cache m mode in
  r_cache r = <[obj_id bb := backup_from 0 bs ∅]> cache /\
  r_model r = set_container m (Blocks (inject_from 0 s bs).1).
Proof.
  intros Hloc Hc Hnd. unfold tune_with. rewrite Hloc, Hc.
  rewrite (lookup_insert_eq cache), restore_backup_from by done.
  by destruct (inject_from 0 s bs).
Qed.

Lemma erase_restore bd blk :
  map erase_weight (restore_block bd blk) = map erase_weight blk.
Proof.
  unfold restore_block. rewrite map_map. apply map_ext.
  intros [n [w b|p]]; unfold restore_module, erase_weight; simpl; [|done].
  by destruct (bd !! n).
Qed.

Lemma erase_scale s blk :
  map erase_weight (map (scale_module s) blk) = map erase_weight blk.
Proof. rewrite map_map. apply map_ext. by intros [n [w b|p]]. Qed.

Lemma erase_restore_from i bk bs :
  map (map erase_weight) (restore_from i bk bs) = map (map erase_weight) bs.
Proof.
  revert i. induction bs as [|blk bs IH]; intros i; simpl; [done|].
  rewrite IH. f_equal. destruct (bk !! i); [apply erase_restore|done].
Qed.

Lemma erase_inject_from i s bs :
  map (map erase_weight) (inject_from i s bs).1 = map (map erase_weight) bs.
Proof.
  revert i. induction bs as [|blk bs IH]; intros i; simpl; [done|].
  specialize (IH (S i)). destruct (inject_from (S i) s bs) as [rest n].
  simpl in IH. destruct (feqb (s i) 1.0); simpl; rewrite IH; [done|].
  by rewrite erase_scale.
Qed.

Lemma tune_with_frame s t mode cache m :
  let r := tune_with s t cache m mode in
  model_id (r_model r) = model_id m /\ frame_of (r_model r) = frame_of m.
Proof.
  unfold tune_with, frame_of, model_id, blocks_of.
  destruct (locate m) as [msg|[bb [bs|]]] eqn:Hloc; simpl; rewrite ?Hloc; try done.
  set (cache' := match cache !! obj_id bb with
                 | Some _ => cache
                 | None => <[obj_id bb := backup_from 0 bs ∅]> cache
                 end).
  set (restored := match cache' !! obj_id bb with
                   | Some bk => restore_from 0 bk bs
                   | None => bs
                   end).
  assert (map (map erase_weight) restored = map (map erase_weight) bs) as Hr.
  { subst restored. destruct (cache' !! obj_id bb); [apply erase_restore_from|done]. }
  pose proof (erase_inject_from 0 s restored) as Hi.
  destruct (inject_from 0 s restored) as [tuned n]. simpl in *.
  destruct (locate_set_container m bb (Blocks bs) (Blocks tuned) Hloc)
    as (bb' & -> & ->).
  split; [done|]. by rewrite Hi, Hr.
Qed.

Lemma tune_with_cache_grows s t mode cache m :
  cache ⊆ r_cache (tune_with s t cache m mode).
Proof.
  unfold tune_with.
  destruct (locate m) as [msg|[bb [bs|]]] eqn:Hloc; simpl; [done| |].
  - destruct (cache !! obj_id bb) as [bk|] eqn:E.
    + rewrite E. by destruct (inject_from _ _ _).
    + rewrite (lookup_insert_eq cache). destruct (inject_from _ _ _). simpl.
      by apply insert_subseteq.
  - destruct (cache !! obj_id bb) eqn:E; simpl; [done|by apply insert_subseteq].
Qed.

End LiveTunerMore.

(** ** Tables built by a loop of insertions *)

Section TableFacts.
Context {K : Type} `{Countable K} {V E : Type}.

Lemma fold_insert_inv (k : E -> K) (f : E -> V) (l : list E) (acc : gmap K V) j x :
  foldl (fun acc e => <[k e := f e]> acc) acc l !! j = Some x ->
  acc !! j = Some x \/ exists e, e ∈ l /\ j = k e /\ x = f e.
Proof.
  revert acc. induction l as [|e l IH]; intros acc Hx; [by left|].
  simpl in Hx. apply IH in Hx as [Hx|(e' & He' & Hj & Hx)].
  - destruct (decide (k e = j)) as [<-|Hne].
    + rewrite lookup_insert_eq in Hx. inversion Hx; subst.
      right. exists e. split; [by left|done].
    + rewrite lookup_insert_ne in Hx by done. by left.
  - right. exists e'. split; [by right|done].
Qed.

Lemma fold_fold_insert_inv {G : Type} (rng : G -> list E) (k : E -> K)
    (f : G -> E -> V) (gs : list G) (acc : gmap K V) j x :
  foldl (fun acc g => foldl (fun acc e => <[k e := f g e]> acc) acc (rng g)) acc gs
    !! j = Some x ->
  acc !! j = Some x \/ exists g e, g ∈ gs /\ e ∈ rng g /\ j = k e /\ x = f g e.
Proof.
  revert acc. induction gs as [|g gs IH]; intros acc Hx; [by left|].
  simpl in Hx. apply IH in Hx as [Hx|(g' & e & Hg & He & Hj & Hx)].
  - apply fold_insert_inv in Hx as [Hx|(e & He & Hj & Hx)]; [by left|].
    right. exists g, e. split; [by left|done].
  - right. exists g', e. split; [by right|done].
Qed.

End TableFacts.

Section LiveTunerTables.
Import LiveTuner.

Lemma range_elem a b i : i ∈ range a b -> (a <= i < b)%nat.
Proof. unfold range. rewrite elem_of_seq. lia. Qed.

Lemma GROUP_MAP_bound name a b : (name, (a, b)) ∈ GROUP_MAP -> (b <= 30)%nat.
Proof.
  intros H.
  repeat (apply elem_of_cons in H as [H|H]; [inversion H; subst; lia|]).
  by apply elem_of_nil in H.
Qed.

Lemma layer_weights_inv mode base kwargs i x :
  layer_weights mode base kwargs !! i = Some x ->
  exists name a b,
    (name, (a, b)) ∈ GROUP_MAP /\ (a <= i < b)%nat /\
    x = fmul (get_target_weight mode (kw_get kwargs name))
             (get_target_weight mode base).
Proof.
  unfold layer_weights. intros Hx.
  apply (fold_fold_insert_inv (fun g : string * (nat * nat) => range g.2.1 g.2.2)
           (fun i : nat => i)
           (fun g _ => fmul (get_target_weight mode (kw_get kwargs g.1))
                            (get_target_weight mode base)))
    in Hx as [Hx|([name [a b]] & e & Hg & He & -> & ->)].
  - by rewrite lookup_empty in Hx.
  - exists name, a, b. split; [done|]. split; [by apply range_elem|done].
Qed.

Lemma layer_weights_beyond mode base kwargs i :
  (30 <= i)%nat -> layer_weights mode base kwargs !! i = None.
Proof.
  intros Hi. destruct (layer_weights mode base kwargs !! i) as [x|] eqn:E; [|done].
  apply layer_weights_inv in E as (name & a & b & Hg & Hr & _).
  apply GROUP_MAP_bound in Hg. lia.
Qed.

Lemma LAYER_TO_NAME_MAP_beyond i :
  (30 <= i)%nat -> LAYER_TO_NAME_MAP !! i = None.
Proof.
  intros Hi. destruct (LAYER_TO_NAME_MAP !! i) as [x|] eqn:E; [|done].
  unfold LAYER_TO_NAME_MAP in E.
  apply (fold_fold_insert_inv (fun g : string * (nat * nat) => range g.2.1 g.2.2)
           (fun i : nat => i)
           (fun g i => g.1 +:+ "_L" +:+ fmt02 i))
    in E as [E|([name [a b]] & e & Hg & He & -> & _)].
  - by rewrite lookup_empty in E.
  - apply range_elem in He. apply GROUP_MAP_bound in Hg. simpl in *. lia.
Qed.

(** The value transform at 1.0 is 1.0, in either mode. *)
Lemma get_target_weight_one mode w :
  (w == 1)%Q -> (get_target_weight mode w == 1)%Q.
Proof.
  intros Hw. unfold get_target_weight.
  destruct (is_real mode); [done|].
  assert (fleb w 1.0 = true) as ->.
  { apply Qle_bool_iff. rewrite Hw. by vm_compute. }
  assert (fadd (fmul (-1.02) (fmul w w)) (fmul 2.02 w) == 1)%Q as Hx.
  { unfold fadd, fmul. rewrite !Qred_correct, Hw. by vm_compute. }
  unfold fmax, fgtb.
  assert (Qle_bool (fadd (fmul (-1.02) (fmul w w)) (fmul 2.02 w)) 0.0 = false) as ->.
  { apply not_true_iff_false. intros Hle. apply Qle_bool_iff in Hle.
    rewrite Hx in Hle. by vm_compute in Hle. }
  exact Hx.
Qed.

Lemma kw_get_neutral kwargs name : neutral kwargs -> (kw_get kwargs name == 1)%Q.
Proof.
  intros Hn. unfold kw_get. destruct (kwargs !! name) as [v|] eqn:E; simpl.
  - by eapply Hn.
  - by vm_compute.
Qed.

Lemma fmul_one a b : (a == 1)%Q -> (b == 1)%Q -> feqb (fmul a b) 1.0 = true.
Proof.
  intros Ha Hb. apply Qeq_bool_iff. unfold fmul.
  rewrite Qred_correct, Ha, Hb. by vm_compute.
Qed.

Lemma layer_weights_neutral mode base kwargs i :
  (base == 1)%Q -> neutral kwargs ->
  feqb (default 1.0%Q (layer_weights mode base kwargs !! i)) 1.0 = true.
Proof.
  intros Hb Hn. destruct (layer_weights mode base kwargs !! i) as [x|] eqn:E; [|done].
  apply layer_weights_inv in E as (name & a & b & _ & _ & ->). simpl.
  apply fmul_one; apply get_target_weight_one; [by apply kw_get_neutral|done].
Qed.

Lemma lab_scale_neutral mode base kwargs i :
  (base == 1)%Q -> neutral kwargs ->
  feqb (lab_scale mode base kwargs i) 1.0 = true.
Proof.
  intros Hb Hn. unfold lab_scale.
  apply fmul_one; apply get_target_weight_one; [|done].
  destruct (LAYER_TO_NAME_MAP !! i); [by apply kw_get_neutral|by vm_compute].
Qed.

End LiveTunerTables.

(** X1 -- First encounter.  For a model whose identity is not in the cache
    and whose modules have distinct names per block, a call stores the
    snapshot of the model and leaves block [i] with every Linear weight
    multiplied by the scale of [i] (the block as it was when that scale is
    exactly 1.0). *)
Theorem first_call_scales_the_original_weights
    (cache : LiveTuner.Cache) (m : LiveTuner.Model) (bb : LiveTuner.Backbone)
    (bs : list LiveTuner.Block) (mode : string) (base_scale : float)
    (kwargs : gmap string float) :
  LiveTuner.locate m = inr (bb, LiveTuner.Blocks bs) ->
  cache !! LiveTuner.obj_id bb = None ->
  names_distinct bs ->
  let after (scale_of : nat -> float) (i : nat) (blk : LiveTuner.Block) :=
    if feqb (scale_of i) 1.0 then blk
    else map (LiveTuner.scale_module (scale_of i)) blk in
  (let r := LiveTuner.tune_zimage cache m mode base_scale kwargs in
   LiveTuner.r_cache r
     = <[LiveTuner.obj_id bb := LiveTuner.backup_from 0 bs ∅]> cache /\
   forall i blk, bs !! i = Some blk ->
     blocks_of (LiveTuner.r_model r) !! i
     = Some (after (fun i => default 1.0%Q
                      (LiveTuner.layer_weights mode base_scale kwargs !! i)) i blk)) /\
  (let r := LiveTuner.tune_zimage_lab cache m mode base_scale kwargs in
   LiveTuner.r_cache r
     = <[LiveTuner.obj_id bb := LiveTuner.backup_from 0 bs ∅]> cache /\
   forall i blk, bs !! i = Some blk ->
     blocks_of (LiveTuner.r_model r) !! i
     = Some (after (LiveTuner.lab_scale mode base_scale kwargs) i blk)).
Proof.
  intros Hloc Hc Hnd after.
  split; intros r; subst r;
    unfold LiveTuner.tune_zimage, LiveTuner.tune_zimage_lab;
    (match goal with
     | |- context [LiveTuner.tune_with ?s ?t cache m mode] =>
         destruct (tune_with_first_call s t mode cache m bb bs Hloc Hc Hnd)
           as [Hcache Hmodel]
     end);
    (split; [exact Hcache|]);
    intros i blk Hi; rewrite Hmodel;
    rewrite (blocks_of_set_container m bb _ _ Hloc), inject_from_lookup;
    unfold LiveTuner.Block in *; rewrite Hi; reflexivity.
Qed.

Lemma first_call_scales_the_original_weights_witness :
  LiveTuner.locate demo_model
    = inr (LiveTuner.mkBackbone 41 (Some (LiveTuner.Blocks demo_blocks)) None None,
           LiveTuner.Blocks demo_blocks) /\
  (∅ : LiveTuner.Cache) !! 41%nat = None /\
  names_distinct demo_blocks /\
  blocks_of (LiveTuner.r_model
               (LiveTuner.tune_zimage ∅ demo_model "Real Value" 2 ∅)) !! 1%nat
  = Some [("attention.out",
           LiveTuner.Linear (demo_weight 10 12) (Some (demo_weight 7 8)))].
Proof.
  assert (LiveTuner.locate demo_model
          = inr (LiveTuner.mkBackbone 41 (Some (LiveTuner.Blocks demo_blocks)) None None,
                 LiveTuner.Blocks demo_blocks)) as H1 by reflexivity.
  assert ((∅ : LiveTuner.Cache) !! 41%nat = None) as H2 by reflexivity.
  assert (names_distinct demo_blocks) as H3.
  { repeat (apply Forall_cons; split); [..|apply Forall_nil];
      apply (bool_decide_unpack _); by vm_compute. }
  split; [exact H1|]. split; [exact H2|]. split; [exact H3|].
  exact (proj2 (proj1 (first_call_scales_the_original_weights ∅ demo_model _ _
                         "Real Value" 2%Q ∅ H1 H2 H3)) 1%nat _ eq_refl).
Defined.

(** X2 -- Reset.  Whatever a first call did to a model that was unseen,
    a following call with the base at 1.0 and every given slider at 1.0
    gives the model back exactly as it was before the first call, in either
    mode. *)
Theorem neutral_call_restores_the_original
    (cache : LiveTuner.Cache) (m : LiveTuner.Model) (bb : LiveTuner.Backbone)
    (bs : list LiveTuner.Block)
    (modeA : string) (baseA : float) (kwargsA : gmap string float)
    (mode : string) (base : float) (kwargs : gmap string float) :
  LiveTuner.locate m = inr (bb, LiveTuner.Blocks bs) ->
  cache !! LiveTuner.obj_id bb = None ->
  names_distinct bs ->
  (base == 1)%Q -> neutral kwargs ->
  (let rA := LiveTuner.tune_zimage cache m modeA baseA kwargsA in
   LiveTuner.r_model
     (LiveTuner.tune_zimage (LiveTuner.r_cache rA) (LiveTuner.r_model rA)
        mode base kwargs) = m) /\
  (let rA := LiveTuner.tune_zimage_lab cache m modeA baseA kwargsA in
   LiveTuner.r_model
     (LiveTuner.tune_zimage_lab (LiveTuner.r_cache rA) (LiveTuner.r_model rA)
        mode base kwargs) = m).
Proof.
  intros Hloc Hc Hnd Hb Hn.
  assert (LiveTuner.consistent cache m) as Hcons.
  { unfold LiveTuner.consistent. by rewrite Hloc, Hc. }
  split; intros rA; subst rA;
    unfold LiveTuner.tune_zimage, LiveTuner.tune_zimage_lab;
    rewrite tune_with_absorb by done;
    (match goal with
     | |- context [LiveTuner.tune_with ?s ?t cache m mode] =>
         destruct (tune_with_first_call s t mode cache m bb bs Hloc Hc Hnd)
           as [_ ->];
         rewrite (inject_from_neutral s)
     end).
  - by eapply set_container_same.
  - intros j. by apply layer_weights_neutral.
  - by eapply set_container_same.
  - intros j. by apply lab_scale_neutral.
Qed.

Lemma neutral_call_restores_the_original_witness :
  LiveTuner.locate demo_model
    = inr (LiveTuner.mkBackbone 41 (Some (LiveTuner.Blocks demo_blocks)) None None,
           LiveTuner.Blocks demo_blocks) /\
  (∅ : LiveTuner.Cache) !! 41%nat = None /\
  names_distinct demo_blocks /\
  (1.0 == 1)%Q /\ neutral ∅ /\
  LiveTuner.r_model
    (LiveTuner.tune_zimage (LiveTuner.r_cache demo_tuned)
       (LiveTuner.r_model demo_tuned) "Soft Value" 1.0 ∅) = demo_model.
Proof.
  assert (LiveTuner.locate demo_model
          = inr (LiveTuner.mkBackbone 41 (Some (LiveTuner.Blocks demo_blocks)) None None,
                 LiveTuner.Blocks demo_blocks)) as H1 by reflexivity.
  assert ((∅ : LiveTuner.Cache) !! 41%nat = None) as H2 by reflexivity.
  assert (names_distinct demo_blocks) as H3.
  { repeat (apply Forall_cons; split); [..|apply Forall_nil];
      apply (bool_decide_unpack _); by vm_compute. }
  assert (1.0 == 1)%Q as H4 by reflexivity.
  assert (neutral ∅) as H5 by (intros name v Hv; by rewrite lookup_empty in Hv).
  split; [exact H1|]. split; [exact H2|]. split; [exact H3|].
  split; [exact H4|]. split; [exact H5|].
  exact (proj1 (neutral_call_restores_the_original ∅ demo_model _ _
                  "Real Value" 2%Q ∅ "Soft Value" 1.0%Q ∅ H1 H2 H3 H4 H5)).
Defined.

(** X3 -- Frame.  A call of either destructive tuner keeps the identity of
    the model and everything in its blocks but the Linear weights: the
    number and order of blocks and modules, their names and kinds, the
    biases of the Linear modules and the parameters of every other
    module. *)
Theorem tuning_changes_linear_weights_only
    (cache : LiveTuner.Cache) (m : LiveTuner.Model) (mode : string)
    (base_scale : float) (kwargs : gmap string float) :
  (let r := LiveTuner.tune_zimage cache m mode base_scale kwargs in
   model_id (LiveTuner.r_model r) = model_id m /\
   frame_of (LiveTuner.r_model r) = frame_of m) /\
  (let r := LiveTuner.tune_zimage_lab cache m mode base_scale kwargs in
   model_id (LiveTuner.r_model r) = model_id m /\
   frame_of (LiveTuner.r_model r) = frame_of m).
Proof. split; apply tune_with_frame. Qed.

(** X4 -- The backup cache only grows.  A call never removes or rewrites an
    entry of the cache: the snapshot of every identity that has one,
    the tuned model's included, is still there afterwards. *)
Theorem backup_cache_only_grows
    (cache : LiveTuner.Cache) (m : LiveTuner.Model) (mode : string)
    (base_scale : float) (kwargs : gmap string float) :
  cache ⊆ LiveTuner.r_cache (LiveTuner.tune_zimage cache m mode base_scale kwargs) /\
  cache ⊆ LiveTuner.r_cache (LiveTuner.tune_zimage_lab cache m mode base_scale kwargs).
Proof. split; apply tune_with_cache_grows. Qed.

(** X5 -- Invariant.  If the identity of the model is unseen or its
    snapshot covers the model, the same holds after a call of either
    tuner, for the cache and the model the call leaves. *)
Theorem tuning_keeps_the_cache_consistent
    (cache : LiveTuner.Cache) (m : LiveTuner.Model) (mode : string)
    (base_scale : float) (kwargs : gmap string float) :
  LiveTuner.consistent cache m ->
  (let r := LiveTuner.tune_zimage cache m mode base_scale kwargs in
   LiveTuner.consistent (LiveTuner.r_cache r) (LiveTuner.r_model r)) /\
  (let r := LiveTuner.tune_zimage_lab cache m mode base_scale kwargs in
   LiveTuner.consistent (LiveTuner.r_cache r) (LiveTuner.r_model r)).
Proof. intros Hc. split; by apply tune_with_consistent. Qed.

Lemma tuning_keeps_the_cache_consistent_witness :
  LiveTuner.consistent (LiveTuner.r_cache demo_tuned) (LiveTuner.r_model demo_tuned) /\
  (let r := LiveTuner.tune_zimage_lab (LiveTuner.r_cache demo_tuned)
              (LiveTuner.r_model demo_tuned) "Soft Value" 0.5 ∅ in
   LiveTuner.consistent (LiveTuner.r_cache r) (LiveTuner.r_model r)).
Proof.
  assert (LiveTuner.consistent (LiveTuner.r_cache demo_tuned)
            (LiveTuner.r_model demo_tuned)) as H
    by (apply consistentb_sound; vm_compute; reflexivity).
  split; [exact H|].
  exact (proj2 (tuning_keeps_the_cache_consistent _ _ "Soft Value" 0.5%Q ∅ H)).
Defined.

(** The blocks a first encounter leaves, for both tuners. *)
Lemma first_call_blocks
    (cache : LiveTuner.Cache) (m : LiveTuner.Model) (bb : LiveTuner.Backbone)
    (bs : list LiveTuner.Block) (mode : string) (base_scale : float)
    (kwargs : gmap string float) :
  LiveTuner.locate m = inr (bb, LiveTuner.Blocks bs) ->
  cache !! LiveTuner.obj_id bb = None ->
  names_distinct bs ->
  (forall i blk, bs !! i = Some blk ->
     blocks_of (LiveTuner.r_model
                  (LiveTuner.tune_zimage cache m mode base_scale kwargs)) !! i
     = Some (let s := default 1.0%Q
                        (LiveTuner.layer_weights mode base_scale kwargs !! i) in
             if feqb s 1.0 then blk else map (LiveTuner.scale_module s) blk)) /\
  (forall i blk, bs !! i = Some blk ->
     blocks_of (LiveTuner.r_model
                  (LiveTuner.tune_zimage_lab cache m mode base_scale kwargs)) !! i
     = Some (let s := LiveTuner.lab_scale mode base_scale kwargs i in
             if feqb s 1.0 then blk else map (LiveTuner.scale_module s) blk)).
Proof.
  intros Hloc Hc Hnd.
  split; intros i blk Hi;
    unfold LiveTuner.tune_zimage, LiveTuner.tune_zimage_lab;
    (match goal with
     | |- context [LiveTuner.tune_with ?s ?t cache m mode] =>
         destruct (tune_with_first_call s t mode cache m bb bs Hloc Hc Hnd)
           as [_ ->]
     end);
    rewrite (blocks_of_set_container m bb _ _ Hloc), inject_from_lookup;
    unfold LiveTuner.Block in *; rewrite Hi; reflexivity.
Qed.


(** X6 -- Blocks beyond the taxonomy.  For a block index of 30 or more, on
    a first encounter: the standard tuner leaves the block as it is,
    whatever the inputs; the LAB tuner gives it the slider value 1.0 but
    still the base, so the block is scaled by
    [transform(1.0) * transform(base_scale)]. *)
Theorem blocks_beyond_the_taxonomy
    (cache : LiveTuner.Cache) (m : LiveTuner.Model) (bb : LiveTuner.Backbone)
    (bs : list LiveTuner.Block) (mode : string) (base_scale : float)
    (kwargs : gmap string float) (i : nat) (blk : LiveTuner.Block) :
  LiveTuner.locate m = inr (bb, LiveTuner.Blocks bs) ->
  cache !! LiveTuner.obj_id bb = None ->
  names_distinct bs ->
  (30 <= i)%nat -> bs !! i = Some blk ->
  blocks_of (LiveTuner.r_model
               (LiveTuner.tune_zimage cache m mode base_scale kwargs)) !! i
  = Some blk /\
  (let w := fmul (LiveTuner.get_target_weight mode 1.0)
                 (LiveTuner.get_target_weight mode base_scale) in
   blocks_of (LiveTuner.r_model
                (LiveTuner.tune_zimage_lab cache m mode base_scale kwargs)) !! i
   = Some (if feqb w 1.0 then blk else map (LiveTuner.scale_module w) blk)).
Proof.
  intros Hloc Hc Hnd Hi Hblk.
  destruct (first_call_blocks cache m bb bs mode base_scale kwargs Hloc Hc Hnd)
    as [Hstd Hlab].
  split.
  - etrans; [exact (Hstd i blk Hblk)|].
    by rewrite layer_weights_beyond by done.
  - intros w. etrans; [exact (Hlab i blk Hblk)|].
    unfold LiveTuner.lab_scale. by rewrite LAYER_TO_NAME_MAP_beyond by done.
Qed.

Lemma blocks_beyond_the_taxonomy_witness :
  LiveTuner.locate demo_deep_model
    = inr (demo_deep_backbone, LiveTuner.Blocks demo_deep_blocks) /\
  (∅ : LiveTuner.Cache) !! 43%nat = None /\
  names_distinct demo_deep_blocks /\
  (30 <= 30)%nat /\
  demo_deep_blocks !! 30%nat
    = Some [("feed_forward.w1", LiveTuner.Linear (demo_weight 1 2) None)] /\
  blocks_of (LiveTuner.r_model
               (LiveTuner.tune_zimage ∅ demo_deep_model "Real Value" 2 ∅)) !! 30%nat
  = Some [("feed_forward.w1", LiveTuner.Linear (demo_weight 1 2) None)] /\
  blocks_of (LiveTuner.r_model
               (LiveTuner.tune_zimage_lab ∅ demo_deep_model "Real Value" 2 ∅)) !! 30%nat
  = Some [("feed_forward.w1", LiveTuner.Linear (demo_weight 2 4) None)].
Proof.
  assert (LiveTuner.locate demo_deep_model
          = inr (demo_deep_backbone, LiveTuner.Blocks demo_deep_blocks)) as H1
    by reflexivity.
  assert ((∅ : LiveTuner.Cache) !! 43%nat = None) as H2 by reflexivity.
  assert (names_distinct demo_deep_blocks) as H3.
  { apply Forall_replicate. apply (bool_decide_unpack _). by vm_compute. }
  assert (30 <= 30)%nat as H4 by lia.
  assert (demo_deep_blocks !! 30%nat
          = Some [("feed_forward.w1", LiveTuner.Linear (demo_weight 1 2) None)])
    as H5 by reflexivity.
  split; [exact H1|]. split; [exact H2|]. split; [exact H3|].
  split; [exact H4|]. split; [exact H5|].
  exact (blocks_beyond_the_taxonomy ∅ demo_deep_model _ _ "Real Value" 2%Q ∅
           30%nat _ H1 H2 H3 H4 H5).
Defined.

(** ** The value transforms *)

(** X7 -- The soft curve of the destructive tuners.  The soft value is
    never negative; for a slider in [0, 2] it is at most 1.133; and the
    quadratic branch overshoots 1.0 just below the identity: the slider
    value 0.99 gives a multiplier above 1.0. *)
Theorem live_soft_curve_bounds :
  (forall w : float, (0 <= LiveTuner.get_target_weight "Soft Value" w)%Q) /\
  (forall w : float,
     (0 <= w <= 2)%Q -> (LiveTuner.get_target_weight "Soft Value" w <= 1.133)%Q) /\
  (1 < LiveTuner.get_target_weight "Soft Value" 0.99)%Q.
Proof.
  assert (forall w : float,
            (fadd (fmul (-1.02) (fmul w w)) (fmul 2.02 w)
             == -1.02 * (w * w) + 2.02 * w)%Q) as Hquad.
  { intros w. unfold fadd, fmul. by rewrite !Qred_correct. }
  assert (forall w : float,
            (fadd 1.0 (fmul (fsub w 1.0) 0.133) == 1 + (w - 1) * 0.133)%Q) as Hlin.
  { intros w. unfold fadd, fmul, fsub. rewrite !Qred_correct.
    assert (1.0 == 1)%Q as -> by (by vm_compute). reflexivity. }
  split; [|split].
  - intros w. unfold LiveTuner.get_target_weight.
    change (is_real "Soft Value") with false. cbv iota.
    destruct (fleb w 1.0) eqn:E.
    + unfold fmax, fgtb. destruct (Qle_bool _ 0.0) eqn:E0; cbn [negb].
      * by vm_compute.
      * apply not_true_iff_false in E0. rewrite Qle_bool_iff in E0.
        apply Qnot_le_lt in E0. apply Qlt_le_weak.
        eapply Qle_lt_trans; [|exact E0]. by vm_compute.
    + apply not_true_iff_false in E. unfold fleb in E. rewrite Qle_bool_iff in E.
      apply Qnot_le_lt in E. rewrite (Hlin w).
      assert (1.0 == 1)%Q as H1 by (by vm_compute). rewrite H1 in E. lra.
  - intros w [Hw0 Hw2]. unfold LiveTuner.get_target_weight.
    change (is_real "Soft Value") with false. cbv iota.
    destruct (fleb w 1.0) eqn:E.
    + unfold fmax, fgtb. destruct (Qle_bool _ 0.0) eqn:E0; cbn [negb].
      * by vm_compute.
      * rewrite (Hquad w).
        assert (0 <= (w - 1) * (w - 1))%Q as Hsq.
        { destruct (Qlt_le_dec (w - 1) 0).
          - assert ((w - 1) * (w - 1) == (- (w - 1)) * (- (w - 1)))%Q as -> by ring.
            apply Qmult_le_0_compat; lra.
          - apply Qmult_le_0_compat; lra. }
        lra.
    + rewrite (Hlin w). lra.
  - by vm_compute.
Qed.

Lemma live_soft_curve_bounds_witness :
  (0 <= 1.5 <= 2)%Q /\
  (LiveTuner.get_target_weight "Soft Value" 1.5 <= 1.133)%Q.
Proof.
  assert (0 <= 1.5 <= 2)%Q as H by (split; by vm_compute).
  split; [exact H|].
  exact (proj1 (proj2 live_soft_curve_bounds) 1.5%Q H).
Defined.

(** X8 -- The linear soft curves.  The soft curve of the text-encoder
    tuners, [0.8 + 0.2 v], and the soft curve of the state-dict Z-Image
    tuners, [1 + (v - 1) * 0.2], are one function; it maps a slider in
    [0, 2] into [0.8, 1.2] and a slider in [0, 10] into [0.8, 2.8]. *)
Theorem linear_soft_curves :
  (forall v : float, get_val "Soft Value" v = ZImage.get_val "Soft Value" v) /\
  (forall (base v : float),
     ZImage.lab_get_val "Soft Value" base v = ZImage.get_val "Soft Value" v) /\
  (forall v : float,
     (0 <= v <= 2)%Q ->
     (0.8 <= get_val "Soft Value" v <= 1.2)%Q) /\
  (forall v : float,
     (0 <= v <= 10)%Q ->
     (0.8 <= ZImage.get_val "Soft Value" v <= 2.8)%Q).
Proof.
  assert (forall v : float, (get_val "Soft Value" v == 0.8 + 0.2 * v)%Q) as Hte.
  { intros v. unfold get_val. change (is_real "Soft Value") with false.
    cbv iota. unfold fadd, fmul. by rewrite !Qred_correct. }
  assert (forall v : float,
            (ZImage.get_val "Soft Value" v == 1 + (v - 1) * 0.2)%Q) as Hz.
  { intros v. unfold ZImage.get_val. change (is_real "Soft Value") with false.
    cbv iota. unfold fadd, fmul, fsub. rewrite !Qred_correct. assert (1.0 == 1)%Q as -> by (by vm_compute).
    reflexivity. }
  split; [|split; [|split]].
  - intros v. unfold get_val, ZImage.get_val.
    change (is_real "Soft Value") with false. cbv iota. unfold fadd.
    apply Qred_complete. unfold fmul, fsub. rewrite !Qred_correct.
    assert (1.0 == 1)%Q as -> by (by vm_compute). lra.
  - reflexivity.
  - intros v Hv. rewrite (Hte v). lra.
  - intros v Hv. rewrite (Hz v). lra.
Qed.

Lemma linear_soft_curves_witness :
  (0 <= 1.5 <= 2)%Q /\ (0.8 <= get_val "Soft Value" 1.5 <= 1.2)%Q.
Proof.
  assert (0 <= 1.5 <= 2)%Q as H by (split; by vm_compute).
  split; [exact H|].
  exact (proj1 (proj2 (proj2 linear_soft_curves)) 1.5%Q H).
Defined.

(** * Further properties of the state-dict tuners *)

Section ZImageMore.
Import ZImage.

Lemma tune_loop_unchanged rs unsafe sd :
  (forall kt, kt ∈ sd -> (tune_entry rs unsafe kt).1 = (kt, 0%nat)) ->
  (tune_loop rs unsafe sd).1 = (sd, 0%nat).
Proof.
  intros H. unfold tune_loop. cbn [fst].
  assert (map (fun r : string * Tensor * nat * nat => r.1.1)
              (map (tune_entry rs unsafe) sd) = sd /\
          sum_list (map (fun r : string * Tensor * nat * nat => r.1.2)
                        (map (tune_entry rs unsafe) sd)) = 0%nat) as [-> ->];
    [|done].
  induction sd as [|kt sd IH]; [done|].
  destruct IH as [IH1 IH2]; [intros kt' Hin; apply H; by right|].
  assert ((tune_entry rs unsafe kt).1 = (kt, 0%nat)) as Hkt by (apply H; by left).
  simpl. rewrite IH1, IH2.
  destruct (tune_entry rs unsafe kt) as [[kt' c] sk]. simpl in *.
  by inversion Hkt; subst.
Qed.

Lemma tune_entry_key_shape rs unsafe kt :
  let kt' := (tune_entry rs unsafe kt).1.1 in
  kt'.1 = kt.1 /\ shape kt'.2 = shape kt.2.
Proof.
  unfold tune_entry. destruct (excluded unsafe kt.1) as [[|] n]; [done|].
  destruct (rs kt.1) as [scale tgt]. by destruct (must_scale scale tgt).
Qed.

Lemma tune_entry_counts rs unsafe kt :
  ((tune_entry rs unsafe kt).1.2 + (tune_entry rs unsafe kt).2 <= 1)%nat.
Proof.
  unfold tune_entry, excluded.
  destruct (negb (contains "weight" kt.1) && negb (contains "bias" kt.1));
    [simpl; lia|].
  destruct ((contains "norm" kt.1 || contains "adaLN" kt.1) && negb unsafe);
    [simpl; lia|].
  destruct (rs kt.1) as [scale tgt]. destruct (must_scale scale tgt); simpl; lia.
Qed.

Lemma tune_loop_frame rs unsafe sd :
  let r := tune_loop rs unsafe sd in
  shapes r.1.1 = shapes sd /\ (r.1.2 + r.2 <= length sd)%nat.
Proof.
  unfold tune_loop, shapes. simpl. induction sd as [|kt sd [IH1 IH2]]; [done|].
  simpl. destruct (tune_entry_key_shape rs unsafe kt) as [Hk Hs].
  pose proof (tune_entry_counts rs unsafe kt).
  split; [|lia]. rewrite IH1. f_equal. simpl in Hk, Hs. by rewrite Hk, Hs.
Qed.

(** A scale equal to 1.0 never passes the threshold. *)
Lemma must_scale_one scale tgt : (scale == 1)%Q -> must_scale scale tgt = false.
Proof.
  intros H. apply must_scale_within_epsilon. rewrite H. by vm_compute.
Qed.

Lemma calc_final_one mode base v :
  (v == 1)%Q -> is_real mode = false \/ (base == 1)%Q ->
  (calc_final mode base v == 1)%Q.
Proof.
  intros Hv Hm. unfold calc_final, ZImage.get_val.
  destruct (is_real mode).
  - destruct Hm as [|Hb]; [done|]. unfold fmul. rewrite Qred_correct, Hv, Hb.
    by vm_compute.
  - unfold fadd, fmul, fsub. rewrite !Qred_correct, Hv. by vm_compute.
Qed.

Lemma lab_get_val_one mode base v :
  (v == 1)%Q -> is_real mode = false \/ (base == 1)%Q ->
  (lab_get_val mode base v == 1)%Q.
Proof.
  intros Hv Hm. unfold lab_get_val.
  destruct (is_real mode).
  - destruct Hm as [|Hb]; [done|]. unfold fmul. rewrite Qred_correct, Hv, Hb.
    by vm_compute.
  - unfold fadd, fmul, fsub. rewrite !Qred_correct, Hv. by vm_compute.
Qed.

Lemma params_all_ones inp :
  all_ones (sliders inp) ->
  is_real (mode inp) = false \/ (base_strength inp == 1)%Q ->
  all_ones (params inp).
Proof.
  unfold all_ones, param_list, sliders, params. simpl. intros H Hm.
  repeat (apply Forall_cons in H as [? H]).
  repeat (apply Forall_cons_2; [by apply calc_final_one|]). constructor.
Qed.

Lemma fmul_eq_one a b : (a == 1)%Q -> (b == 1)%Q -> (fmul a b == 1)%Q.
Proof. intros Ha Hb. unfold fmul. rewrite Qred_correct, Ha, Hb. by vm_compute. Qed.

Lemma block_scale_one p idx : all_ones p -> (block_scale p idx == 1)%Q.
Proof.
  unfold all_ones, param_list. intros H.
  repeat (apply Forall_cons in H as [? H]).
  unfold block_scale.
  repeat (match goal with |- context [if ?c then _ else _] => destruct c end);
    done || by vm_compute.
Qed.

Lemma resolve_scale_one p key : all_ones p -> ((resolve_scale p key).1 == 1)%Q.
Proof.
  intros H.
  assert (forall idx, (block_scale p idx == 1)%Q) as Hb
    by (intros idx; by apply block_scale_one).
  unfold all_ones, param_list in H.
  repeat (apply Forall_cons in H as [? H]).
  unfold resolve_scale.
  assert (1.0 == 1)%Q as Hone by (by vm_compute).
  destruct (resolve key); cbn [fst]; try assumption.
  destruct (contains "attention" key); [apply fmul_eq_one; [apply Hb|assumption]|].
  destruct (contains "feed_forward" key); [apply fmul_eq_one; [apply Hb|assumption]|apply Hb].
Qed.

Lemma LAYER_CONFIG_bound i name : (i, name) ∈ LAYER_CONFIG -> (i < 30)%nat.
Proof.
  unfold LAYER_CONFIG. intros H. apply list_elem_of_fmap in H as (j & Heq & Hj).
  inversion Heq; subst. apply range_elem in Hj. lia.
Qed.

Lemma layer_scales_inv mode base kwargs idx x :
  layer_scales mode base kwargs !! idx = Some x ->
  exists i name, (i, name) ∈ LAYER_CONFIG /\ idx = Z.of_nat i /\
                 x = lab_get_val mode base (kw_get kwargs name).
Proof.
  unfold layer_scales. intros Hx.
  apply (fold_insert_inv (fun layer : nat * string => Z.of_nat layer.1)
           (fun layer => lab_get_val mode base (kw_get kwargs layer.2)))
    in Hx as [Hx|([i name] & Hin & -> & ->)].
  - by rewrite lookup_empty in Hx.
  - by exists i, name.
Qed.

Lemma layer_scales_outside mode base kwargs idx :
  (idx < 0 \/ 29 < idx)%Z -> layer_scales mode base kwargs !! idx = None.
Proof.
  intros Hidx. destruct (layer_scales mode base kwargs !! idx) as [x|] eqn:E; [|done].
  apply layer_scales_inv in E as (i & name & Hin & -> & _).
  apply LAYER_CONFIG_bound in Hin. lia.
Qed.

Lemma layer_scales_default_one mode base kwargs idx :
  neutral kwargs -> is_real mode = false \/ (base == 1)%Q ->
  (default 1.0%Q (layer_scales mode base kwargs !! idx) == 1)%Q.
Proof.
  intros Hn Hm. destruct (layer_scales mode base kwargs !! idx) as [x|] eqn:E.
  - apply layer_scales_inv in E as (i & name & _ & _ & ->). simpl.
    apply lab_get_val_one; [by apply kw_get_neutral|done].
  - by vm_compute.
Qed.

Lemma resolve_scale_lab_one mode base kwargs key :
  neutral kwargs -> is_real mode = false \/ (base == 1)%Q ->
  let gv := lab_get_val mode base in
  ((resolve_scale_lab (layer_scales mode base kwargs)
      (gv (kw_get kwargs "Noise_Refiners"))
      (gv (kw_get kwargs "Context_Refiners"))
      (gv (kw_get kwargs "Embedders_Global")) key).1 == 1)%Q.
Proof.
  intros Hn Hm gv. unfold resolve_scale_lab.
  assert (1.0 == 1)%Q as Hone by (by vm_compute).
  destruct (resolve_lab _ key); cbn [fst];
    first [ exact Hone
          | by apply layer_scales_default_one
          | apply lab_get_val_one; [by apply kw_get_neutral|done] ].
Qed.

End ZImageMore.

(** X9 -- Neutral sliders.  With every slider at 1.0, and either a mode
    other than Real or the base at 1.0, the Simple and the LAB state-dict
    tuners leave every tensor as it is and count no modification. *)
Theorem neutral_sliders_leave_the_state_dict (state_dict : list (string * Tensor)) :
  (forall inp : ZImage.Inputs,
     all_ones (sliders inp) ->
     is_real (ZImage.mode inp) = false \/ (ZImage.base_strength inp == 1)%Q ->
     (ZImage.tune state_dict inp).1 = (state_dict, 0%nat)) /\
  (forall (mode : string) (base : float) (unsafe : bool)
          (kwargs : gmap string float),
     neutral kwargs ->
     is_real mode = false \/ (base == 1)%Q ->
     (ZImage.tune_lab state_dict mode base unsafe kwargs).1 = (state_dict, 0%nat)).
Proof.
  split.
  - intros inp Hs Hm. unfold ZImage.tune. apply tune_loop_unchanged.
    intros kt _. apply tune_entry_not_scaled, must_scale_one, resolve_scale_one.
    by apply params_all_ones.
  - intros mode base unsafe kwargs Hn Hm. unfold ZImage.tune_lab.
    apply tune_loop_unchanged.
    intros kt _. apply tune_entry_not_scaled, must_scale_one.
    by apply resolve_scale_lab_one.
Qed.

Lemma neutral_sliders_leave_the_state_dict_witness :
  all_ones (sliders demo_soft_inputs) /\
  (is_real (ZImage.mode demo_soft_inputs) = false \/
   (ZImage.base_strength demo_soft_inputs == 1)%Q) /\
  (ZImage.tune [("layers.3.attention.qkv.weight", demo_weight 1 2);
                ("final_layer.linear.weight", demo_weight 3 4)]
     demo_soft_inputs).1
  = ([("layers.3.attention.qkv.weight", demo_weight 1 2);
      ("final_layer.linear.weight", demo_weight 3 4)], 0%nat).
Proof.
  assert (all_ones (sliders demo_soft_inputs)) as H1
    by (repeat (apply Forall_cons_2; [by vm_compute|]); constructor).
  assert (is_real (ZImage.mode demo_soft_inputs) = false \/
          (ZImage.base_strength demo_soft_inputs == 1)%Q) as H2 by (by left).
  split; [exact H1|]. split; [exact H2|].
  exact (proj1 (neutral_sliders_leave_the_state_dict _) demo_soft_inputs H1 H2).
Defined.

(** X10 -- Frame of the state-dict tuners.  Whatever the inputs, the Simple
    and the LAB tuner return the same keys in the same order with tensors
    of the same shapes, and the two counters together never exceed the
    number of tensors. *)
Theorem state_dict_tuners_keep_keys_and_shapes
    (state_dict : list (string * Tensor)) :
  (forall inp : ZImage.Inputs,
     let r := ZImage.tune state_dict inp in
     shapes r.1.1 = shapes state_dict /\ (r.1.2 + r.2 <= length state_dict)%nat) /\
  (forall (mode : string) (base : float) (unsafe : bool)
          (kwargs : gmap string float),
     let r := ZImage.tune_lab state_dict mode base unsafe kwargs in
     shapes r.1.1 = shapes state_dict /\ (r.1.2 + r.2 <= length state_dict)%nat).
Proof. split; intros; apply tune_loop_frame. Qed.

(** X11 -- Keys the tuners do not address.  A tensor whose key contains
    neither "weight" nor "bias", or whose key does not start with "layers."
    and names none of the components of the tuner, is never modified. *)
Theorem unaddressed_keys_are_never_modified
    (state_dict : list (string * Tensor)) (i : nat) (key : string) (t : Tensor) :
  state_dict !! i = Some (key, t) ->
  (contains "weight" key = false /\ contains "bias" key = false) \/
  (startswith key "layers." = false /\ contains "embedder" key = false /\
   contains "refiner" key = false /\ contains "final_layer" key = false /\
   contains "noise_refiner" key = false /\ contains "context_refiner" key = false) ->
  (forall inp : ZImage.Inputs,
     (ZImage.tune state_dict inp).1.1 !! i = Some (key, t)) /\
  (forall (mode : string) (base : float) (unsafe : bool)
          (kwargs : gmap string float),
     (ZImage.tune_lab state_dict mode base unsafe kwargs).1.1 !! i = Some (key, t)).
Proof.
  intros Hi Hk.
  assert (forall rs unsafe,
            (ZImage.excluded unsafe key).1 = true \/ (rs key).2 = false ->
            (ZImage.tune_entry rs unsafe (key, t)).1.1 = (key, t)) as Hentry.
  { intros rs unsafe [He|Hr].
    - by rewrite tune_entry_excluded.
    - rewrite tune_entry_not_scaled; [done|]. simpl. rewrite Hr.
      unfold ZImage.must_scale. done. }
  split; intros; unfold ZImage.tune, ZImage.tune_lab;
    (erewrite tune_loop_lookup by done); f_equal; apply Hentry;
    (destruct Hk as [[Hw Hb]|(Hl & He & Hr & Hf & Hn & Hc)];
     [left; unfold ZImage.excluded; by rewrite Hw, Hb|right]).
  - unfold ZImage.resolve_scale, ZImage.resolve. by rewrite Hl, He, Hr, Hf.
  - unfold ZImage.resolve_scale_lab, ZImage.resolve_lab. by rewrite Hl, Hn, Hc, He, Hf.
Qed.

Lemma unaddressed_keys_are_never_modified_witness :
  [("x_pad_token", demo_weight 1 2)] !! 0%nat = Some ("x_pad_token", demo_weight 1 2) /\
  ((contains "weight" "x_pad_token" = false /\ contains "bias" "x_pad_token" = false) \/
   (startswith "x_pad_token" "layers." = false /\
    contains "embedder" "x_pad_token" = false /\
    contains "refiner" "x_pad_token" = false /\
    contains "final_layer" "x_pad_token" = false /\
    contains "noise_refiner" "x_pad_token" = false /\
    contains "context_refiner" "x_pad_token" = false)) /\
  (ZImage.tune [("x_pad_token", demo_weight 1 2)] demo_real_inputs).1.1 !! 0%nat
  = Some ("x_pad_token", demo_weight 1 2).
Proof.
  assert ([("x_pad_token", demo_weight 1 2)] !! 0%nat
          = Some ("x_pad_token", demo_weight 1 2)) as H1 by reflexivity.
  assert ((contains "weight" "x_pad_token" = false /\
           contains "bias" "x_pad_token" = false) \/
          (startswith "x_pad_token" "layers." = false /\
           contains "embedder" "x_pad_token" = false /\
           contains "refiner" "x_pad_token" = false /\
           contains "final_layer" "x_pad_token" = false /\
           contains "noise_refiner" "x_pad_token" = false /\
           contains "context_refiner" "x_pad_token" = false)) as H2
    by (left; split; reflexivity).
  split; [exact H1|]. split; [exact H2|].
  exact (proj1 (unaddressed_keys_are_never_modified _ _ _ _ H1 H2) demo_real_inputs).
Defined.




Section ZImageBlocks.
Import ZImage.

Lemma resolve_layer key idx :
  startswith key "layers." = true -> layer_index key = Some idx ->
  resolve key = Layer idx.
Proof. intros Hs Hi. unfold resolve. by rewrite Hs, Hi. Qed.

(** In Real mode a block multiplier is its slider times the base. *)
Lemma block_scale_real inp idx :
  mode inp = "Real Value" -> (0 <= idx <= 29)%Z ->
  (block_scale (params inp) idx
   == block_scale (sliders inp) idx * base_strength inp)%Q.
Proof.
  intros Hm Hidx. unfold block_scale, params, sliders, calc_final, ZImage.get_val.
  rewrite Hm. change (is_real "Real Value") with true. cbv iota. cbn [b1 b2 b3 b4 b5 b6].
  repeat (match goal with
          | |- context [if ?c then _ else _] => destruct c eqn:?
          end; [unfold fmul; by rewrite Qred_correct|]).
  lia.
Qed.

End ZImageBlocks.

(** X13 -- The base in Real mode.  In Real mode every multiplier of the
    Simple tuner carries the base, the component multipliers included: a
    tensor of a layer 0..29 whose key names the attention (resp. the
    feed-forward) is scaled by [block * global_attention * base * base]
    (resp. with [global_mlp]), any other tensor of the layer by
    [block * base]. *)
Theorem real_mode_base_enters_with_every_multiplier
    (inp : ZImage.Inputs) (key : string) (idx : Z) :
  ZImage.mode inp = "Real Value" ->
  startswith key "layers." = true -> ZImage.layer_index key = Some idx ->
  (0 <= idx <= 29)%Z ->
  let block := ZImage.block_scale (sliders inp) idx in
  let base := ZImage.base_strength inp in
  let scale := (ZImage.resolve_scale (ZImage.params inp) key).1 in
  (ZImage.resolve_scale (ZImage.params inp) key).2 = true /\
  (contains "attention" key = true ->
   (scale == block * ZImage.global_attention inp * (base * base))%Q) /\
  (contains "attention" key = false -> contains "feed_forward" key = true ->
   (scale == block * ZImage.global_mlp inp * (base * base))%Q) /\
  (contains "attention" key = false -> contains "feed_forward" key = false ->
   (scale == block * base)%Q).
Proof.
  intros Hm Hs Hi Hidx block base scale. subst scale.
  unfold ZImage.resolve_scale. rewrite (resolve_layer key idx Hs Hi). cbn [fst snd].
  pose proof (block_scale_real inp idx Hm Hidx) as Hb. fold block base in Hb.
  assert (ZImage.g_att (ZImage.params inp) == ZImage.global_attention inp * base)%Q
    as Ha.
  { unfold ZImage.params, ZImage.calc_final, ZImage.get_val. rewrite Hm.
    change (is_real "Real Value") with true. cbv iota. cbn [ZImage.g_att].
    unfold fmul. by rewrite Qred_correct. }
  assert (ZImage.g_mlp (ZImage.params inp) == ZImage.global_mlp inp * base)%Q
    as Hmlp.
  { unfold ZImage.params, ZImage.calc_final, ZImage.get_val. rewrite Hm.
    change (is_real "Real Value") with true. cbv iota. cbn [ZImage.g_mlp].
    unfold fmul. by rewrite Qred_correct. }
  split; [done|]. split; [|split].
  - intros ->. unfold fmul. rewrite Qred_correct, Hb, Ha. ring.
  - intros -> ->. unfold fmul. rewrite Qred_correct, Hb, Hmlp. ring.
  - intros -> ->. exact Hb.
Qed.

Lemma real_mode_base_enters_with_every_multiplier_witness :
  ZImage.mode demo_base_inputs = "Real Value" /\
  startswith "layers.3.attention.qkv.weight" "layers." = true /\
  ZImage.layer_index "layers.3.attention.qkv.weight" = Some 3%Z /\
  (0 <= 3 <= 29)%Z /\
  contains "attention" "layers.3.attention.qkv.weight" = true /\
  ((ZImage.resolve_scale (ZImage.params demo_base_inputs)
      "layers.3.attention.qkv.weight").1
   == ZImage.block_scale (sliders demo_base_inputs) 3
      * ZImage.global_attention demo_base_inputs
      * (ZImage.base_strength demo_base_inputs
         * ZImage.base_strength demo_base_inputs))%Q.
Proof.
  assert (ZImage.mode demo_base_inputs = "Real Value") as H1 by reflexivity.
  assert (startswith "layers.3.attention.qkv.weight" "layers." = true) as H2
    by reflexivity.
  assert (ZImage.layer_index "layers.3.attention.qkv.weight" = Some 3%Z) as H3
    by reflexivity.
  assert (0 <= 3 <= 29)%Z as H4 by lia.
  assert (contains "attention" "layers.3.attention.qkv.weight" = true) as H5
    by reflexivity.
  split; [exact H1|]. split; [exact H2|]. split; [exact H3|].
  split; [exact H4|]. split; [exact H5|].
  exact (proj1 (proj2 (real_mode_base_enters_with_every_multiplier
                         demo_base_inputs _ _ H1 H2 H3 H4)) H5).
Defined.

(** X14 -- A layer index outside 0..29.  For a key ["layers.<idx>..."] with
    [idx] below 0 or above 29, the Simple tuner has no block multiplier:
    only the component multiplier of the key applies, and a key that names
    neither component is left unmodified.  The LAB tuner does not address
    the key at all. *)
Theorem layer_index_outside_the_blocks
    (state_dict : list (string * Tensor)) (i : nat) (key : string) (t : Tensor)
    (idx : Z) :
  state_dict !! i = Some (key, t) ->
  startswith key "layers." = true -> ZImage.layer_index key = Some idx ->
  (idx < 0 \/ 29 < idx)%Z ->
  (forall p : ZImage.Params,
     ZImage.resolve_scale p key
     = (if contains "attention" key then fmul 1.0 (ZImage.g_att p)
        else if contains "feed_forward" key then fmul 1.0 (ZImage.g_mlp p)
        else 1.0%Q, true)) /\
  (forall inp : ZImage.Inputs,
     contains "attention" key = false -> contains "feed_forward" key = false ->
     (ZImage.tune state_dict inp).1.1 !! i = Some (key, t)) /\
  (forall (mode : string) (base : float) (unsafe : bool)
          (kwargs : gmap string float),
     (ZImage.tune_lab state_dict mode base unsafe kwargs).1.1 !! i = Some (key, t)).
Proof.
  intros Hi Hs Hl Hidx.
  assert (forall p, ZImage.block_scale p idx = 1.0%Q) as Hblock.
  { intros p. unfold ZImage.block_scale.
    repeat (match goal with
            | |- context [if ?c then _ else _] => destruct c eqn:?
            end; [lia|]).
    done. }
  assert (forall p : ZImage.Params,
            ZImage.resolve_scale p key
            = (if contains "attention" key then fmul 1.0 (ZImage.g_att p)
               else if contains "feed_forward" key then fmul 1.0 (ZImage.g_mlp p)
               else 1.0%Q, true)) as Hrs.
  { intros p. unfold ZImage.resolve_scale.
    by rewrite (resolve_layer key idx Hs Hl), Hblock. }
  split; [exact Hrs|]. split.
  - intros inp Ha Hf. unfold ZImage.tune.
    erewrite tune_loop_lookup by done.
    rewrite tune_entry_not_scaled; [done|].
    cbn [fst snd]. rewrite Hrs, Ha, Hf. by vm_compute.
  - intros mode base unsafe kwargs. unfold ZImage.tune_lab.
    erewrite tune_loop_lookup by done.
    rewrite tune_entry_not_scaled; [done|].
    cbn [fst snd]. unfold ZImage.resolve_scale_lab, ZImage.resolve_lab.
    rewrite Hs, Hl, layer_scales_outside by done.
    rewrite bool_decide_eq_false_2 by (by intros [? ?]). by vm_compute.
Qed.

Lemma layer_index_outside_the_blocks_witness :
  [("layers.30.adapter.weight", demo_weight 1 2)] !! 0%nat
    = Some ("layers.30.adapter.weight", demo_weight 1 2) /\
  startswith "layers.30.adapter.weight" "layers." = true /\
  ZImage.layer_index "layers.30.adapter.weight" = Some 30%Z /\
  (30 < 0 \/ 29 < 30)%Z /\
  (ZImage.tune_lab [("layers.30.adapter.weight", demo_weight 1 2)]
     "Real Value" 2 false ∅).1.1 !! 0%nat
  = Some ("layers.30.adapter.weight", demo_weight 1 2).
Proof.
  assert ([("layers.30.adapter.weight", demo_weight 1 2)] !! 0%nat
          = Some ("layers.30.adapter.weight", demo_weight 1 2)) as H1 by reflexivity.
  assert (startswith "layers.30.adapter.weight" "layers." = true) as H2
    by reflexivity.
  assert (ZImage.layer_index "layers.30.adapter.weight" = Some 30%Z) as H3
    by reflexivity.
  assert (30 < 0 \/ 29 < 30)%Z as H4 by lia.
  split; [exact H1|]. split; [exact H2|]. split; [exact H3|]. split; [exact H4|].
  exact (proj2 (proj2 (layer_index_outside_the_blocks _ _ _ _ _ H1 H2 H3 H4))
           "Real Value" 2%Q false ∅).
Defined.

(** * Further properties of the patch tuners *)

Section PatchLoopMore.
Context {V : Type} (body : string -> V -> option (pdata * float)).

Lemma fold_state_dict l acc :
  state_dict (foldl (patch_step body) acc l).1 = state_dict acc.1.
Proof.
  revert acc. induction l as [|kv l IH]; intros acc; [done|].
  cbn [foldl]. rewrite IH. unfold patch_step.
  by destruct (body kv.1 kv.2) as [[value s]|].
Qed.

Lemma fold_prefix l acc key old :
  patches acc.1 !! key = Some old ->
  exists new, patches (foldl (patch_step body) acc l).1 !! key = Some (old ++ new)%list.
Proof.
  revert acc old. induction l as [|kv l IH]; intros acc old Hold.
  - exists []. by rewrite app_nil_r.
  - cbn [foldl]. unfold patch_step at 2.
    destruct (body kv.1 kv.2) as [[value s]|]; [|by apply IH].
    destruct (decide (kv.1 = key)) as [<-|Hne].
    + destruct (IH (add_patches kv.1 value s 1.0 acc.1, S acc.2)
                  (old ++ [PSeq [value; PNum s; PNum 1.0]])%list) as [new Hnew].
      { cbn [fst]. by rewrite patches_add_same, Hold. }
      exists ([PSeq [value; PNum s; PNum 1.0]] ++ new)%list.
      by rewrite Hnew, app_assoc.
    + apply IH. cbn [fst]. by rewrite patches_add_other.
Qed.

Lemma fold_absent l acc key :
  key ∉ map fst l ->
  patches (foldl (patch_step body) acc l).1 !! key = patches acc.1 !! key.
Proof.
  revert acc. induction l as [|kv l IH]; intros acc Hk; [done|].
  simpl in Hk. apply not_elem_of_cons in Hk as [Hne Hk].
  cbn [foldl]. rewrite IH by done. unfold patch_step.
  destruct (body kv.1 kv.2) as [[value s]|]; [|done].
  cbn [fst]. by rewrite patches_add_other.
Qed.

Lemma fold_none l acc :
  (forall kv, kv ∈ l -> body kv.1 kv.2 = None) ->
  foldl (patch_step body) acc l = acc.
Proof.
  revert acc. induction l as [|kv l IH]; intros acc H; [done|].
  cbn [foldl]. unfold patch_step at 2. rewrite (H kv) by (by left).
  apply IH. intros kv' Hin. apply H. by right.
Qed.

Lemma fold_entries_inv l acc key e :
  e ∈ default [] (patches (foldl (patch_step body) acc l).1 !! key) ->
  e ∈ default [] (patches acc.1 !! key) \/
  exists v value s,
    (key, v) ∈ l /\ body key v = Some (value, s) /\
    e = PSeq [value; PNum s; PNum 1.0].
Proof.
  revert acc. induction l as [|[k v] l IH]; intros acc He; [by left|].
  cbn [foldl] in He. apply IH in He as [He|(v' & value & s & Hin & Hb & ->)].
  - unfold patch_step in He. cbn [fst snd] in He.
    destruct (body k v) as [[value s]|] eqn:Hb; [|by left].
    cbn [fst] in He. destruct (decide (k = key)) as [->|Hne].
    + rewrite patches_add_same in He. cbn [default] in He.
      apply elem_of_app in He as [He|He]; [by left|].
      apply list_elem_of_singleton in He as ->.
      right. exists v, value, s. split; [by left|done].
    + rewrite patches_add_other in He by done. by left.
  - right. exists v', value, s. split; [by right|done].
Qed.

Lemma fold_exact l acc key v value s :
  NoDup (map fst l) -> (key, v) ∈ l -> body key v = Some (value, s) ->
  patches (foldl (patch_step body) acc l).1 !! key
  = Some (default [] (patches acc.1 !! key) ++ [PSeq [value; PNum s; PNum 1.0]])%list.
Proof.
  revert acc. induction l as [|[k v'] l IH]; intros acc Hnd Hin Hb.
  - by apply elem_of_nil in Hin.
  - simpl in Hnd. apply NoDup_cons in Hnd as [Hk Hnd].
    apply elem_of_cons in Hin as [Heq|Hin].
    + inversion Heq; subst. cbn [foldl]. rewrite fold_absent by done.
      unfold patch_step. cbn [fst snd]. rewrite Hb. cbn [fst].
      apply patches_add_same.
    + assert (k <> key) as Hne.
      { intros ->. apply Hk. apply list_elem_of_fmap. by exists (key, v). }
      cbn [foldl]. rewrite IH by done. unfold patch_step. cbn [fst snd].
      destruct (body k v') as [[value' s']|]; [|done].
      cbn [fst]. by rewrite patches_add_other.
Qed.

Lemma patch_loop_state_dict keys clip :
  state_dict (patch_loop body keys clip).1 = state_dict clip.
Proof. unfold patch_loop. by rewrite fold_state_dict. Qed.

Lemma patch_loop_prefix keys clip key old :
  patches clip !! key = Some old ->
  exists new, patches (patch_loop body keys clip).1 !! key = Some (old ++ new)%list.
Proof. intros H. unfold patch_loop. by apply (fold_prefix keys (clip, 0%nat)). Qed.

Lemma patch_loop_absent keys clip key :
  key ∉ map fst keys ->
  patches (patch_loop body keys clip).1 !! key = patches clip !! key.
Proof. intros H. unfold patch_loop. by rewrite fold_absent. Qed.

Lemma patch_loop_none keys clip :
  (forall kv, kv ∈ keys -> body kv.1 kv.2 = None) ->
  patch_loop body keys clip = (clip, 0%nat).
Proof. intros H. unfold patch_loop. by apply fold_none. Qed.

Lemma patch_loop_entries_inv keys clip key e :
  e ∈ default [] (patches (patch_loop body keys clip).1 !! key) ->
  e ∈ default [] (patches clip !! key) \/
  exists v value s,
    (key, v) ∈ keys /\ body key v = Some (value, s) /\
    e = PSeq [value; PNum s; PNum 1.0].
Proof. intros H. unfold patch_loop in H. by apply fold_entries_inv in H. Qed.

Lemma patch_loop_exact keys clip key v value s :
  NoDup (map fst keys) -> (key, v) ∈ keys -> body key v = Some (value, s) ->
  patches (patch_loop body keys clip).1 !! key
  = Some (default [] (patches clip !! key) ++ [PSeq [value; PNum s; PNum 1.0]])%list.
Proof. intros. unfold patch_loop. by erewrite fold_exact. Qed.

End PatchLoopMore.

Section QwenTables.

Lemma group_inputs_bound name a b :
  (name, (a, b)) ∈ QwenTE.group_inputs -> (b <= 36)%nat.
Proof.
  intros H.
  repeat (apply elem_of_cons in H as [H|H]; [inversion H; subst; lia|]).
  by apply elem_of_nil in H.
Qed.

Lemma bands_bound name a b : (name, (a, b)) ∈ QwenLive.bands -> (b <= 36)%nat.
Proof.
  intros H.
  repeat (apply elem_of_cons in H as [H|H]; [inversion H; subst; lia|]).
  by apply elem_of_nil in H.
Qed.

Lemma qwen_LAYER_CONFIG_bound i name :
  (i, name) ∈ QwenTE.LAYER_CONFIG -> (i < 36)%nat.
Proof.
  unfold QwenTE.LAYER_CONFIG. intros H.
  apply list_elem_of_fmap in H as (j & Heq & Hj).
  inversion Heq; subst. apply range_elem in Hj. lia.
Qed.

Lemma live_LAYER_CONFIG_bound i name :
  (i, name) ∈ QwenLive.LAYER_CONFIG -> (i < 36)%nat.
Proof.
  unfold QwenLive.LAYER_CONFIG. intros H.
  apply list_elem_of_fmap in H as (j & Heq & Hj).
  inversion Heq; subst. apply range_elem in Hj. lia.
Qed.

Lemma qwen_layer_scales_inv mode kwargs idx x :
  QwenTE.layer_scales mode kwargs !! idx = Some x ->
  (0 <= idx < 36)%Z /\ exists name, x = get_val mode (kw_get kwargs name).
Proof.
  unfold QwenTE.layer_scales. intros Hx.
  apply (fold_fold_insert_inv (fun g : string * (nat * nat) => range g.2.1 g.2.2)
           (fun i : nat => Z.of_nat i)
           (fun g _ => get_val mode (kw_get kwargs g.1)))
    in Hx as [Hx|([name [a b]] & e & Hg & He & -> & ->)].
  - by rewrite lookup_empty in Hx.
  - apply range_elem in He. apply group_inputs_bound in Hg. simpl in *.
    split; [lia|by exists name].
Qed.

Lemma qwen_lab_layer_scales_inv mode kwargs idx x :
  QwenTE.lab_layer_scales mode kwargs !! idx = Some x ->
  (0 <= idx < 36)%Z /\ exists name, x = get_val mode (kw_get kwargs name).
Proof.
  unfold QwenTE.lab_layer_scales. intros Hx.
  apply (fold_insert_inv (fun layer : nat * string => Z.of_nat layer.1)
           (fun layer => get_val mode (kw_get kwargs layer.2)))
    in Hx as [Hx|([i name] & Hin & -> & ->)].
  - by rewrite lookup_empty in Hx.
  - apply qwen_LAYER_CONFIG_bound in Hin. simpl. split; [lia|by exists name].
Qed.

Lemma live_layer_map_inv mode base kwargs idx x :
  QwenLive.layer_map mode base kwargs !! idx = Some x ->
  (0 <= idx < 36)%Z /\
  exists name, x = fmul (get_val mode (kw_get kwargs name)) (get_val mode base).
Proof.
  unfold QwenLive.layer_map. intros Hx.
  apply (fold_fold_insert_inv (fun g : string * (nat * nat) => range g.2.1 g.2.2)
           (fun i : nat => Z.of_nat i)
           (fun g _ => fmul (get_val mode (kw_get kwargs g.1)) (get_val mode base)))
    in Hx as [Hx|([name [a b]] & e & Hg & He & -> & ->)].
  - by rewrite lookup_empty in Hx.
  - apply range_elem in He. apply bands_bound in Hg. simpl in *.
    split; [lia|by exists name].
Qed.

Lemma live_lab_layer_scales_inv mode kwargs idx x :
  QwenLive.lab_layer_scales mode kwargs !! idx = Some x ->
  (0 <= idx < 36)%Z /\ exists name, x = get_val mode (kw_get kwargs name).
Proof.
  unfold QwenLive.lab_layer_scales. intros Hx.
  apply (fold_insert_inv (fun layer : nat * string => Z.of_nat layer.1)
           (fun layer => get_val mode (kw_get kwargs layer.2)))
    in Hx as [Hx|([i name] & Hin & -> & ->)].
  - by rewrite lookup_empty in Hx.
  - apply live_LAYER_CONFIG_bound in Hin. simpl. split; [lia|by exists name].
Qed.

(** The text-encoder transform at 1.0 is 1.0, in either mode. *)
Lemma get_val_one mode v : (v == 1)%Q -> (get_val mode v == 1)%Q.
Proof.
  intros Hv. unfold get_val. destruct (is_real mode); [done|].
  unfold fadd, fmul. rewrite !Qred_correct, Hv. by vm_compute.
Qed.

Lemma strength_zero target : (target == 1)%Q -> feqb (fsub target 1.0) 0 = true.
Proof.
  intros H. apply Qeq_bool_iff. unfold fsub. rewrite Qred_correct, H. by vm_compute.
Qed.

Lemma patch_body_neutral scales mode base kwargs key w :
  (base == 1)%Q -> neutral kwargs ->
  (forall idx x, scales !! idx = Some x ->
     exists name, x = get_val mode (kw_get kwargs name)) ->
  QwenTE.patch_body scales (get_val mode base) key w = None.
Proof.
  intros Hb Hn Hinv. unfold QwenTE.patch_body, QwenTE.target_scale.
  destruct (norm_or_bias key); [done|].
  destruct (layer_index key) as [idx|]; [|done].
  destruct (scales !! idx) as [x|] eqn:E; [|done]. cbn.
  apply Hinv in E as (name & ->).
  rewrite strength_zero; [done|].
  apply fmul_eq_one; apply get_val_one; [by apply kw_get_neutral|done].
Qed.

Lemma tune_body_neutral mode base kwargs key v :
  (base == 1)%Q -> neutral kwargs ->
  QwenLive.tune_body (QwenLive.layer_map mode base kwargs) key v = None.
Proof.
  intros Hb Hn. unfold QwenLive.tune_body.
  destruct (norm_or_bias key); [done|].
  destruct (layer_index key) as [idx|]; [|done].
  destruct (QwenLive.layer_map mode base kwargs !! idx) as [x|] eqn:E; [|done].
  apply live_layer_map_inv in E as (_ & name & ->).
  rewrite strength_zero; [done|].
  apply fmul_eq_one; apply get_val_one; [by apply kw_get_neutral|done].
Qed.

Lemma lab_body_neutral mode base kwargs key v :
  (base == 1)%Q -> neutral kwargs ->
  QwenLive.lab_body (QwenLive.lab_layer_scales mode kwargs) (get_val mode base)
    key v = None.
Proof.
  intros Hb Hn. unfold QwenLive.lab_body, QwenLive.lab_target_scale.
  destruct (norm_or_bias key); [done|].
  assert (get_val mode base == 1)%Q as Hw by (by apply get_val_one).
  destruct (layer_index key) as [idx|].
  - destruct (QwenLive.lab_layer_scales mode kwargs !! idx) as [x|] eqn:E; cbn [fst].
    + apply live_lab_layer_scales_inv in E as (_ & name & ->).
      rewrite strength_zero; [done|].
      apply fmul_eq_one; [apply get_val_one; by apply kw_get_neutral|done].
    + by rewrite strength_zero.
  - cbn [fst]. by rewrite strength_zero.
Qed.

End QwenTables.

(** X15 -- The patch tuners never touch a tensor and only append.  The clip
    each of the four patch tuners returns has the state dict of the clip it
    was given, and for every key the entries already registered are kept,
    in order, in front of whatever the call adds. *)
Theorem patch_tuners_only_append
    (get_key_patches : Clip -> list (string * pdata)) (clip : Clip)
    (mode : string) (base : float) (kwargs : gmap string float) :
  Forall (fun out : Clip =>
            state_dict out = state_dict clip /\
            forall key old, patches clip !! key = Some old ->
              exists new, patches out !! key = Some (old ++ new)%list)
    [ (QwenTE.tune_qwen_simple clip mode base kwargs).1.1;
      (QwenTE.tune_qwen_lab clip mode base kwargs).1.1;
      (QwenLive.tune_qwen get_key_patches clip mode base kwargs).1;
      (QwenLive.tune_qwen_lab get_key_patches clip mode base kwargs).1 ].
Proof.
  rewrite simple_clip_out, lab_clip_out, live_clip_out, live_lab_clip_out.
  repeat (apply Forall_cons_2;
          [split; [apply patch_loop_state_dict|intros; by apply patch_loop_prefix]|]).
  constructor.
Qed.

Lemma patch_tuners_only_append_witness :
  patches demo_tuned_clip !! "qwen3_4b.transformer.model.layers.0.mlp.weight"
    = Some [PSeq [PSeq [PTensor (demo_weight 1 2)]; PNum 0.1; PNum 1.0]] /\
  exists new,
    patches (QwenTE.tune_qwen_simple demo_tuned_clip "Real Value" 2 ∅).1.1
      !! "qwen3_4b.transformer.model.layers.0.mlp.weight"
    = Some ([PSeq [PSeq [PTensor (demo_weight 1 2)]; PNum 0.1; PNum 1.0]] ++ new)%list.
Proof.
  assert (patches demo_tuned_clip !! "qwen3_4b.transformer.model.layers.0.mlp.weight"
          = Some [PSeq [PSeq [PTensor (demo_weight 1 2)]; PNum 0.1; PNum 1.0]]) as H
    by reflexivity.
  split; [exact H|].
  exact (proj2 (Forall_inv (patch_tuners_only_append demo_key_patches
                              demo_tuned_clip "Real Value" 2%Q ∅)) _ _ H).
Defined.

(** X16 -- Neutral sliders register nothing.  With the base at 1.0 and
    every given slider at 1.0, in either mode, each of the four patch
    tuners returns the clip it was given and reports zero patches. *)
Theorem neutral_sliders_register_no_patch
    (get_key_patches : Clip -> list (string * pdata)) (clip : Clip)
    (mode : string) (base : float) (kwargs : gmap string float) :
  (base == 1)%Q -> neutral kwargs ->
  (QwenTE.tune_qwen_simple clip mode base kwargs).1
    = (clip, "Simple Tuner (6-Zones) Active | Patches: 0") /\
  (QwenTE.tune_qwen_lab clip mode base kwargs).1
    = (clip, "Lab Tuner Active | Patches: 0") /\
  QwenLive.tune_qwen get_key_patches clip mode base kwargs
    = (clip, "Qwen Tuned | Active Patches: 0 | Mode: " +:+ mode) /\
  QwenLive.tune_qwen_lab get_key_patches clip mode base kwargs
    = (clip, "Qwen Lab Active | Mode: " +:+ mode +:+
             " | Patches: 0 | Layers Mod: " +:+
             pretty (QwenLive.modulations (QwenLive.lab_layer_scales mode kwargs)
                       (get_val mode base) (get_key_patches clip) `div` 3)%nat).
Proof.
  intros Hb Hn.
  unfold QwenTE.tune_qwen_simple, QwenTE.tune_qwen_lab, QwenLive.tune_qwen,
    QwenLive.tune_qwen_lab.
  rewrite (patch_loop_none (QwenTE.patch_body (QwenTE.layer_scales mode kwargs)
                              (get_val mode base))).
  2:{ intros kv _. apply (patch_body_neutral _ mode base kwargs); [done|done|].
      intros idx x Hx. by apply qwen_layer_scales_inv in Hx as [_ ?]. }
  rewrite (patch_loop_none (QwenTE.patch_body (QwenTE.lab_layer_scales mode kwargs)
                              (get_val mode base))).
  2:{ intros kv _. apply (patch_body_neutral _ mode base kwargs); [done|done|].
      intros idx x Hx. by apply qwen_lab_layer_scales_inv in Hx as [_ ?]. }
  rewrite (patch_loop_none (QwenLive.tune_body (QwenLive.layer_map mode base kwargs)))
    by (intros kv _; by apply tune_body_neutral).
  rewrite (patch_loop_none (QwenLive.lab_body (QwenLive.lab_layer_scales mode kwargs)
                              (get_val mode base)))
    by (intros kv _; by apply lab_body_neutral).
  done.
Qed.

Lemma neutral_sliders_register_no_patch_witness :
  (1.0 == 1)%Q /\ neutral {[ "Zone_3_Syntax_High_12_17" := 1.0%Q ]} /\
  (QwenTE.tune_qwen_simple demo_clip "Soft Value" 1.0
     {[ "Zone_3_Syntax_High_12_17" := 1.0%Q ]}).1
  = (demo_clip, "Simple Tuner (6-Zones) Active | Patches: 0").
Proof.
  assert (1.0 == 1)%Q as H1 by reflexivity.
  assert (neutral {[ "Zone_3_Syntax_High_12_17" := 1.0%Q ]}) as H2.
  { intros name v Hv. apply lookup_singleton_Some in Hv as [_ <-]. reflexivity. }
  split; [exact H1|]. split; [exact H2|].
  exact (proj1 (neutral_sliders_register_no_patch demo_key_patches demo_clip
                  "Soft Value" 1.0%Q _ H1 H2)).
Defined.

(** X17 -- Every registered entry is accounted for.  In the Simple and the
    LAB tuner of the text encoder, an entry found under a key after the
    call was there before, or it is the patch of a tensor of the state dict
    under that key: the key contains neither "norm" nor "bias", it carries a
    layer index, and the strength of the entry is the value the debug map
    holds for that index, which is not zero. *)
Theorem registered_entries_match_the_debug_map
    (clip : Clip) (mode : string) (base : float) (kwargs : gmap string float)
    (key : string) (e : pdata) :
  let justified (r : Clip * string * QwenTE.DebugMap) :=
    e ∈ default [] (patches r.1.1 !! key) ->
    e ∈ default [] (patches clip !! key) \/
    exists t idx s,
      (key, t) ∈ state_dict clip /\ norm_or_bias key = false /\
      layer_index key = Some idx /\
      QwenTE.dbg_layers r.2 !! idx = Some s /\ ~ (s == 0)%Q /\
      e = PSeq [PSeq [PTensor t]; PNum s; PNum 1.0] in
  justified (QwenTE.tune_qwen_simple clip mode base kwargs) /\
  justified (QwenTE.tune_qwen_lab clip mode base kwargs).
Proof.
  assert (forall scales t value s,
            QwenTE.patch_body scales (get_val mode base) key t = Some (value, s) ->
            exists idx,
              norm_or_bias key = false /\ layer_index key = Some idx /\
              ((fun v => fsub (fmul v (get_val mode base)) 1.0) <$> scales) !! idx
              = Some s /\ ~ (s == 0)%Q /\ value = PSeq [PTensor t]) as Hbody.
  { intros scales t value s. unfold QwenTE.patch_body, QwenTE.target_scale.
    destruct (norm_or_bias key); [done|].
    destruct (layer_index key) as [idx|]; [|done].
    destruct (scales !! idx) as [x|] eqn:Es; [|done]. cbn.
    destruct (feqb (fsub (fmul x (get_val mode base)) 1.0) 0) eqn:E; [done|].
    intros [= <- <-]. exists idx. rewrite lookup_fmap, Es.
    repeat split; try done.
    intros Hz. apply Qeq_bool_iff in Hz. unfold feqb in E. congruence. }
  intros justified. subst justified. cbn beta.
  split; intros He.
  - unfold QwenTE.tune_qwen_simple in *.
    destruct (patch_loop _ (state_dict clip) clip) as [out n] eqn:Eout.
    cbn [fst snd QwenTE.dbg_layers] in *.
    replace out with (patch_loop
                        (QwenTE.patch_body (QwenTE.layer_scales mode kwargs)
                           (get_val mode base)) (state_dict clip) clip).1 in He
      by (by rewrite Eout).
    apply patch_loop_entries_inv in He as [He|(t & value & s & Hin & Hb & ->)];
      [by left|right].
    apply Hbody in Hb as (idx & Hnb & Hidx & Hdbg & Hs & ->).
    by exists t, idx, s.
  - unfold QwenTE.tune_qwen_lab in *.
    destruct (patch_loop _ (state_dict clip) clip) as [out n] eqn:Eout.
    cbn [fst snd QwenTE.dbg_layers] in *.
    replace out with (patch_loop
                        (QwenTE.patch_body (QwenTE.lab_layer_scales mode kwargs)
                           (get_val mode base)) (state_dict clip) clip).1 in He
      by (by rewrite Eout).
    apply patch_loop_entries_inv in He as [He|(t & value & s & Hin & Hb & ->)];
      [by left|right].
    apply Hbody in Hb as (idx & Hnb & Hidx & Hdbg & Hs & ->).
    by exists t, idx, s.
Qed.

Lemma registered_entries_match_the_debug_map_witness :
  let r := QwenTE.tune_qwen_simple demo_clip "Soft Value" 1.0
             {[ "Zone_2_Syntax_Low_06_11" := 1.5%Q ]} in
  let e := PSeq [PSeq [PTensor (demo_weight 5 6)]; PNum 0.1; PNum 1.0] in
  e ∈ default [] (patches r.1.1 !! "model.layers.7.mlp.up_proj.weight") /\
  (e ∈ default [] (patches demo_clip !! "model.layers.7.mlp.up_proj.weight") \/
   exists t idx s,
     ("model.layers.7.mlp.up_proj.weight", t) ∈ state_dict demo_clip /\
     norm_or_bias "model.layers.7.mlp.up_proj.weight" = false /\
     layer_index "model.layers.7.mlp.up_proj.weight" = Some idx /\
     QwenTE.dbg_layers r.2 !! idx = Some s /\ ~ (s == 0)%Q /\
     e = PSeq [PSeq [PTensor t]; PNum s; PNum 1.0]).
Proof.
  intros r e.
  assert (e ∈ default [] (patches r.1.1 !! "model.layers.7.mlp.up_proj.weight")) as H
    by (vm_compute; left).
  split; [exact H|].
  exact (proj1 (registered_entries_match_the_debug_map demo_clip "Soft Value" 1.0%Q
                  {[ "Zone_2_Syntax_Low_06_11" := 1.5%Q ]} _ e) H).
Defined.

(** X18 -- A layer index beyond the 36 layers.  For a key that passes the
    norm / bias filter and carries a layer index of 36 or more, three of the
    patch tuners register nothing; the LAB live tuner falls back to the base
    scale and registers a patch of strength [transform(base) - 1.0] when
    that is not zero. *)
Theorem layer_index_beyond_the_text_encoder
    (get_key_patches : Clip -> list (string * pdata)) (clip : Clip)
    (mode : string) (base : float) (kwargs : gmap string float)
    (key : string) (value : pdata) (idx : Z) :
  norm_or_bias key = false ->
  layer_index key = Some idx -> (36 <= idx)%Z ->
  (key, value) ∈ get_key_patches clip ->
  patches (QwenTE.tune_qwen_simple clip mode base kwargs).1.1 !! key
    = patches clip !! key /\
  patches (QwenTE.tune_qwen_lab clip mode base kwargs).1.1 !! key
    = patches clip !! key /\
  patches (QwenLive.tune_qwen get_key_patches clip mode base kwargs).1 !! key
    = patches clip !! key /\
  (let strength := fsub (get_val mode base) 1.0 in
   ~ (strength == 0)%Q ->
   PSeq [value; PNum strength; PNum 1.0]
     ∈ default [] (patches (QwenLive.tune_qwen_lab get_key_patches clip mode
                              base kwargs).1 !! key)).
Proof.
  intros Hnb Hidx Hbig Hin.
  assert (QwenTE.layer_scales mode kwargs !! idx = None) as H1.
  { destruct (QwenTE.layer_scales mode kwargs !! idx) eqn:E; [|done].
    apply qwen_layer_scales_inv in E as [? _]. lia. }
  assert (QwenTE.lab_layer_scales mode kwargs !! idx = None) as H2.
  { destruct (QwenTE.lab_layer_scales mode kwargs !! idx) eqn:E; [|done].
    apply qwen_lab_layer_scales_inv in E as [? _]. lia. }
  assert (QwenLive.layer_map mode base kwargs !! idx = None) as H3.
  { destruct (QwenLive.layer_map mode base kwargs !! idx) eqn:E; [|done].
    apply live_layer_map_inv in E as [? _]. lia. }
  assert (QwenLive.lab_layer_scales mode kwargs !! idx = None) as H4.
  { destruct (QwenLive.lab_layer_scales mode kwargs !! idx) eqn:E; [|done].
    apply live_lab_layer_scales_inv in E as [? _]. lia. }
  rewrite simple_clip_out, lab_clip_out, live_clip_out, live_lab_clip_out.
  split; [|split; [|split]].
  - apply patch_loop_untouched. intros v.
    unfold QwenTE.patch_body, QwenTE.target_scale. by rewrite Hnb, Hidx, H1.
  - apply patch_loop_untouched. intros v.
    unfold QwenTE.patch_body, QwenTE.target_scale. by rewrite Hnb, Hidx, H2.
  - apply patch_loop_untouched. intros v.
    unfold QwenLive.tune_body. by rewrite Hnb, Hidx, H3.
  - intros strength Hs. eapply patch_loop_registers; [exact Hin|].
    unfold QwenLive.lab_body, QwenLive.lab_target_scale.
    rewrite Hnb, Hidx, H4. cbn [fst]. fold strength.
    destruct (feqb strength 0) eqn:E; [|done].
    by apply Qeq_bool_iff in E.
Qed.

Lemma layer_index_beyond_the_text_encoder_witness :
  norm_or_bias "model.layers.40.mlp.weight" = false /\
  layer_index "model.layers.40.mlp.weight" = Some 40%Z /\ (36 <= 40)%Z /\
  ("model.layers.40.mlp.weight", PSeq [PTensor (demo_weight 1 2)])
    ∈ demo_key_patches demo_wide_clip /\
  ~ (fsub (get_val "Real Value" 2) 1.0 == 0)%Q /\
  PSeq [PSeq [PTensor (demo_weight 1 2)];
        PNum (fsub (get_val "Real Value" 2) 1.0); PNum 1.0]
    ∈ default [] (patches (QwenLive.tune_qwen_lab demo_key_patches demo_wide_clip
                             "Real Value" 2 ∅).1
                    !! "model.layers.40.mlp.weight").
Proof.
  assert (norm_or_bias "model.layers.40.mlp.weight" = false) as H1 by reflexivity.
  assert (layer_index "model.layers.40.mlp.weight" = Some 40%Z) as H2 by reflexivity.
  assert (36 <= 40)%Z as H3 by lia.
  assert (("model.layers.40.mlp.weight", PSeq [PTensor (demo_weight 1 2)])
            ∈ demo_key_patches demo_wide_clip) as H4 by (vm_compute; left).
  assert (~ (fsub (get_val "Real Value" 2) 1.0 == 0)%Q) as H5
    by (vm_compute; discriminate).
  split; [exact H1|]. split; [exact H2|]. split; [exact H3|].
  split; [exact H4|]. split; [exact H5|].
  exact (proj2 (proj2 (proj2 (layer_index_beyond_the_text_encoder demo_key_patches
                                demo_wide_clip "Real Value" 2%Q ∅ _ _ _
                                H1 H2 H3 H4))) H5).
Defined.

(** X19 -- Chained calls accumulate.  For a state dict with distinct keys,
    a tensor the Simple (resp. LAB) text-encoder tuner patches gets exactly
    one new entry behind those it had, and a second call on the returned
    clip with the same inputs adds the same entry once more. *)
Theorem chained_patch_tuning_accumulates
    (clip : Clip) (mode : string) (base : float) (kwargs : gmap string float)
    (key : string) (t : Tensor) (idx : Z) :
  NoDup (map fst (state_dict clip)) ->
  (key, t) ∈ state_dict clip ->
  norm_or_bias key = false -> layer_index key = Some idx ->
  let old := default [] (patches clip !! key) in
  let entry (ts : float) := PSeq [PSeq [PTensor t]; PNum (fsub ts 1.0); PNum 1.0] in
  (forall ts,
     QwenTE.target_scale (QwenTE.layer_scales mode kwargs) (get_val mode base) idx
       = Some ts ->
     ~ (fsub ts 1.0 == 0)%Q ->
     let once := (QwenTE.tune_qwen_simple clip mode base kwargs).1.1 in
     patches once !! key = Some (old ++ [entry ts])%list /\
     patches (QwenTE.tune_qwen_simple once mode base kwargs).1.1 !! key
       = Some (old ++ [entry ts; entry ts])%list) /\
  (forall ts,
     QwenTE.target_scale (QwenTE.lab_layer_scales mode kwargs) (get_val mode base) idx
       = Some ts ->
     ~ (fsub ts 1.0 == 0)%Q ->
     let once := (QwenTE.tune_qwen_lab clip mode base kwargs).1.1 in
     patches once !! key = Some (old ++ [entry ts])%list /\
     patches (QwenTE.tune_qwen_lab once mode base kwargs).1.1 !! key
       = Some (old ++ [entry ts; entry ts])%list).
Proof.
  intros Hnd Hin Hnb Hidx old entry.
  assert (forall scales ts,
            QwenTE.target_scale scales (get_val mode base) idx = Some ts ->
            ~ (fsub ts 1.0 == 0)%Q ->
            let body := QwenTE.patch_body scales (get_val mode base) in
            let once := (patch_loop body (state_dict clip) clip).1 in
            patches once !! key = Some (old ++ [entry ts])%list /\
            patches (patch_loop body (state_dict once) once).1 !! key
              = Some (old ++ [entry ts; entry ts])%list) as Hgen.
  { intros scales ts Hts Hs body once.
    assert (body key t = Some (PSeq [PTensor t], fsub ts 1.0)) as Hb.
    { subst body. unfold QwenTE.patch_body. rewrite Hnb, Hidx, Hts.
      destruct (feqb (fsub ts 1.0) 0) eqn:E; [|done].
      by apply Qeq_bool_iff in E. }
    assert (patches once !! key = Some (old ++ [entry ts])%list) as H1
      by (subst once; by erewrite patch_loop_exact).
    split; [exact H1|].
    assert (state_dict once = state_dict clip) as Hsd
      by (subst once; apply patch_loop_state_dict).
    rewrite Hsd. erewrite patch_loop_exact by done.
    rewrite H1. simpl. by rewrite <- app_assoc. }
  split; intros ts Hts Hs once; subst once;
    rewrite ?simple_clip_out, ?lab_clip_out; by apply Hgen.
Qed.

Lemma chained_patch_tuning_accumulates_witness :
  let key := "model.layers.7.mlp.up_proj.weight" in
  let kwargs : gmap string float := {[ "Zone_2_Syntax_Low_06_11" := 1.5%Q ]} in
  let e := PSeq [PSeq [PTensor (demo_weight 5 6)]; PNum (fsub 1.1 1.0); PNum 1.0] in
  NoDup (map fst (state_dict demo_clip)) /\
  (key, demo_weight 5 6) ∈ state_dict demo_clip /\
  norm_or_bias key = false /\ layer_index key = Some 7%Z /\
  QwenTE.target_scale (QwenTE.layer_scales "Soft Value" kwargs)
    (get_val "Soft Value" 1.0) 7 = Some 1.1%Q /\
  ~ (fsub 1.1 1.0 == 0)%Q /\
  patches (QwenTE.tune_qwen_simple
             (QwenTE.tune_qwen_simple demo_clip "Soft Value" 1.0 kwargs).1.1
             "Soft Value" 1.0 kwargs).1.1 !! key
  = Some (default [] (patches demo_clip !! key) ++ [e; e])%list.
Proof.
  intros key kwargs e.
  assert (NoDup (map fst (state_dict demo_clip))) as H1
    by (apply (bool_decide_unpack _); by vm_compute).
  assert ((key, demo_weight 5 6) ∈ state_dict demo_clip) as H2
    by (vm_compute; do 4 right; left).
  assert (norm_or_bias key = false) as H3 by reflexivity.
  assert (layer_index key = Some 7%Z) as H4 by reflexivity.
  assert (QwenTE.target_scale (QwenTE.layer_scales "Soft Value" kwargs)
            (get_val "Soft Value" 1.0) 7 = Some 1.1%Q) as H5 by reflexivity.
  assert (~ (fsub 1.1 1.0 == 0)%Q) as H6 by (vm_compute; discriminate).
  split; [exact H1|]. split; [exact H2|]. split; [exact H3|]. split; [exact H4|].
  split; [exact H5|]. split; [exact H6|].
  exact (proj2 (proj1 (chained_patch_tuning_accumulates demo_clip "Soft Value"
                         1.0%Q kwargs key _ _ H1 H2 H3 H4) _ H5 H6)).
Defined.

(** * Further properties of the export reconciler *)

Section SaverMore.
Variable to_dtype : dtype -> Tensor -> Tensor.
Variable broadcast_add : Tensor -> Tensor -> option Tensor.

Lemma sd_get_elem (sd : list (string * Tensor)) k t :
  NoDup (map fst sd) -> (k, t) ∈ sd -> QwenTE.sd_get sd k = Some t.
Proof.
  induction sd as [|[k' t'] sd IH]; intros Hnd Hin.
  - by apply elem_of_nil in Hin.
  - simpl in Hnd. apply NoDup_cons in Hnd as [Hk Hnd]. simpl.
    apply elem_of_cons in Hin as [Heq|Hin].
    + inversion Heq; subst. by rewrite String.eqb_refl.
    + destruct (String.eqb k' k) eqn:E.
      * apply String.eqb_eq in E as ->. exfalso. apply Hk.
        apply list_elem_of_fmap. by exists (k, t).
      * by apply IH.
Qed.

Lemma sd_get_is_Some (sd : list (string * Tensor)) k :
  k ∈ map fst sd -> is_Some (QwenTE.sd_get sd k).
Proof.
  induction sd as [|[k' t'] sd IH]; intros Hin.
  - by apply elem_of_nil in Hin.
  - simpl in *. destruct (String.eqb k' k) eqn:E; [by eexists|].
    apply elem_of_cons in Hin as [->|Hin]; [by rewrite String.eqb_refl in E|].
    by apply IH.
Qed.

(** What the suffix map holds is a key of the live state dict whose cleaned
    form is the entry's key. *)
Lemma suffix_map_sound (sd : list (string * Tensor)) c rk :
  QwenTE.suffix_map sd !! c = Some rk ->
  c = QwenTE.clean rk /\ is_Some (QwenTE.sd_get sd rk).
Proof.
  unfold QwenTE.suffix_map. intros H.
  apply (fold_insert_inv (fun kt : string * Tensor => QwenTE.clean kt.1)
           (fun kt => kt.1)) in H as [H|([k t] & Hin & -> & ->)].
  - by rewrite lookup_empty in H.
  - split; [done|]. apply sd_get_is_Some. apply list_elem_of_fmap. by exists (k, t).
Qed.

Lemma accumulate_nil_patches w count :
  QwenTE.accumulate to_dtype broadcast_add w count [] = Some (w, count).
Proof. done. Qed.

(** Whether the accumulation fails does not depend on the counter. *)
Lemma accumulate_count w c c' ps :
  QwenTE.accumulate to_dtype broadcast_add w c ps = None ->
  QwenTE.accumulate to_dtype broadcast_add w c' ps = None.
Proof.
  revert w c c'. induction ps as [|p ps IH]; intros w c c'; [done|].
  simpl. unfold QwenTE.apply_patch.
  destruct (QwenTE.find_tensor p) as [pt|]; [|by apply IH].
  destruct (QwenTE.find_strength p) as [s|]; [|by apply IH].
  destruct (QwenTE.tensor_add _ _ _) as [w'|]; [by apply IH|done].
Qed.

(** The keys written are the reference keys the suffix map knows. *)
Lemma reconcile_keys clip smap dt final_sd count keys out n :
  QwenTE.reconcile to_dtype broadcast_add clip smap dt final_sd count keys
    = Some (out, n) ->
  map fst out
  = (map fst final_sd ++
     filter (fun k => bool_decide (is_Some (smap !! QwenTE.clean k))) keys)%list.
Proof.
  revert final_sd count. induction keys as [|k keys IH]; intros final_sd count H.
  - simpl in H. inversion H; subst. by rewrite app_nil_r.
  - simpl in H. unfold QwenTE.reconcile_key in H.
    rewrite filter_cons.
    destruct (smap !! QwenTE.clean k) as [rk|] eqn:Em.
    + rewrite decide_True by (apply bool_decide_pack; by eexists).
      destruct (QwenTE.sd_get (state_dict clip) rk) as [w0|]; [|done].
      destruct (QwenTE.accumulate _ _ _ _ _) as [[w c]|]; [|done].
      apply IH in H. rewrite H, map_app. simpl. by rewrite <- app_assoc.
    + rewrite decide_False.
      2:{ intros Hd. apply bool_decide_unpack in Hd. by destruct Hd. }
      by apply IH in H.
Qed.

(** One key whose accumulation fails makes the whole export fail. *)
Lemma reconcile_fails clip dt final_sd count keys orig_key rk w0 :
  orig_key ∈ keys ->
  QwenTE.suffix_map (state_dict clip) !! QwenTE.clean orig_key = Some rk ->
  QwenTE.sd_get (state_dict clip) rk = Some w0 ->
  QwenTE.accumulate to_dtype broadcast_add (to_dtype F32 w0) 0
    (QwenTE.patches_of (patches clip) rk (QwenTE.clean orig_key)) = None ->
  QwenTE.reconcile to_dtype broadcast_add clip (QwenTE.suffix_map (state_dict clip))
    dt final_sd count keys = None.
Proof.
  intros Hin Hm Hw Hacc. revert final_sd count.
  induction keys as [|k keys IH]; intros final_sd count.
  - by apply elem_of_nil in Hin.
  - simpl. apply elem_of_cons in Hin as [<-|Hin].
    + unfold QwenTE.reconcile_key. rewrite Hm, Hw.
      by rewrite (accumulate_count _ 0%nat count _ Hacc).
    + destruct (QwenTE.reconcile_key _ _ _ _ _ _ _ _) as [[sd c]|]; [|done].
      by apply IH.
Qed.

(** Without patches every matched key is written with the cast of its live
    tensor, and nothing fails. *)
Lemma reconcile_without_patches clip dt final_sd count keys :
  patches clip = ∅ ->
  QwenTE.reconcile to_dtype broadcast_add clip (QwenTE.suffix_map (state_dict clip))
    dt final_sd count keys
  = Some ((final_sd ++
           omap (fun k =>
                   rk ← QwenTE.suffix_map (state_dict clip) !! QwenTE.clean k;
                   w ← QwenTE.sd_get (state_dict clip) rk;
                   Some (k, to_dtype dt (to_dtype F32 w))) keys)%list, count).
Proof.
  intros Hp. revert final_sd. induction keys as [|k keys IH]; intros final_sd.
  - simpl. by rewrite app_nil_r.
  - simpl. unfold QwenTE.reconcile_key.
    destruct (QwenTE.suffix_map (state_dict clip) !! QwenTE.clean k) as [rk|] eqn:Em;
      simpl; [|apply IH].
    destruct (suffix_map_sound _ _ _ Em) as [_ [w Hw]]. rewrite Hw. simpl.
    unfold QwenTE.patches_of. rewrite Hp, !lookup_empty. simpl.
    rewrite IH. by rewrite <- app_assoc.
Qed.

(** [v + v * (ts - 1) = v * ts] *)
Lemma tensor_add_strength (v : Tensor) (ts : float) :
  QwenTE.tensor_add broadcast_add v (mul_ v (fsub ts 1.0)) = Some (mul_ v ts).
Proof.
  unfold QwenTE.tensor_add, shape_eqb, mul_. simpl.
  rewrite bool_decide_eq_true_2 by done. rewrite zip_add_scaled.
  do 2 f_equal. apply map_ext. intros x.
  unfold fadd, fmul, fsub. apply Qred_complete. rewrite !Qred_correct.
  assert (1.0 == 1)%Q as -> by (by vm_compute). ring.
Qed.

End SaverMore.

Section CleanFacts.

Lemma replace_go_absent old new s :
  contains old s = false -> replace_go old new 0 s = s.
Proof.
  induction s as [|c s IH]; [done|].
  simpl. intros H. apply orb_false_iff in H as [Hp Hc].
  destruct old as [|o old']; [done|].
  simpl in Hp. simpl. rewrite Hp. f_equal. by apply IH.
Qed.

Lemma clean_absent k :
  contains "qwen3_4b.transformer." k = false -> contains "model." k = false ->
  QwenTE.clean k = k.
Proof.
  intros Hq Hm. unfold QwenTE.clean, replace.
  by rewrite (replace_go_absent _ _ k Hq), (replace_go_absent _ _ k Hm).
Qed.

Lemma prefix_nil s : String.prefix "" s = true.
Proof. by destruct s. Qed.

Lemma prefix_app p s : String.prefix p (p +:+ s) = true.
Proof.
  induction p as [|a p IH]; [apply prefix_nil|].
  change (String a p +:+ s) with (String a (p +:+ s)). simpl.
  by destruct (ascii_dec a a).
Qed.

Lemma replace_go_skip old new p s :
  replace_go old new (String.length p) (p +:+ s) = replace_go old new 0 s.
Proof.
  induction p as [|a p IH]; [done|].
  change (String a p +:+ s) with (String a (p +:+ s)). simpl. exact IH.
Qed.

(** An occurrence at the head of the string is replaced, and the scan goes
    on behind it. *)
Lemma replace_go_head a old new s :
  replace_go (String a old) new 0 (String a old +:+ s)
  = new +:+ replace_go (String a old) new 0 s.
Proof.
  change (String a old +:+ s) with (String a (old +:+ s)).
  cbn [replace_go].
  change (String a (old +:+ s)) with (String a old +:+ s).
  rewrite prefix_app. f_equal.
  replace (String.length (String a old) - 1)%nat with (String.length old)
    by (simpl; lia).
  apply replace_go_skip.
Qed.

Lemma clean_strips_transformer k :
  QwenTE.clean ("qwen3_4b.transformer." +:+ k) = QwenTE.clean k.
Proof.
  unfold QwenTE.clean, replace. by rewrite replace_go_head.
Qed.

Lemma clean_strips_model k : QwenTE.clean ("model." +:+ k) = QwenTE.clean k.
Proof.
  unfold QwenTE.clean, replace.
  assert (replace_go "qwen3_4b.transformer." "" 0 ("model." +:+ k)
          = "model." +:+ replace_go "qwen3_4b.transformer." "" 0 k) as ->
    by reflexivity.
  by rewrite replace_go_head.
Qed.

End CleanFacts.

Section ExportFacts.
Variable to_dtype : dtype -> Tensor -> Tensor.
Variable broadcast_add : Tensor -> Tensor -> option Tensor.

(** The saver reads back what the text-encoder tuners register. *)
Lemma find_registered (t : Tensor) (s sm : float) :
  QwenTE.find_tensor (PSeq [PSeq [PTensor t]; PNum s; PNum sm]) = Some t /\
  QwenTE.find_strength (PSeq [PSeq [PTensor t]; PNum s; PNum sm]) = Some s.
Proof. by split. Qed.

Lemma apply_patch_registered (w0 : Tensor) (count : nat) (ts sm : float) :
  QwenTE.apply_patch to_dtype broadcast_add (to_dtype F32 w0) count
    (PSeq [PSeq [PTensor w0]; PNum (fsub ts 1.0); PNum sm])
  = Some (mul_ (to_dtype F32 w0) ts, S count).
Proof.
  unfold QwenTE.apply_patch.
  destruct (find_registered w0 (fsub ts 1.0) sm) as [-> ->].
  unfold shape_eqb. rewrite bool_decide_eq_true_2 by done.
  by rewrite tensor_add_strength.
Qed.

Lemma suffix_map_fold_is_Some (l : list (string * Tensor)) (acc : gmap string string) c :
  is_Some (acc !! c) \/ (exists kt, kt ∈ l /\ QwenTE.clean kt.1 = c) ->
  is_Some (foldl (fun acc kt => <[QwenTE.clean kt.1 := kt.1]> acc) acc l !! c).
Proof.
  revert acc. induction l as [|kt l IH]; intros acc [Ha|(kt' & Hin & Hc)].
  - done.
  - by apply elem_of_nil in Hin.
  - cbn [foldl]. apply IH. left.
    destruct (decide (QwenTE.clean kt.1 = c)) as [<-|Hne].
    + rewrite lookup_insert_eq. by eexists.
    + by rewrite lookup_insert_ne.
  - cbn [foldl]. apply IH.
    apply elem_of_cons in Hin as [->|Hin].
    + left. rewrite <- Hc, lookup_insert_eq. by eexists.
    + right. by exists kt'.
Qed.

Lemma suffix_map_is_Some (sd : list (string * Tensor)) c :
  is_Some (QwenTE.suffix_map sd !! c)
  <-> exists rk, rk ∈ map fst sd /\ QwenTE.clean rk = c.
Proof.
  split.
  - intros [rk Hrk]. exists rk. apply suffix_map_sound in Hrk as [-> [w Hw]].
    split; [|done]. clear -Hw.
    induction sd as [|[k t] sd IH]; [done|]. simpl in *.
    destruct (String.eqb k rk) eqn:E.
    + apply String.eqb_eq in E as ->. by left.
    + right. by apply IH.
  - intros (rk & Hin & Hc). unfold QwenTE.suffix_map.
    apply suffix_map_fold_is_Some. right.
    apply list_elem_of_fmap in Hin as (kt & -> & Hin). by exists kt.
Qed.

Lemma apply_patch_incomplete w c p :
  complete p = false ->
  QwenTE.apply_patch to_dtype broadcast_add w c p = Some (w, c).
Proof.
  unfold complete, QwenTE.apply_patch. intros H.
  destruct (QwenTE.find_tensor p) as [pt|]; [|done].
  destruct (QwenTE.find_strength p) as [s|]; [|done].
  exfalso. apply andb_false_iff in H as [H|H];
    apply bool_decide_eq_false in H; apply H; by eexists.
Qed.

Lemma apply_patch_count w c p w' c' :
  QwenTE.apply_patch to_dtype broadcast_add w c p = Some (w', c') ->
  c' = (c + (if complete p then 1 else 0))%nat.
Proof.
  destruct (complete p) eqn:E.
  - unfold complete in E. apply andb_true_iff in E as [Ht Hs].
    apply bool_decide_eq_true in Ht as [pt Ht].
    apply bool_decide_eq_true in Hs as [s Hs].
    unfold QwenTE.apply_patch. rewrite Ht, Hs.
    destruct (QwenTE.tensor_add _ _ _); [|done]. intros [= _ <-]. lia.
  - rewrite apply_patch_incomplete by done. intros [= _ <-]. lia.
Qed.

Lemma accumulate_counts w c ps w' c' :
  QwenTE.accumulate to_dtype broadcast_add w c ps = Some (w', c') ->
  c' = (c + length (filter (fun p => complete p = true) ps))%nat.
Proof.
  revert w c. induction ps as [|p ps IH]; intros w c H.
  - simpl in H. inversion H; subst. simpl. lia.
  - simpl in H.
    destruct (QwenTE.apply_patch _ _ w c p) as [[w1 c1]|] eqn:E; [|done].
    apply apply_patch_count in E. apply IH in H. rewrite filter_cons.
    destruct (decide (complete p = true)) as [Hc|Hc].
    + rewrite Hc in E. simpl. lia.
    + apply not_true_is_false in Hc. rewrite Hc in E. lia.
Qed.

Lemma accumulate_incomplete w c ps :
  Forall (fun p => complete p = false) ps ->
  QwenTE.accumulate to_dtype broadcast_add w c ps = Some (w, c).
Proof.
  induction 1 as [|p ps Hp _ IH]; [done|].
  simpl. by rewrite apply_patch_incomplete.
Qed.

End ExportFacts.

(** X21 -- Export of an encoder without patches.  When the registry is
    empty the export never fails: it writes, for every reference key
    matched to a live tensor, that tensor loaded in float32 and cast to the
    export precision, and reports zero patches. *)
Theorem export_of_an_unpatched_encoder
    (to_dtype : dtype -> Tensor -> Tensor)
    (broadcast_add : Tensor -> Tensor -> option Tensor)
    (clip : Clip) (original_keys : list string) (save_precision : string) :
  patches clip = ∅ ->
  let dt := if String.eqb save_precision "fp32" then F32 else F16 in
  QwenTE.save_qwen to_dtype broadcast_add clip (Some original_keys) save_precision
  = QwenTE.Written
      (omap (fun k =>
               rk ← QwenTE.suffix_map (state_dict clip) !! QwenTE.clean k;
               w ← QwenTE.sd_get (state_dict clip) rk;
               Some (k, to_dtype dt (to_dtype F32 w))) original_keys)
      0.
Proof.
  intros Hp dt. unfold QwenTE.save_qwen. fold dt.
  by rewrite reconcile_without_patches.
Qed.

Lemma export_of_an_unpatched_encoder_witness :
  patches demo_prefixed_clip = ∅ /\
  QwenTE.save_qwen demo_to_dtype demo_broadcast_add demo_prefixed_clip
    (Some ["model.layers.7.mlp.up_proj.weight"; "lm_head.weight"; "model.norm.weight"])
    "fp32"
  = QwenTE.Written
      [ ("model.layers.7.mlp.up_proj.weight", demo_weight 5 6);
        ("model.norm.weight", demo_weight 1 1) ] 0.
Proof.
  assert (patches demo_prefixed_clip = ∅) as H by reflexivity.
  split; [exact H|].
  exact (export_of_an_unpatched_encoder demo_to_dtype demo_broadcast_add
           demo_prefixed_clip
           ["model.layers.7.mlp.up_proj.weight"; "lm_head.weight"; "model.norm.weight"]
           "fp32" H).
Defined.

(** X22 -- What the archive holds.  When the export succeeds, the keys it
    writes are the keys of the reference checkpoint whose cleaned form is
    the cleaned form of a live key, in the order of the reference: a
    reference key without a live counterpart is dropped, and no other key is
    written. *)
Theorem export_writes_the_matched_reference_keys
    (to_dtype : dtype -> Tensor -> Tensor)
    (broadcast_add : Tensor -> Tensor -> option Tensor)
    (clip : Clip) (original_keys : list string) (save_precision : string)
    (final_sd : list (string * Tensor)) (count_patched : nat) :
  QwenTE.save_qwen to_dtype broadcast_add clip (Some original_keys) save_precision
    = QwenTE.Written final_sd count_patched ->
  map fst final_sd
    = filter (fun k => bool_decide
                         (is_Some (QwenTE.suffix_map (state_dict clip)
                                     !! QwenTE.clean k))) original_keys /\
  (forall k, k ∈ map fst final_sd <->
             k ∈ original_keys /\
             exists rk, rk ∈ map fst (state_dict clip) /\
                        QwenTE.clean rk = QwenTE.clean k).
Proof.
  unfold QwenTE.save_qwen. intros H.
  destruct (QwenTE.reconcile _ _ _ _ _ _ _ _) as [[out n]|] eqn:E; [|done].
  inversion H; subst. apply reconcile_keys in E. simpl in E.
  split; [exact E|]. intros k. rewrite E, list_elem_of_filter.
  rewrite <- suffix_map_is_Some. split.
  - intros [Hd Hin]. split; [done|]. by apply bool_decide_unpack in Hd.
  - intros [Hin Hs]. split; [|done]. by apply bool_decide_pack.
Qed.

Lemma export_writes_the_matched_reference_keys_witness :
  QwenTE.save_qwen demo_to_dtype demo_broadcast_add demo_tuned_clip
    (Some ["model.layers.0.mlp.weight"; "lm_head.weight"]) "fp16"
  = QwenTE.Written
      [("model.layers.0.mlp.weight", mkTensor [2%nat] [1.1%Q; (11 # 5)%Q])] 1 /\
  map fst [("model.layers.0.mlp.weight", mkTensor [2%nat] [1.1%Q; (11 # 5)%Q])]
  = filter (fun k => bool_decide
                       (is_Some (QwenTE.suffix_map (state_dict demo_tuned_clip)
                                   !! QwenTE.clean k)))
      ["model.layers.0.mlp.weight"; "lm_head.weight"].
Proof.
  assert (QwenTE.save_qwen demo_to_dtype demo_broadcast_add demo_tuned_clip
            (Some ["model.layers.0.mlp.weight"; "lm_head.weight"]) "fp16"
          = QwenTE.Written
              [("model.layers.0.mlp.weight", mkTensor [2%nat] [1.1%Q; (11 # 5)%Q])] 1)
    as H by reflexivity.
  split; [exact H|].
  exact (proj1 (export_writes_the_matched_reference_keys demo_to_dtype
                  demo_broadcast_add demo_tuned_clip _ "fp16" _ _ H)).
Defined.

(** X23 -- Key matching is modulo the wrapper prefixes.  For a key [k] in
    which neither "qwen3_4b.transformer." nor "model." occurs, the four
    spellings of [k] (bare, under "model.", under the wrapper, under both)
    have the same cleaned form, [k] itself; so a reference key in any of
    these spellings is matched as soon as the live state dict holds the key
    in any of them, and the live key it is matched to cleans to [k]. *)
Theorem key_matching_ignores_the_wrapper_prefixes
    (sd : list (string * Tensor)) (k : string) :
  contains "qwen3_4b.transformer." k = false ->
  contains "model." k = false ->
  (forall s, s ∈ spellings k -> QwenTE.clean s = k) /\
  (forall orig_key live_key,
     orig_key ∈ spellings k -> live_key ∈ spellings k ->
     live_key ∈ map fst sd ->
     exists ram_key,
       QwenTE.suffix_map sd !! QwenTE.clean orig_key = Some ram_key /\
       ram_key ∈ map fst sd /\ QwenTE.clean ram_key = k).
Proof.
  intros Hq Hm.
  assert (forall s, s ∈ spellings k -> QwenTE.clean s = k) as Hsp.
  { intros s Hs. unfold spellings in Hs.
    repeat (apply elem_of_cons in Hs as [->|Hs]).
    - by apply clean_absent.
    - rewrite clean_strips_model. by apply clean_absent.
    - rewrite clean_strips_transformer. by apply clean_absent.
    - change ("qwen3_4b.transformer.model." +:+ k)
        with ("qwen3_4b.transformer." +:+ ("model." +:+ k)).
      rewrite clean_strips_transformer, clean_strips_model. by apply clean_absent.
    - by apply elem_of_nil in Hs. }
  split; [exact Hsp|].
  intros orig_key live_key Ho Hl Hin.
  rewrite (Hsp _ Ho).
  destruct (proj2 (suffix_map_is_Some sd k)) as [rk Hrk].
  { exists live_key. split; [done|]. by apply Hsp. }
  exists rk. split; [done|].
  destruct (proj1 (suffix_map_is_Some sd k)) as (rk' & Hin' & Hc'); [by eexists|].
  apply suffix_map_sound in Hrk as [Hc [w Hw]]. split; [|done].
  clear -Hw. induction sd as [|[k0 t] sd IH]; [done|]. simpl in *.
  destruct (String.eqb k0 rk) eqn:E.
  - apply String.eqb_eq in E as ->. by left.
  - right. by apply IH.
Qed.

Lemma key_matching_ignores_the_wrapper_prefixes_witness :
  let k := "layers.7.mlp.up_proj.weight" in
  contains "qwen3_4b.transformer." k = false /\
  contains "model." k = false /\
  ("model." +:+ k) ∈ spellings k /\
  ("qwen3_4b.transformer.model." +:+ k) ∈ spellings k /\
  ("qwen3_4b.transformer.model." +:+ k) ∈ map fst (state_dict demo_prefixed_clip) /\
  exists ram_key,
    QwenTE.suffix_map (state_dict demo_prefixed_clip) !! QwenTE.clean ("model." +:+ k)
      = Some ram_key /\
    ram_key ∈ map fst (state_dict demo_prefixed_clip) /\ QwenTE.clean ram_key = k.
Proof.
  intros k.
  assert (contains "qwen3_4b.transformer." k = false) as H1 by reflexivity.
  assert (contains "model." k = false) as H2 by reflexivity.
  assert (("model." +:+ k) ∈ spellings k) as H3 by (vm_compute; right; left).
  assert (("qwen3_4b.transformer.model." +:+ k) ∈ spellings k) as H4
    by (vm_compute; do 3 right; left).
  assert (("qwen3_4b.transformer.model." +:+ k)
            ∈ map fst (state_dict demo_prefixed_clip)) as H5 by (vm_compute; left).
  split; [exact H1|]. split; [exact H2|]. split; [exact H3|]. split; [exact H4|].
  split; [exact H5|].
  exact (proj2 (key_matching_ignores_the_wrapper_prefixes
                  (state_dict demo_prefixed_clip) k H1 H2) _ _ H3 H4 H5).
Defined.

(** X24 -- The export fails as a whole.  When the accumulation of the
    patches of one matched reference key raises (a patch tensor that can
    neither be viewed as nor added to the weight), the export ends in the
    failure branch whatever the other keys are: nothing is written. *)
Theorem one_failing_key_fails_the_export
    (to_dtype : dtype -> Tensor -> Tensor)
    (broadcast_add : Tensor -> Tensor -> option Tensor)
    (clip : Clip) (original_keys : list string) (save_precision : string)
    (orig_key ram_key : string) (w0 : Tensor) :
  orig_key ∈ original_keys ->
  QwenTE.suffix_map (state_dict clip) !! QwenTE.clean orig_key = Some ram_key ->
  QwenTE.sd_get (state_dict clip) ram_key = Some w0 ->
  QwenTE.accumulate to_dtype broadcast_add (to_dtype F32 w0) 0
    (QwenTE.patches_of (patches clip) ram_key (QwenTE.clean orig_key)) = None ->
  QwenTE.save_qwen to_dtype broadcast_add clip (Some original_keys) save_precision
  = QwenTE.ExportFailed.
Proof.
  intros Hin Hm Hw Hacc. unfold QwenTE.save_qwen.
  by rewrite (reconcile_fails to_dtype broadcast_add clip _ [] 0%nat original_keys
                orig_key ram_key w0 Hin Hm Hw Hacc).
Qed.

Lemma one_failing_key_fails_the_export_witness :
  let key := "model.layers.0.mlp.weight" in
  key ∈ ["lm_head.weight"; key] /\
  QwenTE.suffix_map (state_dict demo_broken_clip) !! QwenTE.clean key = Some key /\
  QwenTE.sd_get (state_dict demo_broken_clip) key = Some (demo_weight 1 2) /\
  QwenTE.accumulate demo_to_dtype demo_broadcast_add
    (demo_to_dtype F32 (demo_weight 1 2)) 0
    (QwenTE.patches_of (patches demo_broken_clip) key (QwenTE.clean key)) = None /\
  QwenTE.save_qwen demo_to_dtype demo_broadcast_add demo_broken_clip
    (Some ["lm_head.weight"; key]) "fp16"
  = QwenTE.ExportFailed.
Proof.
  intros key.
  assert (key ∈ ["lm_head.weight"; key]) as H1 by (right; left).
  assert (QwenTE.suffix_map (state_dict demo_broken_clip) !! QwenTE.clean key
          = Some key) as H2 by reflexivity.
  assert (QwenTE.sd_get (state_dict demo_broken_clip) key = Some (demo_weight 1 2))
    as H3 by reflexivity.
  assert (QwenTE.accumulate demo_to_dtype demo_broadcast_add
            (demo_to_dtype F32 (demo_weight 1 2)) 0
            (QwenTE.patches_of (patches demo_broken_clip) key (QwenTE.clean key))
          = None) as H4 by reflexivity.
  split; [exact H1|]. split; [exact H2|]. split; [exact H3|]. split; [exact H4|].
  exact (one_failing_key_fails_the_export demo_to_dtype demo_broadcast_add
           demo_broken_clip _ "fp16" _ _ _ H1 H2 H3 H4).
Defined.

(** X25 -- What the patch counter counts.  When the accumulation over the
    patches of a tensor succeeds, the counter has grown by the number of
    entries in which the saver finds both a tensor and a strength; and when
    no entry is of that kind, the weight comes back as it was loaded. *)
Theorem patch_counter_counts_complete_entries
    (to_dtype : dtype -> Tensor -> Tensor)
    (broadcast_add : Tensor -> Tensor -> option Tensor)
    (weight : Tensor) (count : nat) (ps : list pdata) :
  (forall w c,
     QwenTE.accumulate to_dtype broadcast_add weight count ps = Some (w, c) ->
     c = (count + length (filter (fun p => complete p = true) ps))%nat) /\
  (Forall (fun p => complete p = false) ps ->
   QwenTE.accumulate to_dtype broadcast_add weight count ps = Some (weight, count)).
Proof.
  split.
  - intros w c. apply accumulate_counts.
  - apply accumulate_incomplete.
Qed.

Lemma patch_counter_counts_complete_entries_witness :
  let ps := [PSeq [PNum 0.5; PNone]; PSeq [PSeq [PTensor (demo_weight 1 2)]; PNum 0.1];
             PTensor (demo_weight 3 4)] in
  let ws := [PNum 0.5; PSeq [PTensor (demo_weight 3 4)]; PNone] in
  QwenTE.accumulate demo_to_dtype demo_broadcast_add (demo_weight 1 2) 4 ps
    = Some (demo_weight 1.1 (11 # 5), 5%nat) /\
  5%nat = (4 + length (filter (fun p => complete p = true) ps))%nat /\
  Forall (fun p => complete p = false) ws /\
  QwenTE.accumulate demo_to_dtype demo_broadcast_add (demo_weight 1 2) 4 ws
    = Some (demo_weight 1 2, 4%nat).
Proof.
  intros ps ws.
  assert (QwenTE.accumulate demo_to_dtype demo_broadcast_add (demo_weight 1 2) 4 ps
          = Some (demo_weight 1.1 (11 # 5), 5%nat)) as H1 by reflexivity.
  assert (Forall (fun p => complete p = false) ws) as H2
    by (repeat constructor).
  split; [exact H1|].
  split; [exact (proj1 (patch_counter_counts_complete_entries demo_to_dtype
                          demo_broadcast_add (demo_weight 1 2) 4 ps) _ _ H1)|].
  split; [exact H2|].
  exact (proj2 (patch_counter_counts_complete_entries demo_to_dtype
                  demo_broadcast_add (demo_weight 1 2) 4 ws) H2).
Defined.

(** * The sliders and the tables they fill *)

Section FoldCong.
Context {K : Type} `{Countable K} {V E : Type}.

(** Two tables filled over the same list agree at a key when the values
    written under that key agree. *)
Lemma fold_insert_cong (k : E -> K) (f1 f2 : E -> V) (l : list E)
    (acc1 acc2 : gmap K V) j :
  (forall e, e ∈ l -> k e = j -> f1 e = f2 e) ->
  acc1 !! j = acc2 !! j ->
  foldl (fun acc e => <[k e := f1 e]> acc) acc1 l !! j
  = foldl (fun acc e => <[k e := f2 e]> acc) acc2 l !! j.
Proof.
  revert acc1 acc2. induction l as [|e l IH]; intros acc1 acc2 Hf Hacc; [done|].
  cbn [foldl]. apply IH.
  - intros e' He'. apply Hf. by right.
  - destruct (decide (k e = j)) as [Hk|Hk].
    + rewrite <- Hk, !lookup_insert_eq. f_equal. apply Hf; [by left|done].
    + by rewrite !lookup_insert_ne.
Qed.

Lemma fold_fold_insert_cong {G : Type} (rng : G -> list E) (k : E -> K)
    (f1 f2 : G -> E -> V) (gs : list G) (acc1 acc2 : gmap K V) j :
  (forall g e, g ∈ gs -> e ∈ rng g -> k e = j -> f1 g e = f2 g e) ->
  acc1 !! j = acc2 !! j ->
  foldl (fun acc g => foldl (fun acc e => <[k e := f1 g e]> acc) acc (rng g)) acc1 gs
    !! j
  = foldl (fun acc g => foldl (fun acc e => <[k e := f2 g e]> acc) acc (rng g)) acc2 gs
      !! j.
Proof.
  revert acc1 acc2. induction gs as [|g gs IH]; intros acc1 acc2 Hf Hacc; [done|].
  cbn [foldl]. apply IH.
  - intros g' e Hg'. apply Hf. by right.
  - apply fold_insert_cong; [|done]. intros e He. apply Hf; [by left|done].
Qed.

End FoldCong.

Section SliderFacts.

Lemma nodup_map_inj {A B : Type} (f : A -> B) (l : list A) x y :
  NoDup (map f l) -> x ∈ l -> y ∈ l -> f x = f y -> x = y.
Proof.
  induction l as [|a l IH]; intros Hnd Hx Hy Hf; [by apply elem_of_nil in Hx|].
  simpl in Hnd. apply NoDup_cons in Hnd as [Ha Hnd].
  apply elem_of_cons in Hx as [->|Hx]; apply elem_of_cons in Hy as [->|Hy].
  - done.
  - exfalso. apply Ha. rewrite Hf. apply list_elem_of_fmap. by exists y.
  - exfalso. apply Ha. rewrite <- Hf. apply list_elem_of_fmap. by exists x.
  - by apply IH.
Qed.

Lemma kw_get_insert kwargs name (v : float) : kw_get (<[name := v]> kwargs) name = v.
Proof. unfold kw_get. by rewrite lookup_insert_eq. Qed.

Lemma kw_get_insert_ne kwargs name name' (v : float) :
  name <> name' -> kw_get (<[name := v]> kwargs) name' = kw_get kwargs name'.
Proof. intros Hne. unfold kw_get. by rewrite lookup_insert_ne. Qed.

(** A per-layer table: the slider of another layer does not reach [j]. *)
Lemma lab_table_other (g : float -> float) (cfg : list (nat * string))
    kwargs i name (v : float) (j : Z) :
  NoDup (map snd cfg) -> (i, name) ∈ cfg -> j <> Z.of_nat i ->
  foldl (fun acc layer =>
           <[Z.of_nat layer.1 := g (kw_get (<[name := v]> kwargs) layer.2)]> acc)
        (∅ : gmap Z float) cfg !! j
  = foldl (fun acc layer => <[Z.of_nat layer.1 := g (kw_get kwargs layer.2)]> acc)
          (∅ : gmap Z float) cfg !! j.
Proof.
  intros Hnd Hin Hj.
  apply (fold_insert_cong (fun layer : nat * string => Z.of_nat layer.1)); [|done].
  intros [i' name'] Hin' Hk. cbn [fst snd] in *. f_equal.
  apply kw_get_insert_ne. intros <-.
  assert ((i, name) = (i', name)) as Heq
    by (by apply (nodup_map_inj snd cfg)).
  inversion Heq; subst. done.
Qed.

(** A per-zone table: the slider of a zone does not reach an index outside
    the zone. *)
Lemma zone_table_other {K : Type} `{Countable K} (key : nat -> K)
    (g : float -> float) (groups : list (string * (nat * nat)))
    kwargs name a b (v : float) (j : K) :
  NoDup (map fst groups) -> (name, (a, b)) ∈ groups ->
  (forall i, (a <= i < b)%nat -> key i <> j) ->
  foldl (fun acc grp =>
           foldl (fun acc i => <[key i := g (kw_get (<[name := v]> kwargs) grp.1)]> acc)
                 acc (range grp.2.1 grp.2.2))
        (∅ : gmap K float) groups !! j
  = foldl (fun acc grp =>
             foldl (fun acc i => <[key i := g (kw_get kwargs grp.1)]> acc)
                   acc (range grp.2.1 grp.2.2))
          (∅ : gmap K float) groups !! j.
Proof.
  intros Hnd Hin Hj.
  apply (fold_fold_insert_cong
           (fun grp : string * (nat * nat) => range grp.2.1 grp.2.2) key
           (fun grp _ => g (kw_get (<[name := v]> kwargs) grp.1))
           (fun grp _ => g (kw_get kwargs grp.1))); [|done].
  intros [name' [a' b']] e Hg He Hk. cbn [fst snd] in *. f_equal.
  apply kw_get_insert_ne. intros <-.
  assert ((name, (a, b)) = (name, (a', b'))) as Heq
    by (by apply (nodup_map_inj fst groups)).
  inversion Heq; subst. apply range_elem in He. by apply (Hj e).
Qed.

Lemma LAYER_TO_NAME_MAP_inj i j name :
  LiveTuner.LAYER_TO_NAME_MAP !! i = Some name ->
  LiveTuner.LAYER_TO_NAME_MAP !! j = Some name -> i = j.
Proof.
  intros Hi Hj.
  assert (NoDup (map snd (map_to_list LiveTuner.LAYER_TO_NAME_MAP))) as Hnd
    by (apply (bool_decide_unpack _); by vm_compute).
  apply elem_of_map_to_list in Hi, Hj.
  assert ((i, name) = (j, name)) as Heq
    by (by apply (nodup_map_inj snd (map_to_list LiveTuner.LAYER_TO_NAME_MAP))).
  by inversion Heq.
Qed.

Lemma qwen_lab_names_distinct : NoDup (map snd QwenTE.LAYER_CONFIG).
Proof. apply (bool_decide_unpack _). by vm_compute. Qed.

Lemma live_lab_names_distinct : NoDup (map snd QwenLive.LAYER_CONFIG).
Proof. apply (bool_decide_unpack _). by vm_compute. Qed.

Lemma zimage_lab_names_distinct : NoDup (map snd ZImage.LAYER_CONFIG).
Proof. apply (bool_decide_unpack _). by vm_compute. Qed.

Lemma GROUP_MAP_names_distinct : NoDup (map fst LiveTuner.GROUP_MAP).
Proof. apply (bool_decide_unpack _). by vm_compute. Qed.

Lemma group_inputs_names_distinct : NoDup (map fst QwenTE.group_inputs).
Proof. apply (bool_decide_unpack _). by vm_compute. Qed.

Lemma bands_names_distinct : NoDup (map fst QwenLive.bands).
Proof. apply (bool_decide_unpack _). by vm_compute. Qed.

End SliderFacts.

(** X26 -- One slider, one layer.  In the four LAB tuners, giving the slider
    of layer [i] the value [v] sets the scale of layer [i] to the transform
    of [v] (times the transformed base in the destructive tuner) and leaves
    the scale of every other index as it was: the generated slider names
    are pairwise distinct. *)
Theorem each_lab_slider_sets_its_own_layer
    (mode : string) (base : float) (kwargs : gmap string float)
    (name : string) (v : float) (i : nat) :
  let kwargs' := <[name := v]> kwargs in
  ((i, name) ∈ QwenTE.LAYER_CONFIG ->
   QwenTE.lab_layer_scales mode kwargs' !! Z.of_nat i = Some (get_val mode v) /\
   forall j, j <> Z.of_nat i ->
     QwenTE.lab_layer_scales mode kwargs' !! j
     = QwenTE.lab_layer_scales mode kwargs !! j) /\
  ((i, name) ∈ QwenLive.LAYER_CONFIG ->
   QwenLive.lab_layer_scales mode kwargs' !! Z.of_nat i = Some (get_val mode v) /\
   forall j, j <> Z.of_nat i ->
     QwenLive.lab_layer_scales mode kwargs' !! j
     = QwenLive.lab_layer_scales mode kwargs !! j) /\
  ((i, name) ∈ ZImage.LAYER_CONFIG ->
   ZImage.layer_scales mode base kwargs' !! Z.of_nat i
     = Some (ZImage.lab_get_val mode base v) /\
   forall j, j <> Z.of_nat i ->
     ZImage.layer_scales mode base kwargs' !! j
     = ZImage.layer_scales mode base kwargs !! j) /\
  (LiveTuner.LAYER_TO_NAME_MAP !! i = Some name ->
   LiveTuner.lab_scale mode base kwargs' i
     = fmul (LiveTuner.get_target_weight mode v)
            (LiveTuner.get_target_weight mode base) /\
   forall j, j <> i ->
     LiveTuner.lab_scale mode base kwargs' j = LiveTuner.lab_scale mode base kwargs j).
Proof.
  intros kwargs'. subst kwargs'. repeat split.
  - rewrite (qwen_lab_layer_scales_lookup _ _ _ _ H). by rewrite kw_get_insert.
  - intros j Hj. unfold QwenTE.lab_layer_scales.
    by apply (lab_table_other (get_val mode) _ kwargs i name v j
                qwen_lab_names_distinct).
  - rewrite (live_lab_layer_scales_lookup _ _ _ _ H). by rewrite kw_get_insert.
  - intros j Hj. unfold QwenLive.lab_layer_scales.
    by apply (lab_table_other (QwenLive.get_target_weight mode) _ kwargs i name v j
                live_lab_names_distinct).
  - rewrite (zimage_lab_layer_scales_lookup _ _ _ _ _ H). by rewrite kw_get_insert.
  - intros j Hj. unfold ZImage.layer_scales.
    by apply (lab_table_other (ZImage.lab_get_val mode base) _ kwargs i name v j
                zimage_lab_names_distinct).
  - unfold LiveTuner.lab_scale. rewrite H. by rewrite kw_get_insert.
  - intros j Hj. unfold LiveTuner.lab_scale.
    destruct (LiveTuner.LAYER_TO_NAME_MAP !! j) as [name'|] eqn:E; [|done].
    rewrite kw_get_insert_ne; [done|]. intros <-.
    apply Hj. by apply (LAYER_TO_NAME_MAP_inj j i name).
Qed.

Lemma each_lab_slider_sets_its_own_layer_witness :
  let kwargs : gmap string float := {[ "LLM_Syntax_L08" := 0.5%Q ]} in
  let kwargs' := <[ "LLM_Syntax_L07" := 1.5%Q ]> kwargs in
  (7%nat, "LLM_Syntax_L07") ∈ QwenTE.LAYER_CONFIG /\
  (8 <> Z.of_nat 7)%Z /\
  QwenTE.lab_layer_scales "Soft Value" kwargs' !! Z.of_nat 7
    = Some (get_val "Soft Value" 1.5) /\
  QwenTE.lab_layer_scales "Soft Value" kwargs' !! 8%Z
    = QwenTE.lab_layer_scales "Soft Value" kwargs !! 8%Z.
Proof.
  intros kwargs kwargs'.
  assert ((7%nat, "LLM_Syntax_L07") ∈ QwenTE.LAYER_CONFIG) as H1
    by (vm_compute; do 7 right; left).
  assert (8 <> Z.of_nat 7)%Z as H2 by lia.
  split; [exact H1|]. split; [exact H2|].
  split.
  - exact (proj1 (proj1 (each_lab_slider_sets_its_own_layer "Soft Value" 1%Q
                           kwargs "LLM_Syntax_L07" 1.5%Q 7) H1)).
  - exact (proj2 (proj1 (each_lab_slider_sets_its_own_layer "Soft Value" 1%Q
                           kwargs "LLM_Syntax_L07" 1.5%Q 7) H1) 8%Z H2).
Defined.

(** X27 -- One slider, one zone.  In the three tuners whose sliders are
    zones of layers (the destructive Z-Image tuner, the Simple text-encoder
    tuner and the live text-encoder tuner), giving the slider of a zone the
    value [v] sets the scale of every layer of the zone to the transform of
    [v] (times the transformed base where the table holds the product) and
    leaves every index outside the zone as it was. *)
Theorem each_zone_slider_moves_its_own_layers
    (mode : string) (base : float) (kwargs : gmap string float)
    (name : string) (v : float) (a b : nat) :
  let kwargs' := <[name := v]> kwargs in
  ((name, (a, b)) ∈ LiveTuner.GROUP_MAP ->
   (forall i, (a <= i < b)%nat ->
      LiveTuner.layer_weights mode base kwargs' !! i
      = Some (fmul (LiveTuner.get_target_weight mode v)
                   (LiveTuner.get_target_weight mode base))) /\
   (forall j, ~ (a <= j < b)%nat ->
      LiveTuner.layer_weights mode base kwargs' !! j
      = LiveTuner.layer_weights mode base kwargs !! j)) /\
  ((name, (a, b)) ∈ QwenTE.group_inputs ->
   (forall i, (a <= i < b)%nat ->
      QwenTE.layer_scales mode kwargs' !! Z.of_nat i = Some (get_val mode v)) /\
   (forall j, ~ (Z.of_nat a <= j < Z.of_nat b)%Z ->
      QwenTE.layer_scales mode kwargs' !! j = QwenTE.layer_scales mode kwargs !! j)) /\
  ((name, (a, b)) ∈ QwenLive.bands ->
   (forall i, (a <= i < b)%nat ->
      QwenLive.layer_map mode base kwargs' !! Z.of_nat i
      = Some (fmul (get_val mode v) (get_val mode base))) /\
   (forall j, ~ (Z.of_nat a <= j < Z.of_nat b)%Z ->
      QwenLive.layer_map mode base kwargs' !! j
      = QwenLive.layer_map mode base kwargs !! j)).
Proof.
  intros kwargs'. subst kwargs'. repeat split.
  - intros i Hi. rewrite (live_layer_weights_lookup _ _ _ _ _ _ _ H Hi).
    by rewrite kw_get_insert.
  - intros j Hj. unfold LiveTuner.layer_weights.
    apply (zone_table_other (fun i : nat => i)
             (fun s => fmul (LiveTuner.get_target_weight mode s)
                            (LiveTuner.get_target_weight mode base))
             _ kwargs name a b v j GROUP_MAP_names_distinct H).
    intros i Hi ->. by apply Hj.
  - intros i Hi. rewrite (qwen_layer_scales_lookup _ _ _ _ _ _ H Hi).
    by rewrite kw_get_insert.
  - intros j Hj. unfold QwenTE.layer_scales.
    apply (zone_table_other Z.of_nat (get_val mode)
             _ kwargs name a b v j group_inputs_names_distinct H).
    intros i Hi <-. apply Hj. lia.
  - intros i Hi. rewrite (live_layer_map_lookup _ _ _ _ _ _ _ H Hi).
    by rewrite kw_get_insert.
  - intros j Hj. unfold QwenLive.layer_map.
    apply (zone_table_other Z.of_nat
             (fun s => fmul (QwenLive.get_target_weight mode s)
                            (QwenLive.get_target_weight mode base))
             _ kwargs name a b v j bands_names_distinct H).
    intros i Hi <-. apply Hj. lia.
Qed.

Lemma each_zone_slider_moves_its_own_layers_witness :
  let kwargs : gmap string float := {[ "Zone_1_Embedding_00_05" := 0.5%Q ]} in
  let kwargs' := <[ "Zone_2_Syntax_Low_06_11" := 1.5%Q ]> kwargs in
  ("Zone_2_Syntax_Low_06_11", (6, 12)%nat) ∈ QwenTE.group_inputs /\
  (6 <= 7 < 12)%nat /\ ~ (Z.of_nat 6 <= 3 < Z.of_nat 12)%Z /\
  QwenTE.layer_scales "Soft Value" kwargs' !! Z.of_nat 7
    = Some (get_val "Soft Value" 1.5) /\
  QwenTE.layer_scales "Soft Value" kwargs' !! 3%Z
    = QwenTE.layer_scales "Soft Value" kwargs !! 3%Z.
Proof.
  intros kwargs kwargs'.
  assert (("Zone_2_Syntax_Low_06_11", (6, 12)%nat) ∈ QwenTE.group_inputs) as H1
    by (right; left).
  assert (6 <= 7 < 12)%nat as H2 by lia.
  assert (~ (Z.of_nat 6 <= 3 < Z.of_nat 12)%Z) as H3 by lia.
  split; [exact H1|]. split; [exact H2|]. split; [exact H3|].
  split.
  - exact (proj1 (proj1 (proj2 (each_zone_slider_moves_its_own_layers "Soft Value"
                                  1%Q kwargs "Zone_2_Syntax_Low_06_11" 1.5%Q 6 12))
                    H1) 7%nat H2).
  - exact (proj2 (proj1 (proj2 (each_zone_slider_moves_its_own_layers "Soft Value"
                                  1%Q kwargs "Zone_2_Syntax_Low_06_11" 1.5%Q 6 12))
                    H1) 3%Z H3).
Defined.

(** * The resolvers, the threshold, the six-zone scenario and the export *)

(** ** Two resolvers, one per family of tuners *)

(** C6, as stated, fails: no resolver of the code returns 7 for both key
    forms.  The positional resolver of the Z-Image state-dict tuners does
    not address the alternate-prefix key, in the Simple tuner and in the LAB
    tuner alike; the pattern resolver of the Qwen tuners finds no index in
    the bare key, and none in ["final_layer.weight"], for which it has no
    fallback. *)
Lemma no_resolver_reads_both_key_forms :
  ZImage.resolve "model.layers.7.q_proj.weight" = ZImage.Unaddressed /\
  (forall scales : gmap Z float,
     ZImage.resolve_lab scales "model.layers.7.q_proj.weight" = ZImage.Unaddressed) /\
  Host.layer_index "layers.7.attention.q_proj.weight" = None /\
  Host.layer_index "final_layer.weight" = None.
Proof. repeat split. Qed.

(** C6, as the code has it -- Key resolution.  The positional resolver of
    the Z-Image state-dict tuners ([key.startswith("layers.")], then
    [int(key.split(".")[1])]) returns 7 for
    ["layers.7.attention.q_proj.weight"] and leaves the alternate-prefix key
    ["model.layers.7.q_proj.weight"] without an address or a scale; the
    pattern resolver of the Qwen tuners returns 7 for the alternate-prefix
    key and nothing for the bare one.  ["final_layer.weight"] gets no index:
    the Z-Image tuners give it the fallback classification, whose scale is
    the one of the last layer group ([b6] in the Simple tuner, the scale of
    layer 29 in the LAB tuner); the Qwen tuners have no fallback, three of
    them register nothing for the key and the live LAB tuner treats it as
    any key without an index, at the base scale. *)
Theorem key_resolution :
  (ZImage.resolve "layers.7.attention.q_proj.weight" = ZImage.Layer 7 /\
   forall (mode : string) (base : float) (kwargs : gmap string float),
     ZImage.resolve_lab (ZImage.layer_scales mode base kwargs)
       "layers.7.attention.q_proj.weight" = ZImage.Layer 7) /\
  (Host.layer_index "model.layers.7.q_proj.weight" = Some 7%Z /\
   Host.layer_index "layers.7.attention.q_proj.weight" = None) /\
  (ZImage.resolve "model.layers.7.q_proj.weight" = ZImage.Unaddressed /\
   (forall p : ZImage.Params,
      ZImage.resolve_scale p "model.layers.7.q_proj.weight" = (1.0%Q, false)) /\
   (forall (scales : gmap Z float) (vn vc ve : float),
      ZImage.resolve_lab scales "model.layers.7.q_proj.weight" = ZImage.Unaddressed /\
      ZImage.resolve_scale_lab scales vn vc ve "model.layers.7.q_proj.weight"
      = (1.0%Q, false))) /\
  (ZImage.resolve "final_layer.weight" = ZImage.FinalLayer /\
   (forall p : ZImage.Params,
      ZImage.resolve_scale p "final_layer.weight" = (ZImage.b6 p, true)) /\
   (forall (scales : gmap Z float) (vn vc ve : float),
      ZImage.resolve_lab scales "final_layer.weight" = ZImage.FinalLayer /\
      ZImage.resolve_scale_lab scales vn vc ve "final_layer.weight"
      = (default 1.0%Q (scales !! 29%Z), true))) /\
  (Host.layer_index "final_layer.weight" = None /\
   (forall (get_key_patches : Clip -> list (string * pdata)) (clip : Clip)
           (mode : string) (base : float) (kwargs : gmap string float),
      patches (QwenTE.tune_qwen_simple clip mode base kwargs).1.1
        !! "final_layer.weight" = patches clip !! "final_layer.weight" /\
      patches (QwenTE.tune_qwen_lab clip mode base kwargs).1.1
        !! "final_layer.weight" = patches clip !! "final_layer.weight" /\
      patches (QwenLive.tune_qwen get_key_patches clip mode base kwargs).1
        !! "final_layer.weight" = patches clip !! "final_layer.weight") /\
   (forall (scales : gmap Z float) (w_base : float),
      QwenLive.lab_target_scale scales w_base "final_layer.weight"
      = (w_base, 0%nat))).
Proof.
  split; [by split|]. split; [by split|]. split; [by repeat split|].
  split; [by repeat split|]. split; [done|]. split; [|done].
  intros gkp clip mode base kwargs.
  rewrite simple_clip_out, lab_clip_out, live_clip_out.
  repeat split; by apply patch_loop_untouched.
Qed.

(** ** The threshold, tuner by tuner *)

Section ThresholdFacts.

Lemma strength_of_one_plus_5e5 (ts : float) :
  (ts == 1 + 5e-5)%Q -> ~ (fsub ts 1.0 == 0)%Q.
Proof.
  intros Hts H. unfold fsub in H. rewrite Qred_correct, Hts in H.
  apply Qeq_bool_iff in H. vm_compute in H. discriminate.
Qed.

Lemma one_plus_5e5_is_not_one (s : float) :
  (s == 1 + 5e-5)%Q -> feqb s 1.0 = false.
Proof.
  intros Hs. destruct (feqb s 1.0) eqn:E; [|done].
  apply Qeq_bool_iff in E. rewrite Hs in E.
  apply Qeq_bool_iff in E. vm_compute in E. discriminate.
Qed.

Lemma strength_of_one (ts : float) : (ts == 1)%Q -> feqb (fsub ts 1.0) 0 = true.
Proof.
  intros Hts. apply Qeq_bool_iff. unfold fsub. rewrite Qred_correct, Hts.
  by vm_compute.
Qed.

Lemma strength_not_zero (s : float) : ~ (s == 0)%Q -> negb (feqb s 0) = true.
Proof.
  intros H. destruct (feqb s 0) eqn:E; [|done]. by apply Qeq_bool_iff in E.
Qed.

(** The block a destructive tuner leaves at index [i]: the restored block,
    scaled unless its scale is exactly 1.0. *)
Lemma tune_with_block s title mode cache m bb bs :
  LiveTuner.locate m = inr (bb, LiveTuner.Blocks bs) ->
  let r := LiveTuner.tune_with s title cache m mode in
  exists bk,
    LiveTuner.r_cache r !! LiveTuner.obj_id bb = Some bk /\
    forall i blk,
      LiveTuner.restore_from 0 bk bs !! i = Some blk ->
      blocks_of (LiveTuner.r_model r) !! i
      = Some (if feqb (s i) 1.0 then blk
              else map (LiveTuner.scale_module (s i)) blk).
Proof.
  intros Hloc r.
  destruct (tune_with_restores_then_scales s title mode cache m bb bs Hloc)
    as (bk & Hbk & _ & _ & Hm).
  exists bk. split; [exact Hbk|]. intros i blk Hi. subst r.
  rewrite Hm, (blocks_of_set_container _ _ _ _ Hloc), inject_from_lookup.
  unfold LiveTuner.Block in *. by rewrite Hi.
Qed.

Lemma qwen64_layer_scales_lookup mode kwargs name a b i :
  (name, (a, b)) ∈ QwenTE.group_inputs -> (a <= i < b)%nat ->
  QwenTE64.layer_scales mode kwargs !! Z.of_nat i
  = Some (QwenTE64.get_val mode (QwenTE64.kw_get kwargs name)).
Proof.
  intros H Hi.
  repeat (apply elem_of_cons in H as [H|H]; [inversion H; subst; clear H|]);
    [..|by apply elem_of_nil in H];
    do 36 (destruct i as [|i]; [first [lia | reflexivity]|]); lia.
Qed.

End ThresholdFacts.

Section Threshold.
Import PrimFloat.

(** C2, as the code has it -- The epsilon threshold belongs to the
    state-dict Z-Image tuners: in the Simple and in the LAB tuner a tensor
    whose resolved scale equals 1.0 + 5e-5 is left as it is and is not
    counted as modified.  The four patch tuners have no epsilon: at the
    scale 1.0 + 5e-5 the strength [scale - 1.0] is not zero, a key whose
    strength is not zero gets a patch of that strength, and a key is
    skipped when its scale is 1.0 (binary64: [1.00005 - 1.0] is not zero
    either, and is registered by the Simple tuner).  The
    destructive tuners skip a block only when its scale is exactly 1.0: at
    1.0 + 5e-5 every Linear weight of the restored block is multiplied by
    the scale. *)
Theorem epsilon_threshold_by_tuner_family :
  (forall (state_dict : list (string * Tensor)) (i : nat) (key : string)
          (t : Tensor) (scale : PyFloat.float) (is_target : bool),
     (scale == 1 + 5e-5)%Q ->
     state_dict !! i = Some (key, t) ->
     (forall inp : ZImage.Inputs,
        ZImage.resolve_scale (ZImage.params inp) key = (scale, is_target) ->
        (ZImage.tune state_dict inp).1.1 !! i = Some (key, t) /\
        (ZImage.tune_entry (ZImage.resolve_scale (ZImage.params inp))
           (ZImage.unsafe_tune_normalization inp) (key, t)).1.2 = 0%nat) /\
     (forall (mode : string) (base : PyFloat.float) (unsafe : bool) (kwargs : gmap string PyFloat.float),
        let gv := ZImage.lab_get_val mode base in
        let rs := ZImage.resolve_scale_lab (ZImage.layer_scales mode base kwargs)
                    (gv (kw_get kwargs "Noise_Refiners"))
                    (gv (kw_get kwargs "Context_Refiners"))
                    (gv (kw_get kwargs "Embedders_Global")) in
        rs key = (scale, is_target) ->
        (ZImage.tune_lab state_dict mode base unsafe kwargs).1.1 !! i = Some (key, t) /\
        (ZImage.tune_entry rs unsafe (key, t)).1.2 = 0%nat)) /\
  (forall (get_key_patches : Clip -> list (string * pdata)) (clip : Clip)
          (mode : string) (base : PyFloat.float) (kwargs : gmap string PyFloat.float)
          (key : string) (idx : Z) (ts : PyFloat.float),
     norm_or_bias key = false -> layer_index key = Some idx ->
     let registered (value : pdata) (out : Clip) :=
       PSeq [value; PNum (fsub ts 1.0); PNum 1.0]
         ∈ default [] (patches out !! key) in
     let skipped (out : Clip) := patches out !! key = patches clip !! key in
     let simple := (QwenTE.tune_qwen_simple clip mode base kwargs).1.1 in
     let lab := (QwenTE.tune_qwen_lab clip mode base kwargs).1.1 in
     let live := (QwenLive.tune_qwen get_key_patches clip mode base kwargs).1 in
     let live_lab := (QwenLive.tune_qwen_lab get_key_patches clip mode base kwargs).1 in
     let at_simple :=
       QwenTE.target_scale (QwenTE.layer_scales mode kwargs) (get_val mode base) idx
       = Some ts in
     let at_lab :=
       QwenTE.target_scale (QwenTE.lab_layer_scales mode kwargs) (get_val mode base) idx
       = Some ts in
     let at_live := QwenLive.layer_map mode base kwargs !! idx = Some ts in
     let at_live_lab :=
       (QwenLive.lab_target_scale (QwenLive.lab_layer_scales mode kwargs)
          (get_val mode base) key).1 = ts in
     ((ts == 1 + 5e-5)%Q -> ~ (fsub ts 1.0 == 0)%Q) /\
     (~ (fsub ts 1.0 == 0)%Q ->
      (forall t, (key, t) ∈ state_dict clip -> at_simple ->
                 registered (PSeq [PTensor t]) simple) /\
      (forall t, (key, t) ∈ state_dict clip -> at_lab ->
                 registered (PSeq [PTensor t]) lab) /\
      (forall value, (key, value) ∈ get_key_patches clip -> at_live ->
                     registered value live) /\
      (forall value, (key, value) ∈ get_key_patches clip -> at_live_lab ->
                     registered value live_lab)) /\
     ((ts == 1)%Q ->
      (at_simple -> skipped simple) /\ (at_lab -> skipped lab) /\
      (at_live -> skipped live) /\ (at_live_lab -> skipped live_lab))) /\
  (forall (kwargs : gmap string PrimFloat.float) (name : string) (a b i : nat)
          (key : string),
     (name, (a, b)) ∈ QwenTE.group_inputs -> (a <= i < b)%nat ->
     kwargs !! name = Some 1.00005%float ->
     norm_or_bias key = false -> layer_index key = Some (Z.of_nat i) ->
     QwenTE64.strength "Real Value" 1.0 kwargs key = Some (1.00005 - 1.0)%float /\
     ((1.00005 - 1.0) =? 0)%float = false) /\
  (forall (cache : LiveTuner.Cache) (m : LiveTuner.Model) (bb : LiveTuner.Backbone)
          (bs : list LiveTuner.Block) (mode : string) (base : PyFloat.float)
          (kwargs : gmap string PyFloat.float),
     LiveTuner.locate m = inr (bb, LiveTuner.Blocks bs) ->
     let scaled (r : LiveTuner.Result) (scale_of : nat -> PyFloat.float) :=
       exists bk,
         LiveTuner.r_cache r !! LiveTuner.obj_id bb = Some bk /\
         forall i blk,
           LiveTuner.restore_from 0 bk bs !! i = Some blk ->
           (scale_of i == 1 + 5e-5)%Q ->
           blocks_of (LiveTuner.r_model r) !! i
           = Some (map (LiveTuner.scale_module (scale_of i)) blk) in
     scaled (LiveTuner.tune_zimage cache m mode base kwargs)
       (fun i => default 1.0%Q (LiveTuner.layer_weights mode base kwargs !! i)) /\
     scaled (LiveTuner.tune_zimage_lab cache m mode base kwargs)
       (LiveTuner.lab_scale mode base kwargs)).
Proof.
  split; [|split; [|split]].
  - intros state_dict i key t scale is_target Hs Hi. split.
    + intros inp Hr. unfold ZImage.tune.
      erewrite tune_loop_lookup by done.
      rewrite tune_entry_not_scaled; [done|].
      simpl. rewrite Hr. by apply must_scale_one_plus_5e5.
    + intros mode base unsafe kwargs gv rs Hr. unfold ZImage.tune_lab.
      fold gv. fold rs. erewrite tune_loop_lookup by done.
      rewrite tune_entry_not_scaled; [done|].
      simpl. rewrite Hr. by apply must_scale_one_plus_5e5.
  - intros gkp clip mode base kwargs key idx ts Hnb Hidx registered skipped
      simple lab live live_lab at_simple at_lab at_live at_live_lab.
    subst registered skipped simple lab live live_lab at_simple at_lab at_live
      at_live_lab. cbn beta.
    rewrite simple_clip_out, lab_clip_out, live_clip_out, live_lab_clip_out.
    split; [apply strength_of_one_plus_5e5|]. split.
    + intros Hnz. pose proof (strength_not_zero _ Hnz) as Hb.
      split; [|split; [|split]].
      * intros t Hin Hat. eapply patch_loop_registers; [exact Hin|].
        unfold QwenTE.patch_body. rewrite Hnb, Hidx, Hat. cbn zeta. by rewrite Hb.
      * intros t Hin Hat. eapply patch_loop_registers; [exact Hin|].
        unfold QwenTE.patch_body. rewrite Hnb, Hidx, Hat. cbn zeta. by rewrite Hb.
      * intros value Hin Hat. eapply patch_loop_registers; [exact Hin|].
        unfold QwenLive.tune_body. rewrite Hnb, Hidx, Hat. cbn zeta. by rewrite Hb.
      * intros value Hin Hat. eapply patch_loop_registers; [exact Hin|].
        unfold QwenLive.lab_body. rewrite Hnb, Hat. cbn zeta. by rewrite Hb.
    + intros Hts. pose proof (strength_of_one ts Hts) as Hz.
      split; [|split; [|split]]; intros Hat; apply patch_loop_untouched; intros v.
      * unfold QwenTE.patch_body. rewrite Hnb, Hidx, Hat. cbn zeta. by rewrite Hz.
      * unfold QwenTE.patch_body. rewrite Hnb, Hidx, Hat. cbn zeta. by rewrite Hz.
      * unfold QwenLive.tune_body. rewrite Hnb, Hidx, Hat. cbn zeta. by rewrite Hz.
      * unfold QwenLive.lab_body. rewrite Hnb, Hat. cbn zeta. by rewrite Hz.
  - intros kwargs name a b i key Hg Hi Hk Hnb Hidx. split; [|reflexivity].
    unfold QwenTE64.strength, QwenTE64.target_scale.
    rewrite Hnb, Hidx, (qwen64_layer_scales_lookup _ _ _ _ _ _ Hg Hi).
    unfold QwenTE64.kw_get. rewrite Hk. reflexivity.
  - intros cache m bb bs mode base kwargs Hloc scaled. subst scaled. cbn beta.
    split.
    + destruct (tune_with_block
                  (fun i => default 1.0%Q (LiveTuner.layer_weights mode base kwargs !! i))
                  "Z-Image Active" mode cache m bb bs Hloc) as (bk & Hbk & Hblk).
      exists bk. split; [exact Hbk|]. intros i blk Hi Hs.
      etrans; [exact (Hblk i blk Hi)|]. cbn beta.
      by rewrite (one_plus_5e5_is_not_one _ Hs).
    + destruct (tune_with_block (LiveTuner.lab_scale mode base kwargs)
                  "Z-Image Lab" mode cache m bb bs Hloc) as (bk & Hbk & Hblk).
      exists bk. split; [exact Hbk|]. intros i blk Hi Hs.
      etrans; [exact (Hblk i blk Hi)|]. cbn beta.
      by rewrite (one_plus_5e5_is_not_one _ Hs).
Qed.

Lemma epsilon_threshold_by_tuner_family_witness :
  let scale : PyFloat.float := (20001 # 20000)%Q in
  let kwargs : gmap string PyFloat.float :=
    {[ "Zone_1_Embedding_00_05" := 1.00005%Q ]} in
  let kwargs64 : gmap string PrimFloat.float :=
    {[ "Zone_1_Embedding_00_05" := 1.00005%float ]} in
  let key := "model.layers.0.self_attn.q_proj.weight" in
  (scale == 1 + 5e-5)%Q /\
  ZImage.resolve_scale (ZImage.params demo_epsilon_inputs) "layers.0.adapter.weight"
    = (scale, true) /\
  (ZImage.tune [("layers.0.adapter.weight", demo_weight 1 2)]
     demo_epsilon_inputs).1.1 !! 0%nat
  = Some ("layers.0.adapter.weight", demo_weight 1 2) /\
  norm_or_bias key = false /\ layer_index key = Some (Z.of_nat 0) /\
  (key, demo_weight 1 2) ∈ state_dict demo_clip /\
  QwenTE.target_scale (QwenTE.layer_scales "Real Value" kwargs)
    (get_val "Real Value" 1) (Z.of_nat 0) = Some scale /\
  PSeq [PSeq [PTensor (demo_weight 1 2)]; PNum (fsub scale 1.0); PNum 1.0]
    ∈ default [] (patches (QwenTE.tune_qwen_simple demo_clip "Real Value" 1
                             kwargs).1.1 !! key) /\
  ("Zone_1_Embedding_00_05", (0, 6)%nat) ∈ QwenTE.group_inputs /\
  (0 <= 0 < 6)%nat /\
  kwargs64 !! "Zone_1_Embedding_00_05" = Some 1.00005%float /\
  QwenTE64.strength "Real Value" 1.0 kwargs64 key = Some (1.00005 - 1.0)%float.
Proof.
  intros scale kwargs kwargs64 key.
  assert (scale == 1 + 5e-5)%Q as H1 by (vm_compute; reflexivity).
  assert (ZImage.resolve_scale (ZImage.params demo_epsilon_inputs)
            "layers.0.adapter.weight" = (scale, true)) as H2
    by (vm_compute; reflexivity).
  assert (norm_or_bias key = false) as H3 by reflexivity.
  assert (layer_index key = Some (Z.of_nat 0)) as H4 by reflexivity.
  assert ((key, demo_weight 1 2) ∈ state_dict demo_clip) as H5 by (vm_compute; left).
  assert (QwenTE.target_scale (QwenTE.layer_scales "Real Value" kwargs)
            (get_val "Real Value" 1) (Z.of_nat 0) = Some scale) as H6
    by (vm_compute; reflexivity).
  assert (("Zone_1_Embedding_00_05", (0, 6)%nat) ∈ QwenTE.group_inputs) as H7
    by left.
  assert (0 <= 0 < 6)%nat as H8 by lia.
  assert (kwargs64 !! "Zone_1_Embedding_00_05" = Some 1.00005%float) as H9
    by reflexivity.
  split; [exact H1|]. split; [exact H2|].
  split.
  { exact (proj1 (proj1 (proj1 epsilon_threshold_by_tuner_family
                           [("layers.0.adapter.weight", demo_weight 1 2)] 0%nat
                           _ _ _ _ H1 eq_refl) demo_epsilon_inputs H2)). }
  split; [exact H3|]. split; [exact H4|]. split; [exact H5|]. split; [exact H6|].
  split.
  { pose proof (proj1 (proj2 epsilon_threshold_by_tuner_family)
                  demo_key_patches demo_clip "Real Value" 1%Q kwargs
                  key _ scale H3 H4) as [Hnz [Hreg _]].
    exact (proj1 (Hreg (Hnz H1)) _ H5 H6). }
  split; [exact H7|]. split; [exact H8|]. split; [exact H9|].
  exact (proj1 (proj1 (proj2 (proj2 epsilon_threshold_by_tuner_family))
                  kwargs64 _ _ _ _ key H7 H8 H9 H3 H4)).
Defined.

End Threshold.

(** ** The export as a whole *)

Section ExportWhole.
Variable to_dtype : dtype -> Tensor -> Tensor.
Variable broadcast_add : Tensor -> Tensor -> option Tensor.

(** The counter an accumulation starts from is carried along and decides
    nothing. *)
Lemma accumulate_shift w c d ps :
  QwenTE.accumulate to_dtype broadcast_add w (c + d) ps
  = (fun wc : Tensor * nat => (wc.1, (c + wc.2)%nat))
      <$> QwenTE.accumulate to_dtype broadcast_add w d ps.
Proof.
  revert w d. induction ps as [|p ps IH]; intros w d; [done|].
  simpl. unfold QwenTE.apply_patch.
  destruct (QwenTE.find_tensor p) as [pt|]; [|apply IH].
  destruct (QwenTE.find_strength p) as [s|]; [|apply IH].
  destruct (QwenTE.tensor_add _ _ _) as [w'|]; [|done].
  replace (S (c + d)) with (c + S d)%nat by lia. apply IH.
Qed.

Lemma accumulate_from_zero w c ps w' c' :
  QwenTE.accumulate to_dtype broadcast_add w c ps = Some (w', c') ->
  exists c0, QwenTE.accumulate to_dtype broadcast_add w 0 ps = Some (w', c0) /\
             c' = (c + c0)%nat.
Proof.
  replace c with (c + 0)%nat at 1 by lia. rewrite accumulate_shift.
  destruct (QwenTE.accumulate _ _ w 0 ps) as [[w0 c0]|]; [|done].
  simpl. intros [= <- <-]. by exists c0.
Qed.

Lemma accumulate_to_count w c ps w' c0 :
  QwenTE.accumulate to_dtype broadcast_add w 0 ps = Some (w', c0) ->
  QwenTE.accumulate to_dtype broadcast_add w c ps = Some (w', (c + c0)%nat).
Proof.
  intros H. replace c with (c + 0)%nat at 1 by lia.
  by rewrite accumulate_shift, H.
Qed.

Lemma sd_get_in (sd : list (string * Tensor)) k t :
  QwenTE.sd_get sd k = Some t -> (k, t) ∈ sd.
Proof.
  induction sd as [|[k' t'] sd IH]; [done|]. simpl.
  destruct (String.eqb k' k) eqn:E.
  - apply String.eqb_eq in E as ->. intros [= ->]. by left.
  - intros H. right. by apply IH.
Qed.

(** The loop over the reference keys only appends and only counts up. *)
Lemma reconcile_extends clip smap dt final_sd count keys out n :
  QwenTE.reconcile to_dtype broadcast_add clip smap dt final_sd count keys
    = Some (out, n) ->
  (exists rest, out = (final_sd ++ rest)%list) /\ (count <= n)%nat.
Proof.
  revert final_sd count. induction keys as [|k keys IH]; intros final_sd count H.
  - simpl in H. inversion H; subst. split; [|lia]. exists []. by rewrite app_nil_r.
  - simpl in H. unfold QwenTE.reconcile_key in H.
    destruct (smap !! QwenTE.clean k) as [rk|]; [|by apply IH].
    destruct (QwenTE.sd_get (state_dict clip) rk) as [w0|]; [|done].
    destruct (QwenTE.accumulate _ _ _ _ _) as [[w c]|] eqn:E; [|done].
    apply accumulate_from_zero in E as (c0 & _ & ->).
    apply IH in H as [[rest ->] Hn]. split; [|lia].
    exists ((k, to_dtype dt w) :: rest). by rewrite <- app_assoc.
Qed.

(** What the loop has written for a matched reference key: the cast of
    what the accumulation over its patches returns. *)
Lemma reconcile_written clip smap dt final_sd count keys out n k rk w0 :
  QwenTE.reconcile to_dtype broadcast_add clip smap dt final_sd count keys
    = Some (out, n) ->
  k ∈ keys -> smap !! QwenTE.clean k = Some rk ->
  QwenTE.sd_get (state_dict clip) rk = Some w0 ->
  exists w c,
    QwenTE.accumulate to_dtype broadcast_add (to_dtype F32 w0) 0
      (QwenTE.patches_of (patches clip) rk (QwenTE.clean k)) = Some (w, c) /\
    (k, to_dtype dt w) ∈ out /\ (c <= n)%nat.
Proof.
  intros H Hin Hm Hw. revert final_sd count H.
  induction keys as [|k' keys IH]; intros final_sd count H;
    [by apply elem_of_nil in Hin|].
  simpl in H.
  destruct (QwenTE.reconcile_key _ _ clip smap dt final_sd count k')
    as [[sd1 c1]|] eqn:Ek; [|done].
  apply elem_of_cons in Hin as [<-|Hin]; [|by apply (IH Hin sd1 c1)].
  unfold QwenTE.reconcile_key in Ek. rewrite Hm, Hw in Ek.
  destruct (QwenTE.accumulate _ _ _ count _) as [[w c]|] eqn:E; [|done].
  inversion Ek; subst. apply accumulate_from_zero in E as (c0 & E0 & ->).
  apply reconcile_extends in H as [[rest ->] Hn].
  exists w, c0. split; [exact E0|]. split; [|lia].
  apply elem_of_app. left. apply elem_of_app. right. by left.
Qed.

(** The loop fails only where an accumulation does. *)
Lemma reconcile_succeeds clip dt final_sd count keys :
  (forall k rk w0,
     k ∈ keys ->
     QwenTE.suffix_map (state_dict clip) !! QwenTE.clean k = Some rk ->
     QwenTE.sd_get (state_dict clip) rk = Some w0 ->
     is_Some (QwenTE.accumulate to_dtype broadcast_add (to_dtype F32 w0) 0
                (QwenTE.patches_of (patches clip) rk (QwenTE.clean k)))) ->
  is_Some (QwenTE.reconcile to_dtype broadcast_add clip
             (QwenTE.suffix_map (state_dict clip)) dt final_sd count keys).
Proof.
  revert final_sd count. induction keys as [|k keys IH]; intros final_sd count H;
    [by eexists|].
  simpl. unfold QwenTE.reconcile_key.
  destruct (QwenTE.suffix_map (state_dict clip) !! QwenTE.clean k) as [rk|] eqn:Em.
  - destruct (suffix_map_sound _ _ _ Em) as [_ [w0 Hw]]. rewrite Hw.
    destruct (H k rk w0) as [[w c] Hacc]; [by left|done|done|].
    rewrite (accumulate_to_count _ count _ _ _ Hacc).
    apply IH. intros k' rk' w' Hin. apply H. by right.
  - apply IH. intros k' rk' w' Hin. apply H. by right.
Qed.

(** With distinct reference keys a key is written once. *)
Lemma reconcile_unique clip smap dt keys out n k t t' :
  QwenTE.reconcile to_dtype broadcast_add clip smap dt [] 0 keys = Some (out, n) ->
  NoDup keys -> (k, t) ∈ out -> (k, t') ∈ out -> t = t'.
Proof.
  intros H Hnd Ht Ht'. apply reconcile_keys in H. simpl in H.
  assert (NoDup (map fst out)) as Hout by (rewrite H; by apply NoDup_filter).
  assert ((k, t) = (k, t')) as Heq by (by apply (nodup_map_inj fst out)).
  by inversion Heq.
Qed.

(** A weight and its own patches have one shape: the accumulation goes
    through without broadcasting. *)
Lemma accumulate_own_patches w0 weight c ps :
  Forall (fun e => exists s sm, e = PSeq [PSeq [PTensor w0]; PNum s; PNum sm]) ps ->
  shape weight = shape (to_dtype F32 w0) ->
  is_Some (QwenTE.accumulate to_dtype broadcast_add weight c ps).
Proof.
  intros Hps. revert weight c.
  induction Hps as [|e ps (s & sm & ->) _ IH]; intros weight c Hsh; [by eexists|].
  simpl. unfold QwenTE.apply_patch.
  destruct (find_registered w0 s sm) as [-> ->].
  unfold shape_eqb. rewrite bool_decide_eq_true_2 by done.
  unfold QwenTE.tensor_add, shape_eqb, mul_. cbn [shape].
  rewrite bool_decide_eq_true_2 by done. by apply IH.
Qed.

End ExportWhole.



(** ** From the tuner to the archive *)

Section TunedExport.
Variable to_dtype : dtype -> Tensor -> Tensor.
Variable broadcast_add : Tensor -> Tensor -> option Tensor.

Lemma patch_body_value scales w_base key t value s :
  QwenTE.patch_body scales w_base key t = Some (value, s) ->
  value = PSeq [PTensor t].
Proof.
  unfold QwenTE.patch_body. destruct (norm_or_bias key); [done|].
  destruct (layer_index key) as [idx|]; [|done].
  destruct (QwenTE.target_scale scales w_base idx) as [ts|]; [|done].
  cbn zeta. destruct (negb (feqb (fsub ts 1.0) 0)); [|done]. by intros [= <- _].
Qed.

(** After a tuner has run on an encoder without patches, every entry of
    the registry is a patch of the tensor under its key. *)
Lemma tuned_entries_are_own scales w_base clip rk w0 e :
  patches clip = ∅ -> NoDup (map fst (state_dict clip)) ->
  QwenTE.sd_get (state_dict clip) rk = Some w0 ->
  e ∈ default [] (patches (patch_loop (QwenTE.patch_body scales w_base)
                             (state_dict clip) clip).1 !! rk) ->
  exists s sm, e = PSeq [PSeq [PTensor w0]; PNum s; PNum sm].
Proof.
  intros Hp Hnd Hw He.
  apply patch_loop_entries_inv in He as [He|(t & value & s & Hin & Hb & ->)].
  - rewrite Hp, lookup_empty in He. by apply elem_of_nil in He.
  - apply patch_body_value in Hb as ->.
    rewrite (sd_get_elem _ _ _ Hnd Hin) in Hw. inversion Hw; subst.
    by exists s, 1.0%Q.
Qed.

Lemma tuned_registry_keys scales w_base clip k e :
  patches clip = ∅ ->
  e ∈ default [] (patches (patch_loop (QwenTE.patch_body scales w_base)
                             (state_dict clip) clip).1 !! k) ->
  k ∈ map fst (state_dict clip).
Proof.
  intros Hp He.
  apply patch_loop_entries_inv in He as [He|(t & value & s & Hin & _ & _)].
  - rewrite Hp, lookup_empty in He. by apply elem_of_nil in He.
  - apply list_elem_of_fmap. by exists (k, t).
Qed.

(** The export of a freshly tuned encoder never fails. *)
Lemma tuned_export_accumulates scales w_base clip k rk w0 :
  patches clip = ∅ -> NoDup (map fst (state_dict clip)) ->
  clean_stable (state_dict clip) ->
  let tuned := (patch_loop (QwenTE.patch_body scales w_base)
                  (state_dict clip) clip).1 in
  QwenTE.suffix_map (state_dict clip) !! QwenTE.clean k = Some rk ->
  QwenTE.sd_get (state_dict clip) rk = Some w0 ->
  is_Some (QwenTE.accumulate to_dtype broadcast_add (to_dtype F32 w0) 0
             (QwenTE.patches_of (patches tuned) rk (QwenTE.clean k))).
Proof.
  intros Hp Hnd Hst tuned Hm Hw. unfold QwenTE.patches_of.
  destruct (patches tuned !! rk) as [ps|] eqn:Erk.
  - apply (accumulate_own_patches to_dtype broadcast_add w0); [|done].
    apply Forall_forall. intros e He.
    apply (tuned_entries_are_own scales w_base clip rk w0 e Hp Hnd Hw).
    fold tuned. by rewrite Erk.
  - destruct (patches tuned !! QwenTE.clean k) as [ps|] eqn:Ec; [|by eexists].
    destruct ps as [|e ps]; [by eexists|]. exfalso.
    assert (QwenTE.clean k ∈ map fst (state_dict clip)) as Hck.
    { apply (tuned_registry_keys scales w_base clip _ e Hp).
      fold tuned. rewrite Ec. by left. }
    destruct (suffix_map_sound _ _ _ Hm) as [Hc _].
    assert (rk ∈ map fst (state_dict clip)) as Hrk.
    { apply list_elem_of_fmap. exists (rk, w0). split; [done|]. by apply sd_get_in. }
    unfold clean_stable in Hst. rewrite Forall_forall in Hst.
    rewrite Hc in Hck, Ec. rewrite (Hst rk Hrk Hck) in Ec. congruence.
Qed.

Lemma tuned_export scales mode base clip original_keys save_precision :
  patches clip = ∅ -> NoDup (map fst (state_dict clip)) ->
  clean_stable (state_dict clip) ->
  let dt := if String.eqb save_precision "fp32" then F32 else F16 in
  let tuned := (patch_loop (QwenTE.patch_body scales (get_val mode base))
                  (state_dict clip) clip).1 in
  exists final_sd n,
    QwenTE.save_qwen to_dtype broadcast_add tuned (Some original_keys) save_precision
      = QwenTE.Written final_sd n /\
    forall orig_key ram_key w0 idx ts,
      orig_key ∈ original_keys ->
      QwenTE.suffix_map (state_dict clip) !! QwenTE.clean orig_key = Some ram_key ->
      (ram_key, w0) ∈ state_dict clip ->
      norm_or_bias ram_key = false -> layer_index ram_key = Some idx ->
      QwenTE.target_scale scales (get_val mode base) idx = Some ts ->
      ~ (fsub ts 1.0 == 0)%Q ->
      (orig_key, to_dtype dt (mul_ (to_dtype F32 w0) ts)) ∈ final_sd /\
      (1 <= n)%nat /\
      (NoDup original_keys ->
       forall t, (orig_key, t) ∈ final_sd ->
                 t = to_dtype dt (mul_ (to_dtype F32 w0) ts)).
Proof.
  intros Hp Hnd Hst dt tuned.
  assert (state_dict tuned = state_dict clip) as Hsd
    by (subst tuned; apply patch_loop_state_dict).
  unfold QwenTE.save_qwen. fold dt. rewrite Hsd.
  destruct (reconcile_succeeds to_dtype broadcast_add tuned dt [] 0%nat
              original_keys) as [[out n] E].
  { rewrite Hsd. intros k rk w0 _ Hm Hw.
    by apply (tuned_export_accumulates scales (get_val mode base) clip). }
  rewrite Hsd in E. rewrite E. exists out, n. split; [done|].
  intros orig_key ram_key w0 idx ts Hin Hm Hw0 Hnb Hidx Hts Hs.
  pose proof (sd_get_elem _ _ _ Hnd Hw0) as Hw.
  assert (QwenTE.patch_body scales (get_val mode base) ram_key w0
          = Some (PSeq [PTensor w0], fsub ts 1.0)) as Hb.
  { unfold QwenTE.patch_body. rewrite Hnb, Hidx, Hts. cbn zeta.
    destruct (feqb (fsub ts 1.0) 0) eqn:Ez; [|done]. by apply Qeq_bool_iff in Ez. }
  assert (QwenTE.sd_get (state_dict tuned) ram_key = Some w0) as Hw'
    by (by rewrite Hsd).
  destruct (reconcile_written to_dtype broadcast_add tuned _ dt [] 0%nat
              original_keys out n orig_key ram_key w0 E Hin Hm Hw')
    as (w & c & Hacc & Hout & Hc).
  unfold QwenTE.patches_of in Hacc. subst tuned.
  rewrite (patch_loop_exact _ (state_dict clip) clip ram_key w0
             (PSeq [PTensor w0]) (fsub ts 1.0) Hnd Hw0 Hb) in Hacc.
  rewrite Hp, lookup_empty in Hacc. cbn [default app QwenTE.accumulate] in Hacc.
  rewrite apply_patch_registered in Hacc. inversion Hacc; subst w c.
  split; [exact Hout|]. split; [exact Hc|].
  intros Hnk t Ht.
  exact (reconcile_unique to_dtype broadcast_add _ _ _ _ _ _ _ _ _ E Hnk Ht Hout).
Qed.

End TunedExport.

(** X20 -- From the tuner to the archive.  Take a text encoder without
    patches whose state dict has distinct keys, none of them the cleaned form
    of another.  The export of the clip that the Simple (resp. LAB) tuner
    returns never fails; and for every reference key matched to a tensor
    [w0] that passes the norm / bias filter and belongs to a layer whose
    target scale [ts] is not 1, the archive holds [v * ts] cast to the export
    precision, [v] being [w0] loaded in float32 (with distinct reference
    keys, nothing else under that key), and at least one patch is counted. *)
Theorem tuned_weights_are_exported_scaled
    (to_dtype : dtype -> Tensor -> Tensor)
    (broadcast_add : Tensor -> Tensor -> option Tensor)
    (clip : Clip) (mode : string) (base : float) (kwargs : gmap string float)
    (original_keys : list string) (save_precision : string) :
  patches clip = ∅ -> NoDup (map fst (state_dict clip)) ->
  clean_stable (state_dict clip) ->
  let dt := if String.eqb save_precision "fp32" then F32 else F16 in
  let exported (tuned : Clip) (scales : gmap Z float) :=
    exists final_sd n,
      QwenTE.save_qwen to_dtype broadcast_add tuned (Some original_keys)
        save_precision = QwenTE.Written final_sd n /\
      forall orig_key ram_key w0 idx ts,
        orig_key ∈ original_keys ->
        QwenTE.suffix_map (state_dict clip) !! QwenTE.clean orig_key = Some ram_key ->
        (ram_key, w0) ∈ state_dict clip ->
        norm_or_bias ram_key = false -> layer_index ram_key = Some idx ->
        QwenTE.target_scale scales (get_val mode base) idx = Some ts ->
        ~ (fsub ts 1.0 == 0)%Q ->
        (orig_key, to_dtype dt (mul_ (to_dtype F32 w0) ts)) ∈ final_sd /\
        (1 <= n)%nat /\
        (NoDup original_keys ->
         forall t, (orig_key, t) ∈ final_sd ->
                   t = to_dtype dt (mul_ (to_dtype F32 w0) ts)) in
  exported (QwenTE.tune_qwen_simple clip mode base kwargs).1.1
    (QwenTE.layer_scales mode kwargs) /\
  exported (QwenTE.tune_qwen_lab clip mode base kwargs).1.1
    (QwenTE.lab_layer_scales mode kwargs).
Proof.
  intros Hp Hnd Hst dt exported. subst exported. cbn beta.
  rewrite simple_clip_out, lab_clip_out.
  split; by apply tuned_export.
Qed.

Lemma tuned_weights_are_exported_scaled_witness :
  let keys := ["model.layers.7.mlp.up_proj.weight"; "lm_head.weight";
               "model.norm.weight"] in
  let kwargs : gmap string float := {[ "Zone_2_Syntax_Low_06_11" := 1.5%Q ]} in
  let tuned := (QwenTE.tune_qwen_simple demo_prefixed_clip "Soft Value" 1.0 kwargs).1.1 in
  patches demo_prefixed_clip = ∅ /\
  NoDup (map fst (state_dict demo_prefixed_clip)) /\
  clean_stable (state_dict demo_prefixed_clip) /\
  exists final_sd n,
    QwenTE.save_qwen demo_to_dtype demo_broadcast_add tuned (Some keys) "fp16"
      = QwenTE.Written final_sd n /\
    forall orig_key ram_key w0 idx ts,
      orig_key ∈ keys ->
      QwenTE.suffix_map (state_dict demo_prefixed_clip) !! QwenTE.clean orig_key
        = Some ram_key ->
      (ram_key, w0) ∈ state_dict demo_prefixed_clip ->
      norm_or_bias ram_key = false -> layer_index ram_key = Some idx ->
      QwenTE.target_scale (QwenTE.layer_scales "Soft Value" kwargs)
        (get_val "Soft Value" 1.0) idx = Some ts ->
      ~ (fsub ts 1.0 == 0)%Q ->
      (orig_key, demo_to_dtype F16 (mul_ (demo_to_dtype F32 w0) ts)) ∈ final_sd /\
      (1 <= n)%nat /\
      (NoDup keys ->
       forall t, (orig_key, t) ∈ final_sd ->
                 t = demo_to_dtype F16 (mul_ (demo_to_dtype F32 w0) ts)).
Proof.
  intros keys kwargs tuned.
  assert (patches demo_prefixed_clip = ∅) as H1 by reflexivity.
  assert (NoDup (map fst (state_dict demo_prefixed_clip))) as H2
    by (apply (bool_decide_unpack _); by vm_compute).
  assert (clean_stable (state_dict demo_prefixed_clip)) as H3.
  { unfold clean_stable. repeat constructor; intros H; exfalso;
      vm_compute in H; repeat (apply elem_of_cons in H as [H|H]; [discriminate|]);
      by apply elem_of_nil in H. }
  split; [exact H1|]. split; [exact H2|]. split; [exact H3|].
  exact (proj1 (tuned_weights_are_exported_scaled demo_to_dtype demo_broadcast_add
                  demo_prefixed_clip "Soft Value" 1.0%Q kwargs keys "fp16"
                  H1 H2 H3)).
Defined.

(** ** The end-to-end scenario of the six-zone tuner, in both arithmetics *)

Section SixZones.
Import PrimFloat.

(** C9, as stated, fails in the arithmetic of the program: with zone 2 at
    1.5, base 1.0 and SOFT mode, the strength registered for a tensor of
    layer 7 is the binary64 number [1.1 - 1.0 = 0.10000000000000009], which
    is not the binary64 number 0.1. *)
Lemma registered_strength_is_not_the_double_one_tenth :
  QwenTE64.strength "Soft Value" 1.0 {[ "Zone_2_Syntax_Low_06_11" := 1.5%float ]}
    "model.layers.7.mlp.up_proj.weight" = Some 0.10000000000000009%float /\
  0.10000000000000009%float <> 0.1%float /\
  (0.10000000000000009 =? 0.1)%float = false.
Proof. split; [reflexivity|]. split; [discriminate|reflexivity]. Qed.

(** C9, as the code has it -- Six zones over 36 layers, SOFT mode, base
    1.0, one zone slider at 1.5.  Every index of that zone gets the
    multiplier (0.8 + 0.2*1.5) * (0.8 + 0.2*1.0) = 1.1, in exact arithmetic
    and in binary64 alike.  The strength recorded and registered is the
    multiplier minus 1.0: in exact arithmetic 0.1, in binary64
    [1.1 - 1.0 = 0.10000000000000009], which is within 1e-16 of 0.1 and is
    not the binary64 number 0.1.  Every tensor of the zone that the loop
    matches is registered with the patch (its own weight, that strength,
    factor 1.0). *)
Theorem six_zone_soft_scenario
    (clip : Clip) (base : PyFloat.float) (kwargs : gmap string PyFloat.float)
    (kwargs64 : gmap string PrimFloat.float) (name : string) (a b i : nat) :
  (name, (a, b)) ∈ QwenTE.group_inputs -> (a <= i < b)%nat ->
  (base == 1.0)%Q -> (kw_get kwargs name == 1.5)%Q ->
  kwargs64 !! name = Some 1.5%float ->
  let r := QwenTE.tune_qwen_simple clip "Soft Value" base kwargs in
  (QwenTE.target_scale (QwenTE.layer_scales "Soft Value" kwargs)
     (get_val "Soft Value" base) (Z.of_nat i) = Some 1.1%Q /\
   QwenTE64.target_scale "Soft Value" 1.0 kwargs64 (Z.of_nat i) = Some 1.1%float) /\
  (QwenTE.dbg_layers r.2 !! Z.of_nat i = Some (fsub 1.1 1.0) /\
   (fsub 1.1 1.0 == 0.1)%Q /\
   QwenTE64.debug_layers "Soft Value" 1.0 kwargs64 !! Z.of_nat i
   = Some (1.1 - 1.0)%float /\
   (1.1 - 1.0)%float = 0.10000000000000009%float /\
   (1.1 - 1.0 =? 0.1)%float = false /\
   (abs ((1.1 - 1.0) - 0.1) <? 1e-16)%float = true) /\
  (forall key t,
     (key, t) ∈ state_dict clip -> norm_or_bias key = false ->
     Host.layer_index key = Some (Z.of_nat i) ->
     QwenTE64.strength "Soft Value" 1.0 kwargs64 key = Some (1.1 - 1.0)%float /\
     PSeq [PSeq [PTensor t]; PNum (fsub 1.1 1.0); PNum 1.0]
       ∈ default [] (patches r.1.1 !! key)).
Proof.
  intros Hin Hi Hb Hv Hk r.
  assert (QwenTE.target_scale (QwenTE.layer_scales "Soft Value" kwargs)
            (get_val "Soft Value" base) (Z.of_nat i) = Some 1.1%Q) as Hts.
  { unfold QwenTE.target_scale.
    erewrite qwen_layer_scales_lookup by done. simpl.
    by rewrite soft_scale_of_one_point_five. }
  assert (QwenTE64.layer_scales "Soft Value" kwargs64 !! Z.of_nat i
          = Some (0.8 + 0.2 * 1.5)%float) as Hts64.
  { rewrite (qwen64_layer_scales_lookup _ _ _ _ _ _ Hin Hi).
    unfold QwenTE64.kw_get. by rewrite Hk. }
  split; [split; [exact Hts|]|split].
  - unfold QwenTE64.target_scale. by rewrite Hts64.
  - split; [|split; [by vm_compute|split; [|by repeat split]]].
    + subst r. unfold QwenTE.tune_qwen_simple.
      destruct (patch_loop _ _ _) as [c n]. cbn [snd QwenTE.dbg_layers].
      rewrite lookup_fmap. erewrite qwen_layer_scales_lookup by done.
      cbn [fmap option_fmap option_map].
      by rewrite soft_scale_of_one_point_five.
    + unfold QwenTE64.debug_layers. rewrite lookup_fmap. by rewrite Hts64.
  - intros key t Hkt Hnb Hidx. split.
    + unfold QwenTE64.strength, QwenTE64.target_scale.
      rewrite Hnb, Hidx. by rewrite Hts64.
    + subst r. rewrite simple_clip_out.
      eapply patch_loop_registers; [exact Hkt|].
      unfold QwenTE.patch_body. by rewrite Hnb, Hidx, Hts.
Qed.

Lemma six_zone_soft_scenario_witness :
  let kwargs : gmap string PyFloat.float := {[ "Zone_2_Syntax_Low_06_11" := 1.5%Q ]} in
  let kwargs64 : gmap string PrimFloat.float :=
    {[ "Zone_2_Syntax_Low_06_11" := 1.5%float ]} in
  let key := "model.layers.7.mlp.up_proj.weight" in
  (("Zone_2_Syntax_Low_06_11", (6, 12)) ∈ QwenTE.group_inputs /\ (6 <= 7 < 12))%nat /\
  (1.0 == 1.0)%Q /\
  (kw_get kwargs "Zone_2_Syntax_Low_06_11" == 1.5)%Q /\
  kwargs64 !! "Zone_2_Syntax_Low_06_11" = Some 1.5%float /\
  (key, demo_weight 5 6) ∈ state_dict demo_clip /\
  norm_or_bias key = false /\
  Host.layer_index key = Some (Z.of_nat 7) /\
  QwenTE64.strength "Soft Value" 1.0 kwargs64 key = Some (1.1 - 1.0)%float /\
  PSeq [PSeq [PTensor (demo_weight 5 6)]; PNum (fsub 1.1 1.0); PNum 1.0]
    ∈ default [] (patches (QwenTE.tune_qwen_simple demo_clip "Soft Value" 1.0
                             kwargs).1.1 !! key).
Proof.
  intros kwargs kwargs64 key.
  assert (("Zone_2_Syntax_Low_06_11", (6, 12)) ∈ QwenTE.group_inputs)%nat as H1
    by (vm_compute; right; left).
  assert (6 <= 7 < 12)%nat as H2 by lia.
  assert (1.0 == 1.0)%Q as H3 by reflexivity.
  assert (kw_get kwargs "Zone_2_Syntax_Low_06_11" == 1.5)%Q as H4 by reflexivity.
  assert (kwargs64 !! "Zone_2_Syntax_Low_06_11" = Some 1.5%float) as H5
    by reflexivity.
  assert ((key, demo_weight 5 6) ∈ state_dict demo_clip) as H6
    by (vm_compute; do 4 right; left).
  assert (norm_or_bias key = false) as H7 by reflexivity.
  assert (Host.layer_index key = Some (Z.of_nat 7)) as H8 by reflexivity.
  split; [by split|]. split; [exact H3|]. split; [exact H4|]. split; [exact H5|].
  split; [exact H6|]. split; [exact H7|]. split; [exact H8|].
  exact (proj2 (proj2 (six_zone_soft_scenario demo_clip 1.0%Q kwargs kwargs64
                         _ _ _ _ H1 H2 H3 H4 H5)) _ _ H6 H7 H8).
Defined.

End SixZones.
